(** * k8s-resource-collector: a shallow embedding of [cmd/main.go]

  The development follows the layout of the Go program:
  - [GoStrings], [Strconv]: the functions of Go's [strings] and [strconv]
    packages that the program calls, over byte strings;
  - [Deprecation]: [DeprecationRule], [ClusterVersion],
    [getDeprecationRules], [isDeprecated], [shouldSkipResource];
  - [Diff]: [parseResources], [findUniqueResources], [findCommonResources];
  - [MustGather]: [makeResourceKey], [processMustGatherFile],
    [processMustGatherToSingleFile];
  - [Collector]: [detectClusterVersion], [collectResources],
    [collectAllResourcesToSingleFile];
  - [Outcome]: what the two loops of a live collection come to, resource
    by resource;
  - [Modes]: [runCollector] and the modes it chooses from,
    [runMustGatherMode], [runMustGatherComparisonMode], [runComparisonMode],
    with [generateDiff], [processMustGatherDirectory] and the functions
    that validate a path and name a snapshot.

  A Go [string] is a sequence of bytes: it is a [string] of 8-bit [ascii]
  here.  A Go [int] is a 64-bit integer: it is a [Z] kept in range by
  [wrap64] wherever the program does arithmetic on it.  What the program
  gets from the outside is a parameter: the YAML library, the cluster and
  the machine are the classes [Yaml], [Cluster] and [Host], and the order
  in which a [range] loop yields the keys of a Go map is an argument of
  the function that has the loop.  What the program prints is left out,
  and with it the two readings of the clock between which a mode measures
  the duration it prints. *)

From Stdlib Require Import ZArith Ascii String List Lia.
From stdpp Require Import gmap strings list fin_maps sorting pretty.

Local Open Scope Z_scope.

(** ** Go's [strings] package *)

Module GoStrings.

(** [strings.HasPrefix(s, prefix)]. *)
Fixpoint HasPrefix (s prefix : string) {struct prefix} : bool :=
  match prefix with
  | EmptyString => true
  | String p prefix' =>
      match s with
      | EmptyString => false
      | String c s' => Ascii.eqb c p && HasPrefix s' prefix'
      end
  end.

(** [s[n:]], for [n <= len(s)]. *)
Fixpoint sliceFrom (n : nat) (s : string) : string :=
  match n, s with
  | O, _ => s
  | S n', String _ s' => sliceFrom n' s'
  | S _, EmptyString => EmptyString
  end.

(** [strings.HasSuffix(s, suffix)]:
    [len(s) >= len(suffix) && s[len(s)-len(suffix):] == suffix]. *)
Definition HasSuffix (s suffix : string) : bool :=
  let n := String.length s in
  let k := String.length suffix in
  (k <=? n)%nat && String.eqb (sliceFrom (n - k) s) suffix.

(** [strings.TrimSuffix(s, suffix)]. *)
Definition TrimSuffix (s suffix : string) : string :=
  if HasSuffix s suffix
  then String.substring 0 (String.length s - String.length suffix) s
  else s.

(** [strings.Contains(s, substr)]. *)
Fixpoint Contains (s substr : string) : bool :=
  HasPrefix s substr ||
  match s with
  | EmptyString => false
  | String _ s' => Contains s' substr
  end.

(** The lower-case mapping of one byte.  [strings.ToLower] maps the
    letters of Unicode; the model maps the ASCII letters and keeps every
    other byte, so it is exact on ASCII text. *)
Definition lowerByte (c : ascii) : ascii :=
  let n := nat_of_ascii c in
  if ((65 <=? n) && (n <=? 90))%nat then ascii_of_nat (n + 32) else c.

(** [strings.ToLower(s)], as it is on ASCII text, where Go too goes byte
    by byte.  On other text Go maps the letters of Unicode and the model
    leaves them: what is proved of the keys of kinds either holds of both
    or is stated for ASCII text. *)
Fixpoint ToLower (s : string) : string :=
  match s with
  | EmptyString => EmptyString
  | String c s' => String (lowerByte c) (ToLower s')
  end.

(** [strings.ReplaceAll(s, old, new)] for a non-empty [old]: the
    occurrences are found left to right and do not overlap.  [skip] counts
    the bytes of a matched [old] still to be passed over. *)
Fixpoint replaceFrom (old new : string) (skip : nat) (s : string) : string :=
  match s with
  | EmptyString => EmptyString
  | String c s' =>
      match skip with
      | S k => replaceFrom old new k s'
      | O =>
          if HasPrefix s old
          then new +:+ replaceFrom old new (String.length old - 1) s'
          else String c (replaceFrom old new O s')
      end
  end.

Definition ReplaceAll (s old new : string) : string :=
  replaceFrom old new O s.

(** [strings.Split(s, sep)] for a non-empty [sep]: the first piece and the
    pieces after it.  [Split] of the empty string is one empty piece. *)
Fixpoint splitFrom (sep : string) (skip : nat) (s : string)
  : string * list string :=
  match s with
  | EmptyString => (EmptyString, [])
  | String c s' =>
      match skip with
      | S k => splitFrom sep k s'
      | O =>
          if HasPrefix s sep
          then let r := splitFrom sep (String.length sep - 1) s' in
               (EmptyString, fst r :: snd r)
          else let r := splitFrom sep O s' in
               (String c (fst r), snd r)
      end
  end.

Definition Split (s sep : string) : list string :=
  let r := splitFrom sep O s in fst r :: snd r.

(** The text before and after the first [sep] in [s], if there is one. *)
Fixpoint cut (s sep : string) : option (string * string) :=
  match s with
  | EmptyString => None
  | String c s' =>
      if HasPrefix s sep then Some (EmptyString, sliceFrom (String.length sep) s)
      else match cut s' sep with
           | Some (before, after) => Some (String c before, after)
           | None => None
           end
  end.

(** [strings.SplitN(s, sep, 2)] for a non-empty [sep]. *)
Definition SplitN2 (s sep : string) : list string :=
  match cut s sep with
  | Some (before, after) => [before; after]
  | None => [s]
  end.

(** The white space of [unicode.IsSpace], as UTF-8: the six ASCII
    characters, U+0085 and U+00A0 on two bytes, and U+1680, U+2000 to
    U+200A, U+2028, U+2029, U+202F, U+205F and U+3000 on three. *)
Definition isSpace1 (c : ascii) : bool :=
  let n := nat_of_ascii c in
  (((9 <=? n) && (n <=? 13)) || (n =? 32))%nat.

Definition isSpace2 (c1 c2 : ascii) : bool :=
  let a := nat_of_ascii c1 in
  let b := nat_of_ascii c2 in
  ((a =? 194) && ((b =? 133) || (b =? 160)))%nat.

Definition isSpace3 (c1 c2 c3 : ascii) : bool :=
  let a := nat_of_ascii c1 in
  let b := nat_of_ascii c2 in
  let c := nat_of_ascii c3 in
  (((a =? 225) && (b =? 154) && (c =? 128))
   || ((a =? 226) && (b =? 128)
       && (((128 <=? c) && (c <=? 138)) || (c =? 168) || (c =? 169) || (c =? 175)))
   || ((a =? 226) && (b =? 129) && (c =? 159))
   || ((a =? 227) && (b =? 128) && (c =? 128)))%nat.

(** [strings.TrimLeftFunc(s, unicode.IsSpace)]. *)
Fixpoint TrimLeftSpace (s : string) : string :=
  match s with
  | EmptyString => EmptyString
  | String c1 t1 =>
      if isSpace1 c1 then TrimLeftSpace t1
      else
        match t1 with
        | EmptyString => s
        | String c2 t2 =>
            if isSpace2 c1 c2 then TrimLeftSpace t2
            else
              match t2 with
              | EmptyString => s
              | String c3 t3 =>
                  if isSpace3 c1 c2 c3 then TrimLeftSpace t3 else s
              end
        end
  end.

(** The same from the end, on the bytes in reverse order. *)
Fixpoint trimRevSpace (r : string) : string :=
  match r with
  | EmptyString => EmptyString
  | String c1 t1 =>
      if isSpace1 c1 then trimRevSpace t1
      else
        match t1 with
        | EmptyString => r
        | String c2 t2 =>
            if isSpace2 c2 c1 then trimRevSpace t2
            else
              match t2 with
              | EmptyString => r
              | String c3 t3 =>
                  if isSpace3 c3 c2 c1 then trimRevSpace t3 else r
              end
        end
  end.

(** [strings.TrimRightFunc(s, unicode.IsSpace)]. *)
Definition TrimRightSpace (s : string) : string :=
  String.rev (trimRevSpace (String.rev s)).

(** [strings.TrimSpace(s)]. *)
Definition TrimSpace (s : string) : string :=
  TrimRightSpace (TrimLeftSpace s).

End GoStrings.

(** ** Go's [strconv] package *)

Module Strconv.

Definition minInt : Z := - 2 ^ 63.
Definition maxInt : Z := 2 ^ 63 - 1.

Definition digit (c : ascii) : option Z :=
  let n := nat_of_ascii c in
  if ((48 <=? n) && (n <=? 57))%nat then Some (Z.of_nat n - 48) else None.

(** The value of a string of decimal digits, after the digits [acc]. *)
Fixpoint digits (acc : Z) (s : string) : option Z :=
  match s with
  | EmptyString => Some acc
  | String c s' =>
      match digit c with
      | Some d => digits (10 * acc + d) s'
      | None => None
      end
  end.

(** [strconv.Atoi(s)]: an optional sign and at least one decimal digit;
    [None] stands for the syntax and the range errors. *)
Definition Atoi (s : string) : option Z :=
  let '(neg, body) :=
    match s with
    | String "-" t => (true, t)
    | String "+" t => (false, t)
    | _ => (false, s)
    end in
  match body with
  | EmptyString => None
  | _ =>
      match digits 0 body with
      | Some n =>
          let v := if neg then - n else n in
          if (minInt <=? v) && (v <=? maxInt) then Some v else None
      | None => None
      end
  end.

End Strconv.

Import GoStrings.

(** ** The deprecation rules and the decision to skip a resource type *)

(** [metav1.APIResource]: the fields the program reads. *)
Module APIResource.
Record t := mk { Name : string; Verbs : list string }.
End APIResource.

(** [DeprecationRule]. *)
Module DeprecationRule.
Record t := mk {
  GroupVersion : string;
  Resource : string;
  DeprecatedFrom : string;
  ReplacementGV : string;
  ReplacementResource : string;
  IsOpenShift : bool
  }.
End DeprecationRule.

(** [ClusterVersion]. *)
Module ClusterVersion.
Record t := mk {
  Major : Z;
  Minor : Z;
  IsOpenShift : bool;
  OpenShiftMajor : Z;
  OpenShiftMinor : Z
  }.
End ClusterVersion.

Module Deprecation.

Definition getDeprecationRules : list DeprecationRule.t :=
  [ DeprecationRule.mk "v1" "componentstatuses" "1.19" EmptyString EmptyString false;
    DeprecationRule.mk "v1" "endpoints" "1.33" "discovery.k8s.io/v1" "endpointslices" false;
    DeprecationRule.mk "apps.openshift.io/v1" "deploymentconfigs" "4.14"
      EmptyString EmptyString true ].

(** What [isDeprecated] returns:
    [(isDeprecated, replacementGV, replacementResource, message)]. *)
Definition verdict : Type := bool * string * string * string.

Definition notDeprecated : verdict :=
  (false, EmptyString, EmptyString, EmptyString).

(** "Parse the deprecation version": the two leading dot-separated parts of
    [DeprecatedFrom] as integers; [None] where the loop does [continue]. *)
Definition depVersion (rule : DeprecationRule.t) : option (Z * Z) :=
  match Split (DeprecationRule.DeprecatedFrom rule) "." with
  | p0 :: p1 :: _ =>
      match Strconv.Atoi p0, Strconv.Atoi p1 with
      | Some depMajor, Some depMinor => Some (depMajor, depMinor)
      | _, _ => None
      end
  | _ => None
  end.

(** "Compare versions". *)
Definition versionReached (rule : DeprecationRule.t) (cv : ClusterVersion.t)
    (depMajor depMinor : Z) : bool :=
  if DeprecationRule.IsOpenShift rule
  then (ClusterVersion.OpenShiftMajor cv >? depMajor)
       || ((ClusterVersion.OpenShiftMajor cv =? depMajor)
           && (ClusterVersion.OpenShiftMinor cv >=? depMinor))
  else (ClusterVersion.Major cv >? depMajor)
       || ((ClusterVersion.Major cv =? depMajor)
           && (ClusterVersion.Minor cv >=? depMinor)).

Definition isEmpty (s : string) : bool :=
  match s with EmptyString => true | _ => false end.

Definition deprecationMessage (rule : DeprecationRule.t)
    (groupVersion name : string) : string :=
  if negb (isEmpty (DeprecationRule.ReplacementGV rule))
     && negb (isEmpty (DeprecationRule.ReplacementResource rule))
  then "Using " +:+ DeprecationRule.ReplacementGV rule +:+ "/"
       +:+ DeprecationRule.ReplacementResource rule
       +:+ " instead of deprecated " +:+ groupVersion +:+ "/" +:+ name
  else "Skipping deprecated " +:+ groupVersion +:+ "/" +:+ name
       +:+ " (no replacement available)".

(** One turn of the loop of [isDeprecated]: [Some v] where it returns [v],
    [None] where it goes on to the next rule. *)
Definition applyRule (rule : DeprecationRule.t) (resource : APIResource.t)
    (groupVersion : string) (cv : ClusterVersion.t) : option verdict :=
  if negb (String.eqb (DeprecationRule.GroupVersion rule) groupVersion)
     || negb (String.eqb (DeprecationRule.Resource rule) (APIResource.Name resource))
  then None
  else if DeprecationRule.IsOpenShift rule && negb (ClusterVersion.IsOpenShift cv)
  then None
  else
    match depVersion rule with
    | None => None
    | Some (depMajor, depMinor) =>
        if versionReached rule cv depMajor depMinor
        then Some (true,
                   DeprecationRule.ReplacementGV rule,
                   DeprecationRule.ReplacementResource rule,
                   deprecationMessage rule groupVersion (APIResource.Name resource))
        else None
    end.

(** [isDeprecated] over a rule set. *)
Fixpoint isDeprecatedWith (rules : list DeprecationRule.t)
    (resource : APIResource.t) (groupVersion : string)
    (cv : ClusterVersion.t) : verdict :=
  match rules with
  | [] => notDeprecated
  | rule :: rest =>
      match applyRule rule resource groupVersion cv with
      | Some v => v
      | None => isDeprecatedWith rest resource groupVersion cv
      end
  end.

Definition isDeprecated : APIResource.t -> string -> ClusterVersion.t -> verdict :=
  isDeprecatedWith getDeprecationRules.

Definition shouldSkipResourceWith (rules : list DeprecationRule.t)
    (resource : APIResource.t) (groupVersion : string)
    (cv : ClusterVersion.t) : bool * string :=
  let '(deprecated, _, _, msg) := isDeprecatedWith rules resource groupVersion cv in
  if deprecated then (true, msg) else (false, EmptyString).

Definition shouldSkipResource : APIResource.t -> string -> ClusterVersion.t -> bool * string :=
  shouldSkipResourceWith getDeprecationRules.

(** The order of the spec on versions: major first, then minor. *)
Definition lexCompare (a b : Z * Z) : comparison :=
  match fst a ?= fst b with
  | Eq => snd a ?= snd b
  | c => c
  end.

End Deprecation.

(** ** The world outside the program *)

(** A value decoded from YAML, as [sigs.k8s.io/yaml] hands it over in an
  [interface{}]: a [map[string]interface{}] is a [gmap]; a [float64] is
  kept as its 64 bits, the program never computes on one. *)
#[warnings="-register-all"]
Inductive value : Type :=
  | VNull
  | VBool (b : bool)
  | VNumber (bits : Z)
  | VString (s : string)
  | VList (l : list value)
  | VMap (m : gmap string value).

(** [sigs.k8s.io/yaml]: [None] is a returned error. *)
Class Yaml := {
  Unmarshal : string -> option (gmap string value);
  Marshal : value -> option string
  }.

(** One call of the function given to [filepath.Walk]: the path, whether
  [info.IsDir()], and whether the walk passed it an error. *)
Module WalkEntry.
Record t := mk { path : string; isDir : bool; failed : bool }.
End WalkEntry.

(** The file system and the clock.  [Walk root] is the sequence of calls
  [filepath.Walk] makes; [Writable] tells which paths [os.WriteFile] can
  write; [Join] is [filepath.Join]; [timeAt n] is the n-th reading of
  [time.Now()], formatted as RFC 3339.  [os.WriteFile] opens the file,
  which empties it, and then writes: where it returns an error,
  [shortWrite path data] is [None] when the file could not be opened, and
  else the number of bytes of [data] that reached the file. *)
Class Host := {
  Walk : string -> list WalkEntry.t;
  Writable : string -> bool;
  shortWrite : string -> string -> option nat;
  Join : string -> string -> string;
  timeAt : nat -> string
  }.

(** The files that can be read, with their contents, and the number of
  clock readings made so far. *)
Record World := mkWorld { files : gmap string string; clock : nat }.

(** [metav1.APIResourceList]. *)
Module APIResourceList.
Record t := mk { GroupVersion : string; APIResources : list APIResource.t }.
End APIResourceList.

(** The cluster as the program sees it in one run.  [discovery]:
  [ServerVersion] gives the [Major] and [Minor] strings, [ServerGroups]
  the names of the API groups.  [dynamic]: [List group version resource]
  lists the instances in all namespaces, within the 30 seconds the program
  allows.  [ParseGroupVersion] is [schema.ParseGroupVersion].  [None] is a
  returned error. *)
Class Cluster := {
  ServerVersion : option (string * string);
  ServerGroups : option (list string);
  ServerPreferredResources : option (list APIResourceList.t);
  ParseGroupVersion : string -> option (string * string);
  List : string -> string -> string -> option value
  }.

(** The places where the program returns an error. *)
Inductive error : Type :=
  | ErrServerVersion
  | ErrParseMajor
  | ErrParseMinor
  | ErrDiscoverResources
  | ErrParseGroupVersion
  | ErrGetInstances (name : string)
  | ErrMarshal (name : string)
  | ErrWriteFile (path : string)
  | ErrReadFile.

Definition wrap64 (z : Z) : Z := (z + 2 ^ 63) mod 2 ^ 64 - 2 ^ 63.

(** [os.ReadFile]. *)
Definition ReadFile (w : World) (path : string) : option string :=
  files w !! path.

(** What a write that fails leaves behind: nothing new when the file could
    not be opened, and else the file with the bytes that reached it. *)
Definition afterShortWrite `{Host} (path content : string) (w : World) : World :=
  match shortWrite path content with
  | Some n => mkWorld (<[path := substring 0 n content]> (files w)) (clock w)
  | None => w
  end.

(** [os.WriteFile]: whether it returned no error, and the world it
    leaves. *)
Definition WriteFile `{Host} (path content : string) (w : World) : bool * World :=
  if Writable path
  then (true, mkWorld (<[path := content]> (files w)) (clock w))
  else (false, afterShortWrite path content w).

(** [time.Now().Format(time.RFC3339)]. *)
Definition Now `{Host} (w : World) : string * World :=
  (timeAt (clock w), mkWorld (files w) (S (clock w))).

(** ** The diff of two rendered snapshots *)

Module Diff.

(** The body of the loop of [parseResources]. *)
Definition scanLine (resources : list string) (line : string) : list string :=
  if HasPrefix (TrimSpace line) "--- # Resource:"
  then match SplitN2 line ":" with
       | [_; name] => resources ++ [TrimSpace name]
       | _ => resources
       end
  else resources.

Definition parseResources (content : string) : list string :=
  foldl scanLine [] (Split content "
").

(** [set2Map]: a [map[string]bool]; a key that is absent reads [false]. *)
Definition makeSet (set2 : list string) : gmap string bool :=
  foldl (fun m item => <[item := true]> m) ∅ set2.

Definition readBool (m : gmap string bool) (item : string) : bool :=
  default false (m !! item).

Definition findUniqueResources (set1 set2 : list string) : list string :=
  let set2Map := makeSet set2 in
  foldl (fun unique item =>
           if negb (readBool set2Map item) then unique ++ [item] else unique)
        [] set1.

(** The loop of [findCommonResources] on the pair [(common, seen)]. *)
Definition commonStep (set2Map : gmap string bool)
    (st : list string * gmap string bool) (item : string)
  : list string * gmap string bool :=
  let '(common, seen) := st in
  if readBool set2Map item && negb (readBool seen item)
  then (common ++ [item], <[item := true]> seen)
  else (common, seen).

Definition findCommonResources (set1 set2 : list string) : list string :=
  fst (foldl (commonStep (makeSet set2)) ([], ∅) set1).

(** The lines of [text] among which [parseResources] finds no marker. *)
Definition markerFree (text : string) : bool :=
  forallb (fun line => negb (HasPrefix (TrimSpace line) "--- # Resource:"))
          (Split text "
").

(** Text that ends where a line ends, and in which [parseResources] finds
    the names [names]. *)
Definition complete (text : string) (names : list string) : Prop :=
  forall rest, parseResources (text +:+ rest) = names ++ parseResources rest.

(** What the loop of [findCommonResources] keeps true of [(common, seen)]
    once it has gone through the names [visited]. *)
Definition commonInv (set2 : list string) (visited : list string)
    (st : list string * gmap string bool) : Prop :=
  NoDup (fst st)
  /\ (forall x, readBool (snd st) x = true <-> x ∈ fst st)
  /\ (forall x, x ∈ fst st <-> x ∈ visited /\ x ∈ set2).

End Diff.

(** ** Ingestion of a must-gather directory *)

Module MustGather.

Definition isEmpty := Deprecation.isEmpty.

Definition makeResourceKey (apiVersion kind : string) : string :=
  let resource := ToLower kind in
  let resource :=
    if negb (HasSuffix resource "s") then resource +:+ "s" else resource in
  ReplaceAll apiVersion "/" "-" +:+ "-" +:+ resource.

(** [m[key].(string)]: the string and [ok]. *)
Definition stringField (m : gmap string value) (key : string) : string * bool :=
  match m !! key with
  | Some (VString s) => (s, true)
  | _ => (EmptyString, false)
  end.

(** [resourceMap[key] = append(resourceMap[key], item)]. *)
Definition appendItem (key : string) (item : value)
    (resourceMap : gmap string (list value)) : gmap string (list value) :=
  <[key := default [] (resourceMap !! key) ++ [item]]> resourceMap.

(** The body of the loop over the [items] of a [List]. *)
Definition addListItem (resourceMap : gmap string (list value)) (item : value)
  : gmap string (list value) :=
  match item with
  | VMap itemMap =>
      let itemApiVersion := fst (stringField itemMap "apiVersion") in
      let itemKind := fst (stringField itemMap "kind") in
      if negb (isEmpty itemApiVersion) && negb (isEmpty itemKind)
      then appendItem (makeResourceKey itemApiVersion itemKind) (VMap itemMap) resourceMap
      else resourceMap
  | _ => resourceMap
  end.

(** What the loop of [processMustGatherFile] does with a document once it
    is parsed. *)
Definition addResource (resource : gmap string value)
    (resourceMap : gmap string (list value)) : gmap string (list value) :=
  let '(apiVersion, ok) := stringField resource "apiVersion" in
  if negb ok || isEmpty apiVersion then resourceMap
  else
    let '(kind, ok) := stringField resource "kind" in
    if negb ok || isEmpty kind then resourceMap
    else if String.eqb kind "List"
    then match resource !! "items" with
         | Some (VList items) => foldl addListItem resourceMap items
         | _ => resourceMap
         end
    else appendItem (makeResourceKey apiVersion kind) (VMap resource) resourceMap.

(** [resource] has the [apiVersion] and the [kind] given. *)
Definition typed (apiVersion kind : string) (resource : gmap string value) : Prop :=
  resource !! "apiVersion" = Some (VString apiVersion)
  /\ resource !! "kind" = Some (VString kind).

(** The body of the loop of [processMustGatherFile]. *)
Definition processDocument `{Yaml} (resourceMap : gmap string (list value))
    (doc : string) : gmap string (list value) :=
  let doc := TrimSpace doc in
  if isEmpty doc || HasPrefix doc "#" then resourceMap
  else match Unmarshal doc with
       | None => resourceMap
       | Some resource => addResource resource resourceMap
       end.


Definition processMustGatherFile `{Yaml} (w : World) (filePath : string)
    (resourceMap : gmap string (list value))
  : option error * gmap string (list value) :=
  match ReadFile w filePath with
  | None => (Some ErrReadFile, resourceMap)
  | Some data =>
      (None, foldl processDocument resourceMap (Split data "
---"))
  end.

(** The function [processMustGatherToSingleFile] gives to [filepath.Walk]. *)
Definition visitFile `{Yaml} (w : World)
    (resourceMap : gmap string (list value)) (e : WalkEntry.t)
  : gmap string (list value) :=
  if WalkEntry.failed e then resourceMap
  else if WalkEntry.isDir e then resourceMap
  else if negb (HasSuffix (WalkEntry.path e) ".yaml")
          && negb (HasSuffix (WalkEntry.path e) ".yml")
  then resourceMap
  else snd (processMustGatherFile w (WalkEntry.path e) resourceMap).

Definition ingest `{Yaml} `{Host} (w : World) (mustGatherPath : string)
  : gmap string (list value) :=
  foldl (visitFile w) ∅ (Walk mustGatherPath).

(** The [List] the items of one key are wrapped in. *)
Definition listOf (items : list value) : value :=
  VMap (<["apiVersion" := VString "v1"]>
        (<["kind" := VString "List"]>
         (<["items" := VList items]> ∅))).

(** The body of the loop that builds the single file. *)
Definition renderSection `{Yaml} (resourceMap : gmap string (list value))
    (out : string) (key : string) : string :=
  let items := default [] (resourceMap !! key) in
  if (length items =? 0)%nat then out
  else
    let out := out +:+ ("--- # Resource: " +:+ key +:+ "
") in
    match Marshal (listOf items) with
    | None => out
    | Some yamlData => (out +:+ yamlData) +:+ "
"
    end.

(** The single file for the keys in the order [keys]. *)
Definition renderSingleFile `{Yaml} (keys : list string)
    (resourceMap : gmap string (list value)) : string :=
  foldl (renderSection resourceMap) EmptyString keys.

(** The keys that get a section: those with at least one item. *)
Definition hasItems (resourceMap : gmap string (list value)) (key : string) : bool :=
  negb (length (default [] (resourceMap !! key)) =? 0)%nat.

(** A printable ASCII character other than the space. *)
Definition graphic (c : ascii) : bool :=
  let n := nat_of_ascii c in ((33 <=? n) && (n <=? 126))%nat.

(** A key without a line feed in it and without white space around it. *)
Definition cleanKey (key : string) : bool :=
  negb (Contains key "
") && String.eqb (TrimSpace key) key.

(** The orders in which [for key := range resourceMap] can yield the keys:
    Go leaves the order open, and it can change from one loop to the
    next. *)
Definition rangeOrder (resourceMap : gmap string (list value))
    (keys : list string) : Prop :=
  keys ≡ₚ (map_to_list resourceMap).*1.

(** [processMustGatherToSingleFile]; [order] is the order in which the
    [range] of this run yields the keys of the map.  The program does not
    sort [keys] after it has collected them. *)
Definition processMustGatherToSingleFile `{Yaml} `{Host}
    (order : gmap string (list value) -> list string)
    (mustGatherPath outputFile : string) (w : World) : option error * World :=
  let resourceMap := ingest w mustGatherPath in
  let keys := order resourceMap in
  let content := renderSingleFile keys resourceMap in
  match WriteFile outputFile content w with
  | (true, w') => (None, w')
  | (false, w') => (Some (ErrWriteFile outputFile), w')
  end.

End MustGather.

(** ** Collection from a live cluster *)

Module Collector.

(** [detectClusterVersion]. *)
Definition detectClusterVersion `{Cluster} : error + ClusterVersion.t :=
  match ServerVersion with
  | None => inl ErrServerVersion
  | Some (serverMajor, serverMinor) =>
      match Strconv.Atoi (TrimSuffix serverMajor "+") with
      | None => inl ErrParseMajor
      | Some major =>
          match Strconv.Atoi (TrimSuffix serverMinor "+") with
          | None => inl ErrParseMinor
          | Some minor =>
              let isOpenShift :=
                match ServerGroups with
                | Some groups =>
                    existsb (fun name => Contains name "openshift.io") groups
                | None => false
                end in
              let openShiftMajor := if isOpenShift then 4 else 0 in
              let openShiftMinor :=
                if isOpenShift && (minor >=? 27)
                then wrap64 (14 + wrap64 (minor - 27))
                else 0 in
              inr (ClusterVersion.mk major minor isOpenShift
                     openShiftMajor openShiftMinor)
          end
      end
  end.

(** [contains(slice, item)]. *)
Fixpoint contains (slice : list string) (item : string) : bool :=
  match slice with
  | [] => false
  | s :: rest => if String.eqb s item then true else contains rest item
  end.

(** The replacer of [formatFilename]: each of these bytes becomes ['-']. *)
Definition unsafeByte (c : ascii) : bool :=
  existsb (Nat.eqb (nat_of_ascii c)) [47; 92; 58; 42; 63; 34; 60; 62; 124; 32]%nat.

Fixpoint sanitize (s : string) : string :=
  match s with
  | EmptyString => EmptyString
  | String c s' => String (if unsafeByte c then "-"%char else c) (sanitize s')
  end.

Definition formatFilename (resourceName groupVersion : string) : string :=
  let sanitizedName := sanitize resourceName in
  if negb (Deprecation.isEmpty groupVersion)
  then sanitize groupVersion +:+ "-" +:+ sanitizedName +:+ ".yaml"
  else sanitizedName +:+ ".yaml".

Definition formatHeader `{Host} (resourceName groupVersion : string) (w : World)
  : string * World :=
  let '(now, w) := Now w in
  ("# Generated by k8s-resource-collector
" +:+ "# Generated at: " +:+ now +:+ "
" +:+ "# Resource: " +:+ resourceName +:+ "
" +:+ (if negb (Deprecation.isEmpty groupVersion)
     then "# Group Version: " +:+ groupVersion +:+ "
"
     else EmptyString) +:+ "# ---

", w).

(** The three steps [collectResource] and [collectResourceToBuffer]
    share: parse the group version, list the instances, marshal them. *)
Definition fetchYaml `{Yaml} `{Cluster} (resource : APIResource.t)
    (groupVersion : string) : error + string :=
  match ParseGroupVersion groupVersion with
  | None => inl ErrParseGroupVersion
  | Some (group, version) =>
      match List group version (APIResource.Name resource) with
      | None => inl (ErrGetInstances (APIResource.Name resource))
      | Some unstructuredList =>
          match Marshal unstructuredList with
          | None => inl (ErrMarshal (APIResource.Name resource))
          | Some yamlData => inr yamlData
          end
      end
  end.

Definition collectResource `{Yaml} `{Cluster} `{Host} (resource : APIResource.t)
    (groupVersion outputDir : string) (w : World) : option error * World :=
  match fetchYaml resource groupVersion with
  | inl e => (Some e, w)
  | inr yamlData =>
      let filename := formatFilename (APIResource.Name resource) groupVersion in
      let filePath := Join outputDir filename in
      let '(header, w) := formatHeader (APIResource.Name resource) groupVersion w in
      match WriteFile filePath (header +:+ yamlData) w with
      | (false, w') => (Some (ErrWriteFile filePath), w')
      | (true, w') => (None, w')
      end
  end.

Definition collectResourceToBuffer `{Yaml} `{Cluster} (resource : APIResource.t)
    (groupVersion : string) (buffer : string) : option error * string :=
  match fetchYaml resource groupVersion with
  | inl e => (Some e, buffer)
  | inr yamlData =>
      (None,
       ((buffer +:+ ("--- # Resource: " +:+ APIResource.Name resource +:+ "
")) +:+ yamlData) +:+ "
")
  end.

(** The counters of a run, which its summary prints. *)
Record Summary := mkSummary {
  collectedCount : Z;
  errorCount : Z;
  skippedCount : Z
  }.

Definition noneYet : Summary := mkSummary 0 0 0.

Definition collected (c : Summary) : Summary :=
  mkSummary (wrap64 (collectedCount c + 1)) (errorCount c) (skippedCount c).
Definition errored (c : Summary) : Summary :=
  mkSummary (collectedCount c) (wrap64 (errorCount c + 1)) (skippedCount c).
Definition skipped (c : Summary) : Summary :=
  mkSummary (collectedCount c) (errorCount c) (wrap64 (skippedCount c + 1)).

Definition total (c : Summary) : Z :=
  collectedCount c + errorCount c + skippedCount c.

(** The counters after [n] resources were counted, one counter each. *)
Definition counted (c : Summary) (n : nat) : Prop :=
  0 <= collectedCount c /\ 0 <= errorCount c /\ 0 <= skippedCount c
  /\ total c = Z.of_nat n.

(** A resource the loops go on with: no subresource, and both the [list]
    and the [get] verb. *)
Definition collectable (resource : APIResource.t) : bool :=
  negb (Contains (APIResource.Name resource) "/")
  && negb (negb (contains (APIResource.Verbs resource) "list")
           || negb (contains (APIResource.Verbs resource) "get")).

(** The number of resources, in all the lists, that the loops go on with. *)
Fixpoint collectableCount (resources : list APIResourceList.t) : nat :=
  match resources with
  | [] => O
  | resourceList :: rest =>
      (length (List.filter collectable (APIResourceList.APIResources resourceList))
       + collectableCount rest)%nat
  end.

(** "Check if resource is deprecated and should be skipped": [skip] is
    called only where [clusterVersion != nil]. *)
Definition skipDecision
    (skip : APIResource.t -> string -> ClusterVersion.t -> bool * string)
    (clusterVersion : option ClusterVersion.t)
    (resource : APIResource.t) (groupVersion : string) : bool :=
  match clusterVersion with
  | Some cv => fst (skip resource groupVersion cv)
  | None => false
  end.

(** The body of the inner loop of [collectResources], on the counters and
    the world. *)
Definition visitToDirectory `{Yaml} `{Cluster} `{Host}
    (skip : APIResource.t -> string -> ClusterVersion.t -> bool * string)
    (clusterVersion : option ClusterVersion.t) (outputDir groupVersion : string)
    (st : Summary * World) (resource : APIResource.t) : Summary * World :=
  let '(c, w) := st in
  if negb (collectable resource) then st
  else if skipDecision skip clusterVersion resource groupVersion
  then (skipped c, w)
  else
    match collectResource resource groupVersion outputDir w with
    | (Some _, w') => (errored c, w')
    | (None, w') => (collected c, w')
    end.

(** [collectResources] with the skip decision [skip]: the error it
    returns, or the counters of its summary. *)
Definition collectResourcesWith `{Yaml} `{Cluster} `{Host}
    (skip : APIResource.t -> string -> ClusterVersion.t -> bool * string)
    (outputDir : string) (w : World) : (error + Summary) * World :=
  let clusterVersion :=
    match detectClusterVersion with
    | inl _ => None
    | inr cv => Some cv
    end in
  match ServerPreferredResources with
  | None => (inl ErrDiscoverResources, w)
  | Some resources =>
      let '(c, w') :=
        foldl (fun st resourceList =>
                 foldl (visitToDirectory skip clusterVersion outputDir
                          (APIResourceList.GroupVersion resourceList))
                       st (APIResourceList.APIResources resourceList))
              (noneYet, w) resources in
      (inr c, w')
  end.

Definition collectResources `{Yaml} `{Cluster} `{Host}
  : string -> World -> (error + Summary) * World :=
  collectResourcesWith Deprecation.shouldSkipResource.

(** The body of the inner loop of [collectAllResourcesToSingleFile], on the
    counters and the buffer [allResourcesYaml]. *)
Definition visitToBuffer `{Yaml} `{Cluster}
    (skip : APIResource.t -> string -> ClusterVersion.t -> bool * string)
    (clusterVersion : option ClusterVersion.t) (groupVersion : string)
    (st : Summary * string) (resource : APIResource.t) : Summary * string :=
  let '(c, buffer) := st in
  if negb (collectable resource) then st
  else if skipDecision skip clusterVersion resource groupVersion
  then (skipped c, buffer)
  else
    match collectResourceToBuffer resource groupVersion buffer with
    | (Some _, buffer') => (errored c, buffer')
    | (None, buffer') => (collected c, buffer')
    end.

Definition collectAllResourcesToSingleFileWith `{Yaml} `{Cluster} `{Host}
    (skip : APIResource.t -> string -> ClusterVersion.t -> bool * string)
    (outputFile : string) (w : World) : (error + Summary) * World :=
  let clusterVersion :=
    match detectClusterVersion with
    | inl _ => None
    | inr cv => Some cv
    end in
  match ServerPreferredResources with
  | None => (inl ErrDiscoverResources, w)
  | Some resources =>
      let '(c, allResourcesYaml) :=
        foldl (fun st resourceList =>
                 foldl (visitToBuffer skip clusterVersion
                          (APIResourceList.GroupVersion resourceList))
                       st (APIResourceList.APIResources resourceList))
              (noneYet, EmptyString) resources in
      match WriteFile outputFile allResourcesYaml w with
      | (false, w') => (inl (ErrWriteFile outputFile), w')
      | (true, w') => (inr c, w')
      end
  end.

Definition collectAllResourcesToSingleFile `{Yaml} `{Cluster} `{Host}
  : string -> World -> (error + Summary) * World :=
  collectAllResourcesToSingleFileWith Deprecation.shouldSkipResource.

End Collector.

(** ** What the properties speak of *)

Module Shape.

Import MustGather Collector.

(** Every byte of [s] satisfies [p]. *)
Fixpoint everyByte (p : ascii -> bool) (s : string) : bool :=
  match s with
  | EmptyString => true
  | String c s' => p c && everyByte p s'
  end.

Definition safeByte (c : ascii) : bool := negb (unsafeByte c).



(** [item] is a mapping with an [apiVersion] and a [kind] that are not
    empty, and [key] is the key of the two. *)
Definition keyedItem (key : string) (item : value) : Prop :=
  exists m apiVersion kind,
    item = VMap m /\ typed apiVersion kind m
    /\ apiVersion <> EmptyString /\ kind <> EmptyString
    /\ key = makeResourceKey apiVersion kind.

(** No key has an empty list, and every item is under its own key. *)
Definition wellKeyed (resourceMap : gmap string (list value)) : Prop :=
  forall key items,
    resourceMap !! key = Some items ->
    items <> [] /\ Forall (keyedItem key) items.

(** [after] has the keys of [before], each with its items and possibly more
    behind them. *)
Definition extends (before after : gmap string (list value)) : Prop :=
  forall key items,
    before !! key = Some items ->
    exists more, after !! key = Some (items ++ more).

(** An entry of the walk that [visitFile] reads: a file with a YAML
    extension that can be read. *)
Definition readableYaml (w : World) (e : WalkEntry.t) : bool :=
  negb (WalkEntry.failed e) && negb (WalkEntry.isDir e)
  && (HasSuffix (WalkEntry.path e) ".yaml" || HasSuffix (WalkEntry.path e) ".yml")
  && match ReadFile w (WalkEntry.path e) with Some _ => true | None => false end.

(** The resources whose instances end up in the output: collectable, not
    skipped, fetched and marshalled. *)
Definition fetched `{Yaml} `{Cluster}
    (skip : APIResource.t -> string -> ClusterVersion.t -> bool * string)
    (clusterVersion : option ClusterVersion.t) (groupVersion : string)
    (resource : APIResource.t) : bool :=
  collectable resource
  && negb (skipDecision skip clusterVersion resource groupVersion)
  && match fetchYaml resource groupVersion with inr _ => true | inl _ => false end.

Definition fetchedNames `{Yaml} `{Cluster}
    (skip : APIResource.t -> string -> ClusterVersion.t -> bool * string)
    (clusterVersion : option ClusterVersion.t)
    (resources : list APIResourceList.t) : list string :=
  flat_map (fun resourceList =>
              map APIResource.Name
                  (List.filter (fetched skip clusterVersion
                                  (APIResourceList.GroupVersion resourceList))
                               (APIResourceList.APIResources resourceList)))
           resources.

(** The paths [collectResources] can write to. *)
Definition outputPaths `{Host} (outputDir : string)
    (resources : list APIResourceList.t) : list string :=
  flat_map (fun resourceList =>
              map (fun resource =>
                     Join outputDir
                          (formatFilename (APIResource.Name resource)
                             (APIResourceList.GroupVersion resourceList)))
                  (APIResourceList.APIResources resourceList))
           resources.

(** The cluster version the loops work with: none when detection fails. *)
Definition detected `{Cluster} : option ClusterVersion.t :=
  match detectClusterVersion with
  | inl _ => None
  | inr cv => Some cv
  end.

End Shape.

(** ** What a live collection comes to *)

Module Outcome.

Import Collector.

(** The resources the two loops go through, each with the group version
    of its list, in the order of the loops. *)
Definition discovered (resources : list APIResourceList.t)
  : list (string * APIResource.t) :=
  flat_map (fun resourceList =>
              map (pair (APIResourceList.GroupVersion resourceList))
                  (APIResourceList.APIResources resourceList))
           resources.

(** The path of the file of a resource in directory mode. *)
Definition pathOf `{Host} (outputDir : string) (p : string * APIResource.t)
  : string :=
  Join outputDir (formatFilename (APIResource.Name (snd p)) (fst p)).

(** A collectable resource whose instances are fetched and marshalled; one
    whose file can be written as well. *)
Definition fetchable `{Yaml} `{Cluster} (p : string * APIResource.t) : bool :=
  collectable (snd p)
  && match fetchYaml (snd p) (fst p) with inr _ => true | inl _ => false end.

Definition storable `{Yaml} `{Cluster} `{Host} (outputDir : string)
    (p : string * APIResource.t) : bool :=
  fetchable p && Writable (pathOf outputDir p).

(** What becomes of a resource under a skip decision: skipped; collected
    or not to the buffer; collected or not to the directory. *)
Definition skippedAt
    (skip : APIResource.t -> string -> ClusterVersion.t -> bool * string)
    (clusterVersion : option ClusterVersion.t)
    (p : string * APIResource.t) : bool :=
  collectable (snd p) && skipDecision skip clusterVersion (snd p) (fst p).

Definition fetchedAt `{Yaml} `{Cluster}
    (skip : APIResource.t -> string -> ClusterVersion.t -> bool * string)
    (clusterVersion : option ClusterVersion.t)
    (p : string * APIResource.t) : bool :=
  negb (skipDecision skip clusterVersion (snd p) (fst p)) && fetchable p.

Definition failedAt `{Yaml} `{Cluster}
    (skip : APIResource.t -> string -> ClusterVersion.t -> bool * string)
    (clusterVersion : option ClusterVersion.t)
    (p : string * APIResource.t) : bool :=
  collectable (snd p)
  && negb (skipDecision skip clusterVersion (snd p) (fst p))
  && negb (fetchable p).

Definition storedAt `{Yaml} `{Cluster} `{Host}
    (skip : APIResource.t -> string -> ClusterVersion.t -> bool * string)
    (clusterVersion : option ClusterVersion.t) (outputDir : string)
    (p : string * APIResource.t) : bool :=
  negb (skipDecision skip clusterVersion (snd p) (fst p)) && storable outputDir p.

Definition unstoredAt `{Yaml} `{Cluster} `{Host}
    (skip : APIResource.t -> string -> ClusterVersion.t -> bool * string)
    (clusterVersion : option ClusterVersion.t) (outputDir : string)
    (p : string * APIResource.t) : bool :=
  collectable (snd p)
  && negb (skipDecision skip clusterVersion (snd p) (fst p))
  && negb (storable outputDir p).

(** The number of elements of a list that satisfy a test, as an [int]. *)
Definition countOf {A : Type} (test : A -> bool) (l : list A) : Z :=
  Z.of_nat (length (List.filter test l)).

(** The section of a resource in the single file. *)
Definition sectionOf `{Yaml} `{Cluster} (p : string * APIResource.t) : string :=
  match fetchYaml (snd p) (fst p) with
  | inr yamlData =>
      ("--- # Resource: " +:+ APIResource.Name (snd p) +:+ "
") +:+ yamlData +:+ "
"
  | inl _ => EmptyString
  end.

(** The sections of the resources that pass [keep], one after the other. *)
Definition sections `{Yaml} `{Cluster} (keep : string * APIResource.t -> bool)
    (pairs : list (string * APIResource.t)) : string :=
  foldr (fun p rest => if keep p then sectionOf p +:+ rest else rest)
        EmptyString pairs.

(** The file of a resource in directory mode, written when the clock had
    been read [n] times. *)
Definition fileOf `{Yaml} `{Cluster} `{Host} (p : string * APIResource.t)
    (n : nat) : string :=
  match fetchYaml (snd p) (fst p) with
  | inr yamlData =>
      fst (formatHeader (APIResource.Name (snd p)) (fst p) (mkWorld ∅ n))
      +:+ yamlData
  | inl _ => EmptyString
  end.

(** The body of the two loops of [collectAllResourcesToSingleFile] and of
    [collectResources], on a resource with its group version. *)
Definition bufferStep `{Yaml} `{Cluster}
    (skip : APIResource.t -> string -> ClusterVersion.t -> bool * string)
    (clusterVersion : option ClusterVersion.t)
    (st : Summary * string) (p : string * APIResource.t) : Summary * string :=
  visitToBuffer skip clusterVersion (fst p) st (snd p).

Definition directoryStep `{Yaml} `{Cluster} `{Host}
    (skip : APIResource.t -> string -> ClusterVersion.t -> bool * string)
    (clusterVersion : option ClusterVersion.t) (outputDir : string)
    (st : Summary * World) (p : string * APIResource.t) : Summary * World :=
  visitToDirectory skip clusterVersion outputDir (fst p) st (snd p).

(** In the world [w], the file of every resource of [pairs] that is stored
    holds what was written for a stored resource of [pairs] with that
    path. *)
Definition filed `{Yaml} `{Cluster} `{Host}
    (stored : string * APIResource.t -> bool) (outputDir : string)
    (pairs : list (string * APIResource.t)) (w : World) : Prop :=
  forall p, p ∈ pairs -> stored p = true ->
    exists q n,
      q ∈ pairs /\ stored q = true
      /\ pathOf outputDir q = pathOf outputDir p
      /\ files w !! pathOf outputDir p = Some (fileOf q n).

End Outcome.

(** ** Sample data: two small clusters, a must-gather file, an inventory *)

Module Examples.

Definition object (apiVersion kind name : string) : gmap string value :=
  <["apiVersion" := VString apiVersion]>
    (<["kind" := VString kind]>
       (<["metadata" := VMap (<["name" := VString name]> ∅)]> ∅)).

Definition podA : gmap string value := object "v1" "Pod" "a".
Definition podB : gmap string value := object "v1" "Pod" "b".
Definition service : gmap string value := object "v1" "Service" "web".

Definition podList : gmap string value :=
  <["apiVersion" := VString "v1"]>
    (<["kind" := VString "List"]>
       (<["items" := VList [VMap podA; VMap podB]]> ∅)).

Definition podListText : string :=
  "apiVersion: v1
kind: List
items:
- apiVersion: v1
  kind: Pod
  metadata:
    name: a
- apiVersion: v1
  kind: Pod
  metadata:
    name: b".

Definition serviceText : string :=
  "apiVersion: v1
kind: Service
metadata:
  name: web".

(** A document without [kind], and one that opens with a comment line. *)
Definition nameless : gmap string value :=
  <["apiVersion" := VString "v1"]> ∅.

Definition namelessText : string := "apiVersion: v1".

Definition commentedText : string :=
  "# exported by must-gather
apiVersion: v1
kind: Pod
metadata:
  name: a".

Definition mustGatherText : string :=
  podListText +:+ "
---
" +:+ serviceText +:+ "
".

Definition droppedText : string :=
  namelessText +:+ "
---
" +:+ commentedText +:+ "
".

(** A YAML library that knows the sample documents.  It reads the
    commented document as the pod that follows the comment line, and it
    writes every list as the same three lines. *)
#[export] Instance sampleYaml : Yaml := {|
  Unmarshal doc :=
    if String.eqb doc podListText then Some podList
    else if String.eqb doc serviceText then Some service
    else if String.eqb doc namelessText then Some nameless
    else if String.eqb doc commentedText then Some podA
    else None;
  Marshal _ := Some "apiVersion: v1
items: []
kind: List
"
  |}.

(** A machine on which everything can be written but [/proc/version]. *)
#[export] Instance sampleHost : Host := {|
  Walk root :=
    [ WalkEntry.mk root true false;
      WalkEntry.mk (root +:+ "/dropped.yaml") false false;
      WalkEntry.mk (root +:+ "/namespaces.yaml") false false;
      WalkEntry.mk (root +:+ "/version") false false ];
  Writable path := negb (String.eqb path "/proc/version");
  shortWrite _ _ := None;
  Join dir name := dir +:+ "/" +:+ name;
  timeAt _ := "2025-01-01T00:00:00Z"
  |}.

Definition emptyWorld : World := mkWorld ∅ O.

Definition bundleWorld : World :=
  mkWorld (<["/mg/namespaces.yaml" := mustGatherText]>
             (<["/mg/dropped.yaml" := droppedText]> ∅)) O.

Definition coreResources : APIResourceList.t :=
  APIResourceList.mk "v1"
    [ APIResource.mk "pods" ["get"; "list"; "watch"];
      APIResource.mk "pods/status" ["get"; "patch"];
      APIResource.mk "endpoints" ["get"; "list"];
      APIResource.mk "bindings" ["create"];
      APIResource.mk "services" ["get"; "list"] ].

Definition splitGroupVersion (groupVersion : string) : option (string * string) :=
  match SplitN2 groupVersion "/" with
  | [version] => Some (EmptyString, version)
  | [group; version] => Some (group, version)
  | _ => None
  end.

(** A cluster whose version cannot be read, and on which listing the
    services fails. *)
#[export] Instance unversioned : Cluster := {|
  ServerVersion := None;
  ServerGroups := Some [EmptyString; "apps"];
  ServerPreferredResources := Some [coreResources];
  ParseGroupVersion := splitGroupVersion;
  List group version name :=
    if String.eqb name "services" then None else Some (VMap ∅)
  |}.

(** The same cluster, reporting Kubernetes 1.33. *)
Definition versioned : Cluster := {|
  ServerVersion := Some ("1", "33+");
  ServerGroups := Some [EmptyString; "apps"];
  ServerPreferredResources := Some [coreResources];
  ParseGroupVersion := splitGroupVersion;
  List group version name :=
    if String.eqb name "services" then None else Some (VMap ∅)
  |}.








(** A cluster whose version cannot be read either, and on which listing
    the pods fails: the first of its collectable resources. *)
Definition flaky : Cluster := {|
  ServerVersion := None;
  ServerGroups := Some [EmptyString; "apps"];
  ServerPreferredResources := Some [coreResources];
  ParseGroupVersion := splitGroupVersion;
  List group version name :=
    if String.eqb name "pods" then None else Some (VMap ∅)
  |}.

(** The single file of that cluster, with the sample YAML library. *)
Definition flakySnapshot : string :=
  "--- # Resource: endpoints
apiVersion: v1
items: []
kind: List

--- # Resource: services
apiVersion: v1
items: []
kind: List

".

(** An inventory with two keys. *)
Definition inventory : gmap string (list value) :=
  <["v1-pods" := [VMap podA]]> (<["v1-services" := [VMap service]]> ∅).

(** An inventory whose only key begins with a space: what
    [makeResourceKey] makes of a document with [apiVersion: " v1"]. *)
Definition spacedInventory : gmap string (list value) :=
  <[" v1-pods" := [VMap (object " v1" "Pod" "a")]]> ∅.

(** A YAML library that writes a string of several lines as a block, the
    way a config map with such a string is written. *)
Definition blockYaml : Yaml := {|
  Unmarshal _ := None;
  Marshal _ := Some "apiVersion: v1
items:
- apiVersion: v1
  data:
    notes: |-
      sections start with
      --- # Resource: ghosts
  kind: ConfigMap
kind: List
"
  |}.

Definition notedInventory : gmap string (list value) :=
  <["v1-configmaps" :=
      [VMap (<["apiVersion" := VString "v1"]>
             (<["kind" := VString "ConfigMap"]>
              (<["data" := VMap (<["notes" := VString "sections start with
--- # Resource: ghosts"]> ∅)]> ∅)))]]> ∅.

(** A snapshot of a live cluster, where [events] is a resource of the core
    group and of [events.k8s.io]. *)
Definition liveSnapshot : string :=
  "--- # Resource: events
apiVersion: v1
items: []
kind: List

--- # Resource: pods
apiVersion: v1
items: []
kind: List

--- # Resource: events
apiVersion: events.k8s.io/v1
items: []
kind: List

".

Definition otherSnapshot : string :=
  "--- # Resource: pods
apiVersion: v1
items: []
kind: List

".

End Examples.

(** ** The modes of a run *)

(** What [os.Stat] finds at a path: an error for which [os.IsNotExist]
    holds, another error, a file, or a directory. *)
Inductive FileInfo : Type :=
  | NotExist
  | StatFailed
  | IsFile
  | IsDirectory.

(** How [os.Remove] ends: the file is removed, there was none, or another
    error. *)
Inductive Removal : Type :=
  | Removed
  | Missing
  | Refused.

(** The kubeconfig [clientcmd.LoadFromFile] reads: the name of the current
    context, and for the name of each context the name of its cluster. *)
Module KubeConfig.
Record t := mk { CurrentContext : string; Contexts : gmap string string }.
End KubeConfig.

(** The operating system in one run, beside [Host].  [ReadDir] gives the
    names of the entries; [MkdirAll] tells whether the directory could be
    made; [RemoveAll] tells whether the tree could be removed, and which
    readable files are left; [Base], [Dir] and [Abs] are those of
    [path/filepath]; [HomeDir] is [homedir.HomeDir()].  The answers to
    [Stat], [ReadDir] and [Walk] are those of the run: the model takes
    them not to change while the program writes its output. *)
Class Os := {
  Stat : string -> FileInfo;
  ReadDir : string -> option (list string);
  MkdirAll : string -> bool;
  Remove : string -> Removal;
  RemoveAll : string -> gmap string string -> bool * gmap string string;
  Base : string -> string;
  Dir : string -> string;
  Abs : string -> option string;
  Getenv : string -> string;
  HomeDir : string
  }.

(** [client-go] in one run.  A [rest.Config] is known by the path of the
    kubeconfig it was built from: [BuildConfigFromFlags],
    [NewDiscoveryClientForConfig] and [NewForConfig] tell whether the call
    succeeds, and [ClusterOf] is the cluster the two clients talk to. *)
Class ClientGo := {
  LoadFromFile : string -> option KubeConfig.t;
  BuildConfigFromFlags : string -> bool;
  NewDiscoveryClientForConfig : string -> bool;
  NewForConfig : string -> bool;
  ClusterOf : string -> Cluster
  }.

(** The flags, as [main] leaves them in the global variables; [verbose]
    only adds to what is printed. *)
Module Flags.
Record t := mk {
  kubeconfig : string;
  kubeconfig1 : string;
  kubeconfig2 : string;
  mustGather : string;
  mustGather1 : string;
  mustGather2 : string;
  outputDir : string;
  outputFile : string;
  singleFile : bool;
  clean : bool;
  compareMode : bool
  }.
End Flags.

(** The places where a mode returns an error of its own; [Collection] is
    an error of the collection, and [Wrapped] is [fmt.Errorf] with [%w]. *)
Inductive failure : Type :=
  | MustGatherWithKubeconfig
  | MustGatherWithKubeconfigs
  | MustGathersWithKubeconfigs
  | MustGatherWithMustGathers
  | NeedBothMustGathers
  | NeedBothKubeconfigs
  | KubeconfigNotFound (configPath : string)
  | BuildConfig
  | DiscoveryClient
  | DynamicClient
  | CreateDirectory (path : string)
  | RemoveFile (path : string)
  | ReadDirectory (path : string)
  | RemoveEntry (entryPath : string)
  | LoadKubeconfig
  | NoCurrentContext
  | ContextNotFound (currentContext : string)
  | PathEmpty
  | PathNotFound (path : string)
  | PathNotAccessible (path : string)
  | PathNotDirectory (path : string)
  | PathNotReadable (path : string)
  | PathIsEmpty (path : string)
  | ReadSnapshot (file : string)
  | WriteReport (outputFile : string)
  | Collection (e : error)
  | Wrapped (context : string) (cause : failure).

Module Modes.

Import MustGather Collector Diff.

Local Abbreviation nonEmpty s := (negb (Deprecation.isEmpty s)).

(** The replacer of [sanitizeClusterName]: the bytes of [formatFilename]
    and the dot. *)
Definition unsafeNameByte (c : ascii) : bool :=
  existsb (Nat.eqb (nat_of_ascii c))
          [47; 92; 58; 42; 63; 34; 60; 62; 124; 32; 46]%nat.

Fixpoint sanitizeClusterName (name : string) : string :=
  match name with
  | EmptyString => EmptyString
  | String c name' =>
      String (if unsafeNameByte c then "-"%char else c) (sanitizeClusterName name')
  end.

(** [getClusterName]. *)
Definition getClusterName `{ClientGo} (kubeconfigPath : string) : failure + string :=
  match LoadFromFile kubeconfigPath with
  | None => inl LoadKubeconfig
  | Some config =>
      let currentContext := KubeConfig.CurrentContext config in
      if Deprecation.isEmpty currentContext then inl NoCurrentContext
      else match KubeConfig.Contexts config !! currentContext with
           | None => inl (ContextNotFound currentContext)
           | Some cluster =>
               if nonEmpty cluster then inr cluster else inr currentContext
           end
  end.

(** [getMustGatherName]. *)
Definition getMustGatherName `{Os} (path : string) : string :=
  let name := Base path in
  if Contains name "must-gather" then name
  else
    let name :=
      match Abs path with
      | Some absPath => Base absPath
      | None => name
      end in
    if String.eqb name "." || String.eqb name "/" then "must-gather" else name.

(** [validateMustGatherPath].  The walk that looks for a YAML file only
    prints a warning. *)
Definition validateMustGatherPath `{Os} (path : string) : option failure :=
  if Deprecation.isEmpty path then Some PathEmpty
  else match Stat path with
       | NotExist => Some (PathNotFound path)
       | StatFailed => Some (PathNotAccessible path)
       | IsFile => Some (PathNotDirectory path)
       | IsDirectory =>
           match ReadDir path with
           | None => Some (PathNotReadable path)
           | Some entries =>
               if (length entries =? 0)%nat then Some (PathIsEmpty path) else None
           end
       end.

(** The loop of [cleanDirectory]. *)
Fixpoint removeEntries `{Host} `{Os} (path : string) (entries : list string)
    (w : World) : option failure * World :=
  match entries with
  | [] => (None, w)
  | name :: rest =>
      let entryPath := Join path name in
      match RemoveAll entryPath (files w) with
      | (false, remaining) =>
          (Some (RemoveEntry entryPath), mkWorld remaining (clock w))
      | (true, remaining) => removeEntries path rest (mkWorld remaining (clock w))
      end
  end.

Definition cleanDirectory `{Host} `{Os} (path : string) (w : World)
  : option failure * World :=
  match Stat path with
  | NotExist => (None, w)
  | _ =>
      match ReadDir path with
      | None => (Some (ReadDirectory path), w)
      | Some entries => removeEntries path entries w
      end
  end.

(** [parseKubeConfig]: the path of the kubeconfig the [rest.Config] is built
    from.  [filepath.Join] of three elements is the [Join] of the first two
    with the third. *)
Definition parseKubeConfig `{Host} `{Os} `{ClientGo} (kubeconfigPath : string)
  : failure + string :=
  let configPath :=
    if nonEmpty kubeconfigPath then kubeconfigPath
    else
      let envKubeconfig := Getenv "KUBECONFIG" in
      if nonEmpty envKubeconfig then envKubeconfig
      else Join (Join HomeDir ".kube") "config" in
  match Stat configPath with
  | NotExist => inl (KubeconfigNotFound configPath)
  | _ =>
      if BuildConfigFromFlags configPath then inr configPath
      else inl (Wrapped "failed to build config from kubeconfig" BuildConfig)
  end.

(** [collectFromCluster]. *)
Definition collectFromCluster `{Yaml} `{Host} `{Os} `{ClientGo}
    (kubeconfigPath outputFile : string) (w : World) : option failure * World :=
  match parseKubeConfig kubeconfigPath with
  | inl e => (Some e, w)
  | inr config =>
      if negb (NewDiscoveryClientForConfig config) then (Some DiscoveryClient, w)
      else if negb (NewForConfig config) then (Some DynamicClient, w)
      else
        match @collectAllResourcesToSingleFile _ (ClusterOf config) _ outputFile w with
        | (inl e, w') => (Some (Collection e), w')
        | (inr _, w') => (None, w')
        end
  end.

(** [%d] of the length of a slice. *)
Definition formatLen {A : Type} (l : list A) : string :=
  pretty (Z.of_nat (length l)).

(** The parts of the report of [generateDiff], in the order in which they
    are written to the builder. *)
Definition reportHead (cluster1Name cluster2Name now : string)
    (resources1 resources2 : list string) : string :=
  "=== Cluster Comparison Report ===
" +:+ "Generated at: " +:+ now +:+ "
" +:+ "Cluster 1: " +:+ cluster1Name +:+ " (" +:+ formatLen resources1 +:+ " resources)
" +:+ "Cluster 2: " +:+ cluster2Name +:+ " (" +:+ formatLen resources2 +:+ " resources)

".

Definition reportOnly (clusterName : string) (only : list string) : string :=
  if (0 <? length only)%nat
  then foldl (fun out resource => out +:+ ("- " +:+ resource +:+ "
"))
             ("
=== Resources only in " +:+ clusterName +:+ " ===
") only
  else EmptyString.

Definition reportCommon (commonResources : list string) : string :=
  if (0 <? length commonResources)%nat
  then "
=== Common resources in both clusters ===
" +:+ "Total: " +:+ formatLen commonResources +:+ " resources
"
  else EmptyString.

Definition reportSummary (cluster1Name cluster2Name : string)
    (resources1 resources2 onlyInCluster1 onlyInCluster2 commonResources
       : list string) : string :=
  "
=== Summary ===
" +:+ "Total resources in " +:+ cluster1Name +:+ ": " +:+ formatLen resources1 +:+ "
" +:+ "Total resources in " +:+ cluster2Name +:+ ": " +:+ formatLen resources2 +:+ "
" +:+ "Only in " +:+ cluster1Name +:+ ": " +:+ formatLen onlyInCluster1 +:+ "
" +:+ "Only in " +:+ cluster2Name +:+ ": " +:+ formatLen onlyInCluster2 +:+ "
" +:+ "Common to both: " +:+ formatLen commonResources +:+ "
".

Definition report (cluster1Name cluster2Name now : string)
    (resources1 resources2 : list string) : string :=
  let onlyInCluster1 := findUniqueResources resources1 resources2 in
  let onlyInCluster2 := findUniqueResources resources2 resources1 in
  let commonResources := findCommonResources resources1 resources2 in
  reportHead cluster1Name cluster2Name now resources1 resources2
  +:+ reportOnly cluster1Name onlyInCluster1
  +:+ reportOnly cluster2Name onlyInCluster2
  +:+ reportCommon commonResources
  +:+ reportSummary cluster1Name cluster2Name resources1 resources2
        onlyInCluster1 onlyInCluster2 commonResources.

(** [generateDiff]. *)
Definition generateDiff `{Host}
    (file1 file2 outputFile cluster1Name cluster2Name : string) (w : World)
  : option failure * World :=
  match ReadFile w file1 with
  | None => (Some (Wrapped ("failed to read " +:+ file1) (ReadSnapshot file1)), w)
  | Some content1 =>
      match ReadFile w file2 with
      | None => (Some (Wrapped ("failed to read " +:+ file2) (ReadSnapshot file2)), w)
      | Some content2 =>
          let resources1 := parseResources content1 in
          let resources2 := parseResources content2 in
          let '(now, w) := Now w in
          let diff := report cluster1Name cluster2Name now resources1 resources2 in
          match WriteFile outputFile diff w with
          | (false, w') => (Some (WriteReport outputFile), w')
          | (true, w') => (None, w')
          end
      end
  end.

(** The function [processMustGatherDirectory] gives to [filepath.Walk], on
    the inventory and [errorCount]. *)
Definition walkFile `{Yaml} (w : World)
    (st : gmap string (list value) * Z) (e : WalkEntry.t)
  : gmap string (list value) * Z :=
  let '(resourceMap, errorCount) := st in
  if WalkEntry.failed e then st
  else if WalkEntry.isDir e then st
  else if negb (HasSuffix (WalkEntry.path e) ".yaml")
          && negb (HasSuffix (WalkEntry.path e) ".yml")
  then st
  else
    match processMustGatherFile w (WalkEntry.path e) resourceMap with
    | (Some _, resourceMap') => (resourceMap', wrap64 (errorCount + 1))
    | (None, resourceMap') => (resourceMap', errorCount)
    end.

(** The body of the loop of [processMustGatherDirectory] that writes one
    file for each key, on [collectedCount], [errorCount] and the world. *)
Definition writeKey `{Yaml} `{Host} (outputPath : string)
    (resourceMap : gmap string (list value))
    (st : Z * Z * World) (key : string) : Z * Z * World :=
  let '(collectedCount, errorCount, w) := st in
  let items := default [] (resourceMap !! key) in
  if (length items =? 0)%nat then st
  else
    let filename := key +:+ ".yaml" in
    let filePath := Join outputPath filename in
    match Marshal (listOf items) with
    | None => (collectedCount, wrap64 (errorCount + 1), w)
    | Some yamlData =>
        let parts := SplitN2 key "-" in
        let groupVersion := hd EmptyString parts in
        let resourceName :=
          match parts with
          | _ :: part :: _ => part
          | _ => EmptyString
          end in
        let '(header, w) := formatHeader resourceName groupVersion w in
        let finalYaml := header +:+ yamlData in
        match WriteFile filePath finalYaml w with
        | (false, w') => (collectedCount, wrap64 (errorCount + 1), w')
        | (true, w') => (wrap64 (collectedCount + 1), errorCount, w')
        end
    end.

(** [processMustGatherDirectory]: [collectedCount], [errorCount] and the
    world; [order] is the order in which the [range] of this run yields the
    keys of the map.  The function given to [filepath.Walk] returns no
    error, so the walk returns none. *)
Definition processMustGatherDirectory `{Yaml} `{Host}
    (order : gmap string (list value) -> list string)
    (mustGatherPath outputPath : string) (w : World) : Z * Z * World :=
  let '(resourceMap, errorCount) :=
    foldl (walkFile w) (∅, 0) (Walk mustGatherPath) in
  foldl (writeKey outputPath resourceMap) (0, errorCount, w) (order resourceMap).

(** [runMustGatherMode]: the error, or the two counts of the summary. *)
Definition runMustGatherMode `{Yaml} `{Host} `{Os}
    (order : gmap string (list value) -> list string)
    (flags : Flags.t) (w : World) : (failure + Z * Z) * World :=
  match validateMustGatherPath (Flags.mustGather flags) with
  | Some e => (inl e, w)
  | None =>
      if negb (MkdirAll (Flags.outputDir flags))
      then (inl (Wrapped "failed to create output directory"
                   (CreateDirectory (Flags.outputDir flags))), w)
      else
        match (if Flags.clean flags
               then cleanDirectory (Flags.outputDir flags) w
               else (None, w)) with
        | (Some e, w) => (inl (Wrapped "failed to clean output directory" e), w)
        | (None, w) =>
            let '(collectedCount, errorCount, w) :=
              processMustGatherDirectory order (Flags.mustGather flags)
                (Flags.outputDir flags) w in
            (inr (collectedCount, errorCount), w)
        end
  end.

(** [runMustGatherComparisonMode]; [order1] and [order2] are the orders of
    the [range] over the first and over the second inventory. *)
Definition runMustGatherComparisonMode `{Yaml} `{Host} `{Os}
    (order1 order2 : gmap string (list value) -> list string)
    (flags : Flags.t) (w : World) : option failure * World :=
  match validateMustGatherPath (Flags.mustGather1 flags) with
  | Some e => (Some (Wrapped "invalid must-gather1" e), w)
  | None =>
  match validateMustGatherPath (Flags.mustGather2 flags) with
  | Some e => (Some (Wrapped "invalid must-gather2" e), w)
  | None =>
      let mgName1 := getMustGatherName (Flags.mustGather1 flags) in
      let mgName2 := getMustGatherName (Flags.mustGather2 flags) in
      let compareDir := Join (Flags.outputDir flags) "comparison" in
      if negb (MkdirAll compareDir)
      then (Some (Wrapped "failed to create comparison directory"
                    (CreateDirectory compareDir)), w)
      else
        let outputFile1 :=
          Join compareDir (sanitizeClusterName mgName1 +:+ "-resources.yaml") in
        match processMustGatherToSingleFile order1 (Flags.mustGather1 flags)
                outputFile1 w with
        | (Some e, w) =>
            (Some (Wrapped "failed to process must-gather 1" (Collection e)), w)
        | (None, w) =>
            let outputFile2 :=
              Join compareDir (sanitizeClusterName mgName2 +:+ "-resources.yaml") in
            match processMustGatherToSingleFile order2 (Flags.mustGather2 flags)
                    outputFile2 w with
            | (Some e, w) =>
                (Some (Wrapped "failed to process must-gather 2" (Collection e)), w)
            | (None, w) =>
                let diffFile :=
                  Join compareDir
                       ("diff-" +:+ sanitizeClusterName mgName1 +:+ "-vs-"
                        +:+ sanitizeClusterName mgName2 +:+ ".txt") in
                match generateDiff outputFile1 outputFile2 diffFile
                        mgName1 mgName2 w with
                | (Some e, w) => (Some (Wrapped "failed to generate diff" e), w)
                | (None, w) => (None, w)
                end
            end
        end
  end
  end.

(** [runComparisonMode]. *)
Definition runComparisonMode `{Yaml} `{Host} `{Os} `{ClientGo}
    (flags : Flags.t) (w : World) : option failure * World :=
  if Deprecation.isEmpty (Flags.kubeconfig1 flags)
     || Deprecation.isEmpty (Flags.kubeconfig2 flags)
  then (Some NeedBothKubeconfigs, w)
  else
  match getClusterName (Flags.kubeconfig1 flags) with
  | inl e => (Some (Wrapped "failed to get cluster name from kubeconfig1" e), w)
  | inr clusterName1 =>
  match getClusterName (Flags.kubeconfig2 flags) with
  | inl e => (Some (Wrapped "failed to get cluster name from kubeconfig2" e), w)
  | inr clusterName2 =>
      let compareDir := Join (Flags.outputDir flags) "comparison" in
      if negb (MkdirAll compareDir)
      then (Some (Wrapped "failed to create comparison directory"
                    (CreateDirectory compareDir)), w)
      else
        let outputFile1 :=
          Join compareDir (sanitizeClusterName clusterName1 +:+ "-resources.yaml") in
        match collectFromCluster (Flags.kubeconfig1 flags) outputFile1 w with
        | (Some e, w) => (Some (Wrapped "failed to collect from cluster 1" e), w)
        | (None, w) =>
            let outputFile2 :=
              Join compareDir
                   (sanitizeClusterName clusterName2 +:+ "-resources.yaml") in
            match collectFromCluster (Flags.kubeconfig2 flags) outputFile2 w with
            | (Some e, w) => (Some (Wrapped "failed to collect from cluster 2" e), w)
            | (None, w) =>
                let diffFile :=
                  Join compareDir
                       ("diff-" +:+ sanitizeClusterName clusterName1 +:+ "-vs-"
                        +:+ sanitizeClusterName clusterName2 +:+ ".txt") in
                match generateDiff outputFile1 outputFile2 diffFile
                        clusterName1 clusterName2 w with
                | (Some e, w) => (Some (Wrapped "failed to generate diff" e), w)
                | (None, w) => (None, w)
                end
            end
        end
  end
  end.

(** [os.Remove(outputFile)], where an error for which [os.IsNotExist]
    holds is let through. *)
Definition removeOutputFile `{Os} (outputFile : string) (w : World)
  : option failure * World :=
  match Remove outputFile with
  | Removed => (None, mkWorld (delete outputFile (files w)) (clock w))
  | Missing => (None, w)
  | Refused => (Some (RemoveFile outputFile), w)
  end.

(** The collection from one cluster, with which [runCollector] ends when no
    other mode is asked for. *)
Definition runCollection `{Yaml} `{Host} `{Os} `{ClientGo}
    (flags : Flags.t) (w : World) : option failure * World :=
  let '(singleFile, outputFile) :=
    if nonEmpty (Flags.outputFile flags) then (true, Flags.outputFile flags)
    else if Flags.singleFile flags
    then (Flags.singleFile flags, "./output/all-resources.yaml")
    else (Flags.singleFile flags, Flags.outputFile flags) in
  let configPath :=
    if Deprecation.isEmpty (Flags.kubeconfig flags)
       && nonEmpty (Flags.kubeconfig1 flags)
    then Flags.kubeconfig1 flags
    else Flags.kubeconfig flags in
  match parseKubeConfig configPath with
  | inl e => (Some (Wrapped "failed to get kubeconfig" e), w)
  | inr config =>
      if negb (NewDiscoveryClientForConfig config)
      then (Some (Wrapped "failed to create discovery client" DiscoveryClient), w)
      else if negb (NewForConfig config)
      then (Some (Wrapped "failed to create dynamic client" DynamicClient), w)
      else if singleFile
      then
        let outputFile :=
          if Deprecation.isEmpty outputFile then "./output/all-resources.yaml"
          else outputFile in
        if negb (MkdirAll (Dir outputFile))
        then (Some (Wrapped "failed to create output directory"
                      (CreateDirectory (Dir outputFile))), w)
        else
          match (if Flags.clean flags then removeOutputFile outputFile w
                 else (None, w)) with
          | (Some e, w) => (Some (Wrapped "failed to clean output file" e), w)
          | (None, w) =>
              match @collectAllResourcesToSingleFile _ (ClusterOf config) _
                      outputFile w with
              | (inl e, w') => (Some (Collection e), w')
              | (inr _, w') => (None, w')
              end
          end
      else
        if negb (MkdirAll (Flags.outputDir flags))
        then (Some (Wrapped "failed to create output directory"
                      (CreateDirectory (Flags.outputDir flags))), w)
        else
          match (if Flags.clean flags
                 then cleanDirectory (Flags.outputDir flags) w
                 else (None, w)) with
          | (Some e, w) => (Some (Wrapped "failed to clean output directory" e), w)
          | (None, w) =>
              match @collectResources _ (ClusterOf config) _
                      (Flags.outputDir flags) w with
              | (inl e, w') => (Some (Collection e), w')
              | (inr _, w') => (None, w')
              end
          end
  end.

(** [runCollector]; [order1] and [order2] are the orders of the first and
    of the second [range] over an inventory in this run. *)
Definition runCollector `{Yaml} `{Host} `{Os} `{ClientGo}
    (order1 order2 : gmap string (list value) -> list string)
    (flags : Flags.t) (w : World) : option failure * World :=
  let kubeconfig := Flags.kubeconfig flags in
  let kubeconfig1 := Flags.kubeconfig1 flags in
  let kubeconfig2 := Flags.kubeconfig2 flags in
  let mustGather := Flags.mustGather flags in
  let mustGather1 := Flags.mustGather1 flags in
  let mustGather2 := Flags.mustGather2 flags in
  if nonEmpty mustGather && nonEmpty kubeconfig
  then (Some MustGatherWithKubeconfig, w)
  else if nonEmpty mustGather && (nonEmpty kubeconfig1 || nonEmpty kubeconfig2)
  then (Some MustGatherWithKubeconfigs, w)
  else if (nonEmpty mustGather1 || nonEmpty mustGather2)
          && (nonEmpty kubeconfig || nonEmpty kubeconfig1 || nonEmpty kubeconfig2)
  then (Some MustGathersWithKubeconfigs, w)
  else if nonEmpty mustGather && (nonEmpty mustGather1 || nonEmpty mustGather2)
  then (Some MustGatherWithMustGathers, w)
  else if nonEmpty mustGather1 && nonEmpty mustGather2
  then runMustGatherComparisonMode order1 order2 flags w
  else if nonEmpty mustGather1 || nonEmpty mustGather2
  then (Some NeedBothMustGathers, w)
  else if nonEmpty mustGather
  then match runMustGatherMode order1 flags w with
       | (inl e, w') => (Some e, w')
       | (inr _, w') => (None, w')
       end
  else if Flags.compareMode flags || (nonEmpty kubeconfig1 && nonEmpty kubeconfig2)
  then runComparisonMode flags w
  else runCollection flags w.

End Modes.

(** ** What the further properties speak of *)

Module ModeShape.

Import MustGather Collector Modes.

Definition safeNameByte (c : ascii) : bool := negb (unsafeNameByte c).

(** Neither the dash nor the slash. *)
Definition plainByte (c : ascii) : bool :=
  negb (Ascii.eqb c "-") && negb (Ascii.eqb c "/").

(** The resource name [makeResourceKey] makes of a kind. *)
Definition resourceOf (kind : string) : string :=
  let resource := ToLower kind in
  if negb (HasSuffix resource "s") then resource +:+ "s" else resource.

(** An entry of the walk that the program takes for a YAML file. *)
Definition yamlFile (e : WalkEntry.t) : bool :=
  negb (WalkEntry.failed e) && negb (WalkEntry.isDir e)
  && (HasSuffix (WalkEntry.path e) ".yaml" || HasSuffix (WalkEntry.path e) ".yml").

(** A YAML file of the walk that cannot be read. *)
Definition unreadableYaml (w : World) (e : WalkEntry.t) : bool :=
  yamlFile e
  && match ReadFile w (WalkEntry.path e) with Some _ => false | None => true end.

(** The path of the file [processMustGatherDirectory] writes for a key. *)
Definition keyPath `{Host} (outputPath key : string) : string :=
  Join outputPath (key +:+ ".yaml").

(** A key whose list can be marshalled and whose file can be written. *)
Definition writtenKey `{Yaml} `{Host} (outputPath : string)
    (resourceMap : gmap string (list value)) (key : string) : bool :=
  match Marshal (listOf (default [] (resourceMap !! key))) with
  | Some _ => Writable (keyPath outputPath key)
  | None => false
  end.

(** The report of two snapshots with the same names: no part for the names
    of one snapshot only. *)
Definition reportOfSameNames (cluster1Name cluster2Name now : string)
    (resources1 resources2 : list string) : string :=
  let commonResources := Diff.findCommonResources resources1 resources2 in
  reportHead cluster1Name cluster2Name now resources1 resources2
  +:+ reportCommon commonResources
  +:+ reportSummary cluster1Name cluster2Name resources1 resources2
        [] [] commonResources.

(** A flag that was given. *)
Definition given (flag : string) : bool := negb (Deprecation.isEmpty flag).

(** One of the must-gather flags, one of the kubeconfig flags. *)
Definition anyMustGather (flags : Flags.t) : bool :=
  given (Flags.mustGather flags) || given (Flags.mustGather1 flags)
  || given (Flags.mustGather2 flags).

Definition anyKubeconfig (flags : Flags.t) : bool :=
  given (Flags.kubeconfig flags) || given (Flags.kubeconfig1 flags)
  || given (Flags.kubeconfig2 flags).

(** Two runs with the same paths and the same [clean]: they can differ in
    [compareMode], [singleFile] and [outputFile]. *)
Definition samePaths (flags flags' : Flags.t) : Prop :=
  Flags.kubeconfig flags = Flags.kubeconfig flags'
  /\ Flags.kubeconfig1 flags = Flags.kubeconfig1 flags'
  /\ Flags.kubeconfig2 flags = Flags.kubeconfig2 flags'
  /\ Flags.mustGather flags = Flags.mustGather flags'
  /\ Flags.mustGather1 flags = Flags.mustGather1 flags'
  /\ Flags.mustGather2 flags = Flags.mustGather2 flags'
  /\ Flags.outputDir flags = Flags.outputDir flags'
  /\ Flags.clean flags = Flags.clean flags'.

(** The kubeconfig of a collection from one cluster: the first that is
    given of [kubeconfig], [kubeconfig1] and [$KUBECONFIG], or the one in
    the home directory. *)
Definition chosenKubeconfig `{Host} `{Os} (flags : Flags.t) : string :=
  if given (Flags.kubeconfig flags) then Flags.kubeconfig flags
  else if given (Flags.kubeconfig1 flags) then Flags.kubeconfig1 flags
  else if given (Getenv "KUBECONFIG") then Getenv "KUBECONFIG"
  else Join (Join HomeDir ".kube") "config".

(** The single file of a collection from one cluster, if it writes one. *)
Definition chosenOutputFile (flags : Flags.t) : option string :=
  if given (Flags.outputFile flags) then Some (Flags.outputFile flags)
  else if Flags.singleFile flags then Some "./output/all-resources.yaml"
  else None.

(** How a mode ends that ends with a collection. *)
Definition ended (r : (error + Summary) * World) : option failure * World :=
  match r with
  | (inl e, w) => (Some (Collection e), w)
  | (inr _, w) => (None, w)
  end.

End ModeShape.

(** ** Sample data: an OpenShift cluster, a machine, two kubeconfigs *)

Module Samples.

Import Examples.

Definition openshiftResources : APIResourceList.t :=
  APIResourceList.mk "apps.openshift.io/v1"
    [ APIResource.mk "deploymentconfigs" ["get"; "list"] ].

(** An OpenShift cluster on Kubernetes 1.29. *)
Definition openshift : Cluster := {|
  ServerVersion := Some ("1", "29");
  ServerGroups := Some [EmptyString; "apps"; "config.openshift.io"];
  ServerPreferredResources := Some [coreResources; openshiftResources];
  ParseGroupVersion := splitGroupVersion;
  List group version name := Some (VMap ∅)
  |}.

Definition openshiftVersion : ClusterVersion.t :=
  ClusterVersion.mk 1 29 true 4 16.

(** The last element of a path, for [filepath.Base]. *)
Fixpoint lastElement (path acc : string) : string :=
  match path with
  | EmptyString => acc
  | String c rest =>
      if Ascii.eqb c "/" then lastElement rest EmptyString
      else lastElement rest (acc +:+ String c EmptyString)
  end.

(** A machine with directories under [/a] and [/b], kubeconfigs under
    [/kube], and no [$KUBECONFIG]. *)
Definition sampleOs : Os := {|
  Stat path :=
    if HasPrefix path "/a/" || HasPrefix path "/b/" then IsDirectory
    else if HasPrefix path "/kube/" then IsFile
    else NotExist;
  ReadDir path := Some ["namespaces.yaml"; "version"];
  MkdirAll _ := true;
  Remove _ := Missing;
  RemoveAll _ remaining := (true, remaining);
  Base path := lastElement path EmptyString;
  Dir _ := "/out";
  Abs path := Some path;
  Getenv _ := EmptyString;
  HomeDir := "/root"
  |}.

(** The same machine, where a walk finds a directory and one file that is
    no YAML file. *)
Definition bareHost : Host := {|
  Walk root :=
    [ WalkEntry.mk root true false;
      WalkEntry.mk (root +:+ "/version") false false ];
  Writable path := negb (String.eqb path "/proc/version");
  shortWrite _ _ := None;
  Join dir name := dir +:+ "/" +:+ name;
  timeAt _ := "2025-01-01T00:00:00Z"
  |}.

(** A machine whose disk is full: a file with the suffix [.txt] is opened,
    and four bytes reach it before the write fails. *)
Definition fullDisk : Host := {|
  Walk root := [];
  Writable path := negb (HasSuffix path ".txt");
  shortWrite _ _ := Some 4%nat;
  Join dir name := dir +:+ "/" +:+ name;
  timeAt _ := "2025-01-01T00:00:00Z"
  |}.

(** Two snapshots and an older report. *)
Definition snapshotWorld : World :=
  mkWorld (<["/out/east.yaml" := liveSnapshot]>
             (<["/out/west.yaml" := otherSnapshot]>
                (<["/out/diff.txt" := "an older report"]> ∅))) O.

(** Two kubeconfigs whose current context names the cluster
    [prod.example] and the cluster [prod-example]; behind the first is the
    cluster without a version, behind the second the OpenShift cluster. *)
Definition sampleClientGo : ClientGo := {|
  LoadFromFile path :=
    if String.eqb path "/kube/east"
    then Some (KubeConfig.mk "admin" (<["admin" := "prod.example"]> ∅))
    else if String.eqb path "/kube/west"
    then Some (KubeConfig.mk "admin" (<["admin" := "prod-example"]> ∅))
    else None;
  BuildConfigFromFlags _ := true;
  NewDiscoveryClientForConfig _ := true;
  NewForConfig _ := true;
  ClusterOf path :=
    if String.eqb path "/kube/east" then unversioned else openshift
  |}.

(** Three must-gathers: pods and a service, and twice a service alone. *)
Definition twoBundles : World :=
  mkWorld (<["/a/must-gather/namespaces.yaml" := mustGatherText]>
             (<["/b/must-gather/namespaces.yaml" := serviceText]>
                (<["/b/other/namespaces.yaml" := serviceText]> ∅))) O.

(** A YAML library that reads the sample documents, and writes a list of
    three items or more with a line that begins with the marker: what is
    asked of the YAML of an inventory is not true of every list. *)
Definition blockingYaml : Yaml := {|
  Unmarshal := @Unmarshal sampleYaml;
  Marshal v :=
    match v with
    | VMap m =>
        match m !! "items" with
        | Some (VList (_ :: _ :: _ :: _)) => @Marshal blockYaml v
        | _ => @Marshal sampleYaml v
        end
    | _ => @Marshal sampleYaml v
    end
  |}.

(** The keys in the order of [map_to_list]: one of the orders of a
    [range]. *)
Definition keysOf (resourceMap : gmap string (list value)) : list string :=
  (map_to_list resourceMap).*1.

Definition noFlags : Flags.t :=
  Flags.mk EmptyString EmptyString EmptyString EmptyString EmptyString
    EmptyString "/out" EmptyString false false false.

(** [--must-gather1 /a/must-gather --must-gather2 /b/must-gather]: two
    must-gathers of one name. *)
Definition sameNameFlags : Flags.t :=
  Flags.mk EmptyString EmptyString EmptyString EmptyString "/a/must-gather"
    "/b/must-gather" "/out" EmptyString false false false.

(** [--must-gather1 /a/must-gather --must-gather2 /b/other]. *)
Definition twoNameFlags : Flags.t :=
  Flags.mk EmptyString EmptyString EmptyString EmptyString "/a/must-gather"
    "/b/other" "/out" EmptyString false false false.

(** [--must-gather /a/empty]. *)
Definition mustGatherFlags : Flags.t :=
  Flags.mk EmptyString EmptyString EmptyString "/a/empty" EmptyString
    EmptyString "/out" EmptyString false false false.

(** [--kubeconfig1 /kube/east --kubeconfig2 /kube/west]. *)
Definition clusterFlags : Flags.t :=
  Flags.mk EmptyString "/kube/east" "/kube/west" EmptyString EmptyString
    EmptyString "/out" EmptyString false false false.

(** [--must-gather /a/empty --kubeconfig /kube/east]. *)
Definition mixedFlags : Flags.t :=
  Flags.mk "/kube/east" EmptyString EmptyString "/a/empty" EmptyString
    EmptyString "/out" EmptyString false false false.

(** [--compare --kubeconfig /kube/east]. *)
Definition compareFlags : Flags.t :=
  Flags.mk "/kube/east" EmptyString EmptyString EmptyString EmptyString
    EmptyString "/out" EmptyString false false true.

(** [--kubeconfig2 /kube/west]. *)
Definition secondOnlyFlags : Flags.t :=
  Flags.mk EmptyString EmptyString "/kube/west" EmptyString EmptyString
    EmptyString "/out" EmptyString false false false.

End Samples.

(** * Properties *)

(** ** The deprecation rules *)

Section DeprecationFacts.
Import Deprecation.

Lemma versionReached_kubernetes rule cv depMajor depMinor :
  DeprecationRule.IsOpenShift rule = false ->
  versionReached rule cv depMajor depMinor = true <->
  lexCompare (ClusterVersion.Major cv, ClusterVersion.Minor cv)
             (depMajor, depMinor) <> Lt.
Proof.
  intros Hk. unfold versionReached, lexCompare. rewrite Hk. simpl.
  rewrite orb_true_iff, andb_true_iff, Z.eqb_eq, Z.geb_le.
  rewrite Z.gtb_ltb, Z.ltb_lt.
  destruct (Z.compare_spec (ClusterVersion.Major cv) depMajor) as [E|L|G].
  - rewrite Z.compare_lt_iff. lia.
  - split; [lia | intros H; now destruct H].
  - split; [discriminate | lia].
Qed.

Lemma applyRule_fires rule resource groupVersion cv depMajor depMinor :
  DeprecationRule.GroupVersion rule = groupVersion ->
  DeprecationRule.Resource rule = APIResource.Name resource ->
  DeprecationRule.IsOpenShift rule = false ->
  depVersion rule = Some (depMajor, depMinor) ->
  applyRule rule resource groupVersion cv =
    if versionReached rule cv depMajor depMinor
    then Some (true, DeprecationRule.ReplacementGV rule,
               DeprecationRule.ReplacementResource rule,
               deprecationMessage rule groupVersion (APIResource.Name resource))
    else None.
Proof.
  intros Hgv Hname Hk Hdep. unfold applyRule.
  rewrite Hgv, Hname, !String.eqb_refl, Hk, Hdep. reflexivity.
Qed.

(** C4.  With the built-in rules, [endpoints] of [v1] is deprecated on a
    cluster that is not OpenShift and runs Kubernetes 1.33, the verdict
    carries the replacement [discovery.k8s.io/v1] [endpointslices] and the
    message names it, and [shouldSkipResource] says to skip; on Kubernetes
    1.32 the resource is not deprecated.  A rule that is not specific to
    OpenShift and matches the resource fires exactly when the cluster's
    (major, minor) is not below the rule's in the order that compares the
    major numbers first and the minor numbers next. *)
Theorem endpoints_rule_fires_from_1_33 :
  (forall verbs osMajor osMinor,
      let resource := APIResource.mk "endpoints" verbs in
      let cv := ClusterVersion.mk 1 33 false osMajor osMinor in
      let message :=
        "Using discovery.k8s.io/v1/endpointslices instead of deprecated v1/endpoints" in
      isDeprecated resource "v1" cv
        = (true, "discovery.k8s.io/v1", "endpointslices", message)
      /\ shouldSkipResource resource "v1" cv = (true, message)
      /\ Contains message "discovery.k8s.io/v1/endpointslices" = true)
  /\ (forall verbs osMajor osMinor,
      let resource := APIResource.mk "endpoints" verbs in
      let cv := ClusterVersion.mk 1 32 false osMajor osMinor in
      isDeprecated resource "v1" cv = notDeprecated
      /\ shouldSkipResource resource "v1" cv = (false, EmptyString))
  /\ (forall rule resource groupVersion cv depMajor depMinor,
      DeprecationRule.GroupVersion rule = groupVersion ->
      DeprecationRule.Resource rule = APIResource.Name resource ->
      DeprecationRule.IsOpenShift rule = false ->
      depVersion rule = Some (depMajor, depMinor) ->
      is_Some (applyRule rule resource groupVersion cv) <->
      lexCompare (ClusterVersion.Major cv, ClusterVersion.Minor cv)
                 (depMajor, depMinor) <> Lt).
Proof.
  split; [| split].
  - intros verbs osMajor osMinor. cbv zeta. repeat split; reflexivity.
  - intros verbs osMajor osMinor. cbv zeta. split; reflexivity.
  - intros rule resource groupVersion cv depMajor depMinor Hgv Hname Hk Hdep.
    rewrite (applyRule_fires _ _ _ cv _ _ Hgv Hname Hk Hdep).
    rewrite <- (versionReached_kubernetes rule cv depMajor depMinor Hk).
    destruct (versionReached rule cv depMajor depMinor); split;
      intros H; try reflexivity; try (eexists; reflexivity);
      try discriminate; now destruct H.
Qed.

(** The general part of C4 at the built-in [endpoints] rule and a
    Kubernetes 1.34 cluster. *)
Lemma endpoints_rule_fires_from_1_33_witness :
  is_Some (applyRule
             (DeprecationRule.mk "v1" "endpoints" "1.33" "discovery.k8s.io/v1"
                "endpointslices" false)
             (APIResource.mk "endpoints" ["get"; "list"]) "v1"
             (ClusterVersion.mk 1 34 false 0 0))
  <-> lexCompare (1, 34) (1, 33) <> Lt.
Proof.
  apply (proj2 (proj2 endpoints_rule_fires_from_1_33)
           (DeprecationRule.mk "v1" "endpoints" "1.33" "discovery.k8s.io/v1"
              "endpointslices" false)
           (APIResource.mk "endpoints" ["get"; "list"]) "v1"
           (ClusterVersion.mk 1 34 false 0 0) 1 33);
    reflexivity.
Defined.

End DeprecationFacts.

(** ** Byte strings *)

Section StringFacts.

(** The functions of [GoStrings] and [Strconv] on the inputs the program
    gives them. *)
Example Split_documents :
  Split "a: 1
---
b: 2
---" "
---" = ["a: 1"; "
b: 2"; EmptyString].
Proof. reflexivity. Qed.

Example Split_version : Split "1.33" "." = ["1"; "33"].
Proof. reflexivity. Qed.

Example Split_nothing : Split EmptyString "." = [EmptyString].
Proof. reflexivity. Qed.

Example SplitN2_marker :
  SplitN2 "--- # Resource: a:b" ":" = ["--- # Resource"; " a:b"].
Proof. reflexivity. Qed.

Example SplitN2_no_separator : SplitN2 "pods" ":" = ["pods"].
Proof. reflexivity. Qed.

(** U+00A0 before the text, U+2003 and a line feed after it. *)
Example TrimSpace_unicode :
  TrimSpace (String "194" (String "160" ("  a b" +:+
             String "226" (String "128" (String "131" (String "010" EmptyString))))))
  = "a b".
Proof. reflexivity. Qed.

(** A continuation byte on its own is no white space. *)
Example TrimSpace_stray_byte :
  TrimSpace (String "160" " a") = String "160" " a".
Proof. reflexivity. Qed.

Example ReplaceAll_group : ReplaceAll "apps/v1" "/" "-" = "apps-v1".
Proof. reflexivity. Qed.

Example ToLower_kind : ToLower "NetworkPolicy" = "networkpolicy".
Proof. reflexivity. Qed.

Example TrimSuffix_minor : TrimSuffix "27+" "+" = "27".
Proof. reflexivity. Qed.

Example Atoi_minor : Strconv.Atoi "33" = Some 33.
Proof. reflexivity. Qed.

Example Atoi_signs :
  Strconv.Atoi "-7" = Some (-7) /\ Strconv.Atoi "+7" = Some 7
  /\ Strconv.Atoi "+" = None /\ Strconv.Atoi EmptyString = None
  /\ Strconv.Atoi "1x" = None.
Proof. repeat split; reflexivity. Qed.

Example Atoi_range :
  Strconv.Atoi "9223372036854775807" = Some Strconv.maxInt
  /\ Strconv.Atoi "9223372036854775808" = None
  /\ Strconv.Atoi "-9223372036854775808" = Some Strconv.minInt.
Proof. repeat split; reflexivity. Qed.

Example makeResourceKey_samples :
  MustGather.makeResourceKey "v1" "Pod" = "v1-pods"
  /\ MustGather.makeResourceKey "apps/v1" "Deployment" = "apps-v1-deployments"
  /\ MustGather.makeResourceKey "networking.k8s.io/v1" "Ingress"
     = "networking.k8s.io-v1-ingress"
  /\ MustGather.makeResourceKey "v1" "Endpoints" = "v1-endpoints".
Proof. repeat split; reflexivity. Qed.

Lemma str_app_cons c (s t : string) : String c s +:+ t = String c (s +:+ t).
Proof. reflexivity. Qed.

Lemma str_app_empty_l (s : string) : EmptyString +:+ s = s.
Proof. reflexivity. Qed.

Lemma str_app_empty_r (s : string) : s +:+ EmptyString = s.
Proof. induction s as [|c s IH]; [reflexivity|]. now rewrite str_app_cons, IH. Qed.

Lemma str_app_assoc (s t u : string) : (s +:+ t) +:+ u = s +:+ (t +:+ u).
Proof. induction s as [|c s IH]; [reflexivity|]. now rewrite !str_app_cons, IH. Qed.

Lemma str_length_app (s t : string) :
  String.length (s +:+ t) = (String.length s + String.length t)%nat.
Proof.
  induction s as [|c s IH]; [reflexivity|].
  rewrite str_app_cons. simpl. now rewrite IH.
Qed.

Lemma rev_app_spec (s t : string) : String.rev_app s t = String.rev s +:+ t.
Proof.
  unfold String.rev. revert t.
  induction s as [|c s IH]; intros t; [reflexivity|].
  simpl. rewrite (IH (String c t)), (IH (String c EmptyString)), str_app_assoc.
  reflexivity.
Qed.

Lemma rev_cons c (s : string) :
  String.rev (String c s) = String.rev s +:+ String c EmptyString.
Proof. unfold String.rev at 1. simpl. apply rev_app_spec. Qed.

Lemma str_rev_app (s t : string) :
  String.rev (s +:+ t) = String.rev t +:+ String.rev s.
Proof.
  induction s as [|c s IH].
  - now rewrite str_app_empty_l, str_app_empty_r.
  - now rewrite str_app_cons, !rev_cons, IH, str_app_assoc.
Qed.

Lemma rev_involutive (s : string) : String.rev (String.rev s) = s.
Proof.
  induction s as [|c s IH]; [reflexivity|].
  now rewrite rev_cons, str_rev_app, IH.
Qed.

Lemma HasPrefix_app (s prefix : string) :
  HasPrefix s prefix = true -> exists rest, s = prefix +:+ rest.
Proof.
  revert s. induction prefix as [|p prefix IH]; intros s Hs.
  - now exists s.
  - destruct s as [|c s]; [discriminate|]. cbn [HasPrefix] in Hs.
    apply andb_true_iff in Hs as [Hc Hs]. apply Ascii.eqb_eq in Hc as ->.
    destruct (IH s Hs) as [rest ->]. now exists rest.
Qed.

Lemma HasSuffix_length (s suffix : string) :
  HasSuffix s suffix = true -> (String.length suffix <= String.length s)%nat.
Proof.
  unfold HasSuffix. intros H. apply andb_true_iff in H as [H _].
  now apply Nat.leb_le.
Qed.

End StringFacts.

(** ** The key of a resource type *)

Section KeyFacts.
Import MustGather.

(** The part of a key after the group version is never empty. *)
Lemma plural_nonempty (kind : string) :
  (1 <= String.length
          (if negb (HasSuffix (ToLower kind) "s")
           then ToLower kind +:+ "s" else ToLower kind))%nat.
Proof.
  destruct (HasSuffix (ToLower kind) "s") eqn:E; simpl.
  - apply HasSuffix_length in E. exact E.
  - rewrite str_length_app. simpl. lia.
Qed.

Lemma makeResourceKey_length (apiVersion kind : string) :
  (2 <= String.length (makeResourceKey apiVersion kind))%nat.
Proof.
  unfold makeResourceKey. rewrite !str_length_app.
  pose proof (plural_nonempty kind) as H. simpl String.length at 2. lia.
Qed.

(** C9, as the program has it.  [makeResourceKey] gives a key for every
    pair of strings; for two empty strings the key is ["-s"], the
    separator and the plural ending, and no pair of strings has the
    separator alone as its key. *)
Theorem makeResourceKey_total_and_empty_inputs :
  (forall apiVersion kind, exists key, makeResourceKey apiVersion kind = key)
  /\ makeResourceKey EmptyString EmptyString = "-s"
  /\ (forall apiVersion kind, makeResourceKey apiVersion kind <> "-").
Proof.
  split; [| split].
  - intros apiVersion kind. eexists. reflexivity.
  - reflexivity.
  - intros apiVersion kind E.
    pose proof (makeResourceKey_length apiVersion kind) as H.
    rewrite E in H. simpl in H. lia.
Qed.

(** C9, as the spec has it, fails: the key of two empty strings is not the
    separator alone. *)
Lemma makeResourceKey_empty_inputs_not_separator :
  makeResourceKey EmptyString EmptyString <> "-".
Proof. discriminate. Qed.

End KeyFacts.

(** ** The diff *)

Section DiffFacts.
Import Diff.

Lemma readBool_insert (m : gmap string bool) (item x : string) :
  readBool (<[item := true]> m) x = true <-> x = item \/ readBool m x = true.
Proof.
  unfold readBool. destruct (decide (item = x)) as [->|Hne].
  - rewrite lookup_insert_eq. simpl. tauto.
  - rewrite lookup_insert_ne by exact Hne. split; [tauto|].
    intros [E|E]; [congruence | exact E].
Qed.

Lemma readBool_foldl (l : list string) (m : gmap string bool) (x : string) :
  readBool (foldl (fun m item => <[item := true]> m) m l) x = true
  <-> x ∈ l \/ readBool m x = true.
Proof.
  revert m. induction l as [|a l IH]; intros m; simpl.
  - rewrite elem_of_nil. tauto.
  - rewrite IH, readBool_insert, elem_of_cons. tauto.
Qed.

Lemma readBool_makeSet (l : list string) (x : string) :
  readBool (makeSet l) x = true <-> x ∈ l.
Proof.
  unfold makeSet. rewrite readBool_foldl. unfold readBool.
  rewrite lookup_empty. simpl. split; [intros [H|H]; [exact H | discriminate] | tauto].
Qed.

Lemma foldl_select {A} (p : A -> bool) (l acc : list A) :
  foldl (fun acc x => if p x then acc ++ [x] else acc) acc l
  = acc ++ List.filter p l.
Proof.
  revert acc. induction l as [|a l IH]; intros acc; simpl.
  - now rewrite app_nil_r.
  - rewrite IH. destruct (p a); [|reflexivity].
    now rewrite <- app_assoc.
Qed.

(** [findUniqueResources] keeps, in order and as often as they occur, the
    names of [set1] that are not in [set2]. *)
Lemma findUniqueResources_filter (set1 set2 : list string) :
  findUniqueResources set1 set2
  = List.filter (fun item => negb (readBool (makeSet set2) item)) set1.
Proof. unfold findUniqueResources. now rewrite foldl_select. Qed.

Lemma findUniqueResources_difference (set1 set2 : list string) (x : string) :
  x ∈ findUniqueResources set1 set2 <-> x ∈ set1 /\ x ∉ set2.
Proof.
  rewrite findUniqueResources_filter, list_elem_of_In, filter_In.
  rewrite <- list_elem_of_In, negb_true_iff.
  pose proof (readBool_makeSet set2 x) as H.
  destruct (readBool (makeSet set2) x); split; intros [H1 H2]; split;
    try exact H1; try reflexivity.
  - discriminate.
  - exfalso. apply H2, H. reflexivity.
  - intros Hx. apply H in Hx. discriminate.
Qed.

Lemma commonStep_inv (set2 visited : list string) st (item : string) :
  commonInv set2 visited st ->
  commonInv set2 (visited ++ [item]) (commonStep (makeSet set2) st item).
Proof.
  destruct st as [common seen]. intros (Hnd & Hseen & Hmem).
  unfold commonStep, commonInv in *. simpl in *.
  pose proof (readBool_makeSet set2 item) as Hin2.
  destruct (readBool (makeSet set2) item) eqn:E2;
    destruct (readBool seen item) eqn:Es; simpl;
    (split; [| split; intros x; specialize (Hseen x) as Hsx;
               specialize (Hmem x) as Hmx ]);
    rewrite ?readBool_insert, ?elem_of_app, ?list_elem_of_singleton;
    try assumption.
  - split; [tauto|]. intros [[Hx| ->] H2]; [tauto|]. now apply Hseen.
  - apply NoDup_app. repeat split; [assumption | | apply NoDup_singleton].
    intros y Hy Hy'. apply list_elem_of_singleton in Hy' as ->.
    apply Hseen in Hy. congruence.
  - tauto.
  - split; [intros [H| ->]; tauto | tauto].
  - split; [tauto|]. intros [[Hx| ->] H2]; [tauto|].
    apply Hin2 in H2. discriminate.
  - split; [tauto|]. intros [[Hx| ->] H2]; [tauto|].
    apply Hin2 in H2. discriminate.
Qed.

Lemma commonInv_foldl (set2 l visited : list string) st :
  commonInv set2 visited st ->
  commonInv set2 (visited ++ l) (foldl (commonStep (makeSet set2)) st l).
Proof.
  revert visited st. induction l as [|a l IH]; intros visited st H; simpl.
  - now rewrite app_nil_r.
  - replace (visited ++ a :: l) with ((visited ++ [a]) ++ l)
      by (now rewrite <- app_assoc).
    apply IH, commonStep_inv, H.
Qed.

(** [findCommonResources] gives the names that are in both sequences, each
    of them once. *)
Lemma findCommonResources_intersection (set1 set2 : list string) :
  NoDup (findCommonResources set1 set2)
  /\ forall x, x ∈ findCommonResources set1 set2 <-> x ∈ set1 /\ x ∈ set2.
Proof.
  assert (H0 : commonInv set2 [] ([], ∅)).
  { split; [| split]; simpl.
    - apply NoDup_nil_2.
    - intros x. unfold readBool. rewrite lookup_empty, elem_of_nil. simpl.
      split; [discriminate | tauto].
    - intros x. rewrite !elem_of_nil. tauto. }
  apply (commonInv_foldl set2 set1) in H0. simpl in H0.
  destruct H0 as (Hnd & _ & Hmem). split; assumption.
Qed.

(** C3 at two snapshots.  [events] names a section of the first snapshot
    twice and no section of the second: [findUniqueResources] lists it
    twice among the names that are only in the first, so that list has a
    repetition, while [findCommonResources] lists [pods] once. *)
Theorem findUniqueResources_repeats_names :
  parseResources Examples.liveSnapshot = ["events"; "pods"; "events"]
  /\ parseResources Examples.otherSnapshot = ["pods"]
  /\ findUniqueResources (parseResources Examples.liveSnapshot)
                         (parseResources Examples.otherSnapshot)
     = ["events"; "events"]
  /\ ~ NoDup (findUniqueResources (parseResources Examples.liveSnapshot)
                                  (parseResources Examples.otherSnapshot))
  /\ findCommonResources (parseResources Examples.liveSnapshot)
                         (parseResources Examples.otherSnapshot)
     = ["pods"].
Proof.
  assert (E : findUniqueResources (parseResources Examples.liveSnapshot)
                (parseResources Examples.otherSnapshot) = ["events"; "events"])
    by (vm_compute; reflexivity).
  repeat split; try (vm_compute; reflexivity); try exact E.
  rewrite E. intros H. apply NoDup_cons in H as [H _].
  apply H. apply elem_of_cons. now left.
Qed.

End DiffFacts.

(** ** Ingestion *)

Section IngestionFacts.
Import MustGather.
Context `{Yaml}.


Lemma foldl_ineffective {A B} (f : A -> B -> A) (b : B) :
  (forall a, f a b = a) ->
  forall before after a,
    foldl f a (before ++ b :: after) = foldl f a (before ++ after).
Proof. intros Hb before after a. rewrite !foldl_app. simpl. now rewrite Hb. Qed.

Lemma addResource_untyped (resource : gmap string value) resourceMap :
  resource !! "kind" = None \/ resource !! "apiVersion" = None ->
  addResource resource resourceMap = resourceMap.
Proof.
  intros [E|E]; unfold addResource, stringField; rewrite E.
  - destruct (resource !! "apiVersion") as [[]|]; try reflexivity.
    simpl. now destruct (isEmpty s).
  - reflexivity.
Qed.





Lemma processDocument_comment (doc : string) resourceMap :
  HasPrefix (TrimSpace doc) "#" = true ->
  processDocument resourceMap doc = resourceMap.
Proof.
  intros E. unfold processDocument. now rewrite E, orb_true_r.
Qed.

Lemma processDocument_untyped (doc : string) resource resourceMap :
  Unmarshal (TrimSpace doc) = Some resource ->
  resource !! "kind" = None \/ resource !! "apiVersion" = None ->
  processDocument resourceMap doc = resourceMap.
Proof.
  intros E Hm. unfold processDocument. rewrite E.
  destruct (_ || _); [reflexivity|]. now apply addResource_untyped.
Qed.

Lemma processMustGatherFile_read (w : World) (filePath data : string) resourceMap :
  ReadFile w filePath = Some data ->
  processMustGatherFile w filePath resourceMap
  = (None, foldl processDocument resourceMap (Split data "
---")).
Proof. intros E. unfold processMustGatherFile. now rewrite E. Qed.




(** C8.  A document that the YAML library reads as a mapping without
    [kind], or without [apiVersion], leaves the resource map as it is; and
    [processMustGatherFile] returns no error for a file that has it among
    its documents, with the map the other documents of the file give. *)
Theorem document_without_kind_is_dropped (doc : string) (resource : gmap string value) :
  Unmarshal (TrimSpace doc) = Some resource ->
  resource !! "kind" = None \/ resource !! "apiVersion" = None ->
  (forall resourceMap, processDocument resourceMap doc = resourceMap)
  /\ (forall w filePath data before after resourceMap,
        ReadFile w filePath = Some data ->
        Split data "
---" = before ++ doc :: after ->
        processMustGatherFile w filePath resourceMap
        = (None, foldl processDocument resourceMap (before ++ after))).
Proof.
  intros E Hm.
  assert (Hdrop : forall resourceMap, processDocument resourceMap doc = resourceMap)
    by (intros resourceMap; now apply (processDocument_untyped doc resource)).
  split; [exact Hdrop|].
  intros w filePath data before after resourceMap Hread Hsplit.
  rewrite (processMustGatherFile_read _ _ _ _ Hread), Hsplit.
  now rewrite foldl_ineffective.
Qed.

(** C10.  A document whose text, once trimmed, begins with ['#'] leaves the
    resource map as it is, whatever the YAML library would read in it; and
    a file that has it among its documents gives the map its other
    documents give. *)
Theorem document_opened_by_comment_is_dropped (doc : string) :
  HasPrefix (TrimSpace doc) "#" = true ->
  (forall resourceMap, processDocument resourceMap doc = resourceMap)
  /\ (forall w filePath data before after resourceMap,
        ReadFile w filePath = Some data ->
        Split data "
---" = before ++ doc :: after ->
        processMustGatherFile w filePath resourceMap
        = (None, foldl processDocument resourceMap (before ++ after))).
Proof.
  intros E.
  assert (Hdrop : forall resourceMap, processDocument resourceMap doc = resourceMap)
    by (intros resourceMap; now apply processDocument_comment).
  split; [exact Hdrop|].
  intros w filePath data before after resourceMap Hread Hsplit.
  rewrite (processMustGatherFile_read _ _ _ _ Hread), Hsplit.
  now rewrite foldl_ineffective.
Qed.



End IngestionFacts.

(** The three ingestion theorems on the sample files, with the sample YAML
  library. *)
Section IngestionSamples.
Import MustGather Examples.

(** C8 at [/mg/dropped.yaml], whose first document has no [kind]. *)
Lemma document_without_kind_is_dropped_witness :
  nameless !! "kind" = None
  /\ (forall resourceMap,
        processDocument resourceMap namelessText = resourceMap)
  /\ processMustGatherFile bundleWorld "/mg/dropped.yaml" ∅
     = (None, foldl processDocument ∅ ([] ++ ["
" +:+ commentedText +:+ "
"])).
Proof.
  assert (Hparse : Unmarshal (TrimSpace namelessText) = Some nameless)
    by (vm_compute; reflexivity).
  assert (Hkind : nameless !! "kind" = None) by (vm_compute; reflexivity).
  destruct (@document_without_kind_is_dropped sampleYaml namelessText nameless
              Hparse (or_introl Hkind)) as [Hdoc Hfile].
  split; [exact Hkind | split; [exact Hdoc|]].
  apply (Hfile bundleWorld "/mg/dropped.yaml" droppedText); vm_compute; reflexivity.
Defined.

(** C10 at [/mg/dropped.yaml], whose second document opens with a comment
    line and goes on with a pod that the YAML library can read. *)
Lemma document_opened_by_comment_is_dropped_witness :
  let doc := "
" +:+ commentedText +:+ "
" in
  Unmarshal (TrimSpace doc) = Some podA
  /\ typed "v1" "Pod" podA
  /\ (forall resourceMap, processDocument resourceMap doc = resourceMap)
  /\ processMustGatherFile bundleWorld "/mg/dropped.yaml" ∅
     = (None, foldl processDocument ∅ ([namelessText] ++ [])).
Proof.
  intros doc.
  assert (Hcomment : HasPrefix (TrimSpace doc) "#" = true)
    by (vm_compute; reflexivity).
  destruct (@document_opened_by_comment_is_dropped sampleYaml doc Hcomment)
    as [Hdoc Hfile].
  split; [vm_compute; reflexivity|].
  split; [split; vm_compute; reflexivity|].
  split; [exact Hdoc|].
  apply (Hfile bundleWorld "/mg/dropped.yaml" droppedText); vm_compute; reflexivity.
Defined.



End IngestionSamples.

(** ** The single file and its markers *)

Section TrimFacts.
Import MustGather.

Ltac ascii_bounds H :=
  unfold graphic in H; apply andb_true_iff in H as [?Hlo ?Hhi];
  apply Nat.leb_le in Hlo; apply Nat.leb_le in Hhi.

Ltac no_such_byte n :=
  repeat match goal with
    | |- context [Nat.eqb n ?k] =>
        replace (Nat.eqb n k) with false by (symmetry; apply Nat.eqb_neq; lia)
    | |- context [Nat.leb ?k n] =>
        replace (Nat.leb k n) with false by (symmetry; apply Nat.leb_gt; lia)
    end;
  cbn [andb orb]; rewrite ?andb_false_r; reflexivity.

Lemma graphic_not_space (c : ascii) : graphic c = true -> isSpace1 c = false.
Proof.
  intros H. ascii_bounds H. unfold isSpace1.
  replace (nat_of_ascii c <=? 13)%nat with false
    by (symmetry; apply Nat.leb_gt; lia).
  rewrite andb_false_r. simpl. apply Nat.eqb_neq. lia.
Qed.

Lemma graphic_not_first_of_two (c c2 : ascii) :
  graphic c = true -> isSpace2 c c2 = false.
Proof. intros H. ascii_bounds H. unfold isSpace2. no_such_byte (nat_of_ascii c). Qed.

Lemma graphic_not_first_of_three (c c2 c3 : ascii) :
  graphic c = true -> isSpace3 c c2 c3 = false.
Proof. intros H. ascii_bounds H. unfold isSpace3. no_such_byte (nat_of_ascii c). Qed.

Lemma graphic_not_last_of_two (c c1 : ascii) :
  graphic c = true -> isSpace2 c1 c = false.
Proof. intros H. ascii_bounds H. unfold isSpace2. no_such_byte (nat_of_ascii c). Qed.

Lemma graphic_not_last_of_three (c c1 c2 : ascii) :
  graphic c = true -> isSpace3 c1 c2 c = false.
Proof. intros H. ascii_bounds H. unfold isSpace3. no_such_byte (nat_of_ascii c). Qed.

Lemma TrimLeftSpace_graphic (c : ascii) (s : string) :
  graphic c = true -> TrimLeftSpace (String c s) = String c s.
Proof.
  intros H. cbn [TrimLeftSpace]. rewrite (graphic_not_space c H).
  destruct s as [|c2 [|c3 s]]; [reflexivity | |];
    rewrite (graphic_not_first_of_two c c2 H); [reflexivity|].
  now rewrite (graphic_not_first_of_three c c2 c3 H).
Qed.

Lemma trimRevSpace_graphic (c : ascii) (r : string) :
  graphic c = true -> trimRevSpace (String c r) = String c r.
Proof.
  intros H. cbn [trimRevSpace]. rewrite (graphic_not_space c H).
  destruct r as [|c2 [|c3 r]]; [reflexivity | |];
    rewrite (graphic_not_last_of_two c c2 H); [reflexivity|].
  now rewrite (graphic_not_last_of_three c c3 c2 H).
Qed.

Lemma graphic_not_middle_of_three (c c1 c3 : ascii) :
  graphic c = true -> isSpace3 c1 c c3 = false.
Proof. intros H. ascii_bounds H. unfold isSpace3. no_such_byte (nat_of_ascii c). Qed.

(** Trimming from the end stops at a graphic character at the latest. *)
Lemma trimRevSpace_stops (c : ascii) (b : string) :
  graphic c = true ->
  forall (n : nat) (a : string),
    (String.length a <= n)%nat ->
    exists a', trimRevSpace (a +:+ String c b) = a' +:+ String c b.
Proof.
  intros Hc.
  assert (Hstop : exists a', trimRevSpace (String c b) = a' +:+ String c b)
    by (exists EmptyString; now apply trimRevSpace_graphic).
  induction n as [|n IH]; intros a Hlen.
  - destruct a; [exact Hstop | simpl in Hlen; lia].
  - destruct a as [|x [|y [|z a]]]; [exact Hstop | | |];
      rewrite ?str_app_cons, ?str_app_empty_l; cbn [trimRevSpace];
      simpl in Hlen.
    + destruct (isSpace1 x); [exact Hstop|].
      rewrite (graphic_not_first_of_two c x Hc).
      destruct b as [|c3 b].
      * now exists (String x EmptyString).
      * rewrite (graphic_not_middle_of_three c c3 x Hc).
        now exists (String x EmptyString).
    + destruct (isSpace1 x).
      { apply (IH (String y EmptyString)). simpl. lia. }
      destruct (isSpace2 y x); [exact Hstop|].
      rewrite (graphic_not_first_of_three c y x Hc).
      now exists (String x (String y EmptyString)).
    + destruct (isSpace1 x).
      { apply (IH (String y (String z a))). simpl. lia. }
      destruct (isSpace2 y x).
      { apply (IH (String z a)). simpl. lia. }
      destruct (isSpace3 z y x).
      { apply (IH a). lia. }
      now exists (String x (String y (String z a))).
Qed.

Lemma HasPrefix_app_self (prefix rest : string) :
  HasPrefix (prefix +:+ rest) prefix = true.
Proof.
  induction prefix as [|c prefix IH]; [reflexivity|].
  rewrite str_app_cons. cbn [HasPrefix]. now rewrite Ascii.eqb_refl, IH.
Qed.

(** Trimming at the end keeps a prefix whose last character is graphic. *)
Lemma TrimRightSpace_keeps (before : string) (c : ascii) (after : string) :
  graphic c = true ->
  HasPrefix (TrimRightSpace ((before +:+ String c EmptyString) +:+ after))
            (before +:+ String c EmptyString) = true.
Proof.
  intros Hc. unfold TrimRightSpace.
  rewrite str_rev_app, str_rev_app. change (String.rev (String c EmptyString))
    with (String c EmptyString).
  rewrite str_app_cons, str_app_empty_l.
  destruct (trimRevSpace_stops c (String.rev before) Hc _ (String.rev after)
              (Nat.le_refl _)) as [a' ->].
  rewrite str_rev_app, rev_cons, rev_involutive.
  apply HasPrefix_app_self.
Qed.

End TrimFacts.

Section MarkerFacts.
Import MustGather Diff.

Local Abbreviation newline := (String "010" EmptyString).
Local Abbreviation marker := "--- # Resource: ".

Lemma splitFrom_newline (a b : string) :
  splitFrom newline O (a +:+ String "010" b)
  = (fst (splitFrom newline O a), snd (splitFrom newline O a) ++ Split b newline).
Proof.
  induction a as [|c a IH].
  - reflexivity.
  - rewrite str_app_cons. cbn [splitFrom HasPrefix String.length Nat.sub].
    rewrite andb_true_r. destruct (Ascii.eqb c "010"); rewrite IH; reflexivity.
Qed.

Lemma Split_newline (a b : string) :
  Split (a +:+ String "010" b) newline = Split a newline ++ Split b newline.
Proof. unfold Split at 1 2. now rewrite splitFrom_newline. Qed.

Lemma splitFrom_one_line (s : string) :
  Contains s newline = false -> splitFrom newline O s = (s, []).
Proof.
  induction s as [|c s IH]; intros Hs; [reflexivity|].
  cbn [Contains HasPrefix] in Hs. rewrite andb_true_r in Hs.
  apply orb_false_iff in Hs as [Hc Hs].
  cbn [splitFrom HasPrefix]. rewrite Hc, (IH Hs). reflexivity.
Qed.

Lemma Split_marker (key : string) :
  Contains key newline = false -> Split (marker +:+ key) newline = [marker +:+ key].
Proof.
  intros Hkey. unfold Split.
  change (splitFrom newline O (marker +:+ key))
    with (marker +:+ fst (splitFrom newline O key), snd (splitFrom newline O key)).
  now rewrite (splitFrom_one_line key Hkey).
Qed.

Lemma scanLine_app (resources : list string) (line : string) :
  scanLine resources line = resources ++ scanLine [] line.
Proof.
  unfold scanLine. destruct (HasPrefix _ _); [|now rewrite app_nil_r].
  destruct (SplitN2 line ":") as [|? [|? [|? ?]]]; now rewrite ?app_nil_r.
Qed.

Lemma foldl_scanLine (lines : list string) (resources : list string) :
  foldl scanLine resources lines = resources ++ foldl scanLine [] lines.
Proof.
  revert resources. induction lines as [|line lines IH]; intros resources; simpl.
  - now rewrite app_nil_r.
  - rewrite IH, (IH (scanLine [] line)), scanLine_app, <- app_assoc. reflexivity.
Qed.

Lemma parseResources_newline (a b : string) :
  parseResources (a +:+ String "010" b) = parseResources a ++ parseResources b.
Proof.
  unfold parseResources. rewrite Split_newline, foldl_app. apply foldl_scanLine.
Qed.

(** The line of a marker gives the key, trimmed. *)
Lemma scanLine_marker (key : string) :
  scanLine [] (marker +:+ key) = [TrimSpace key].
Proof.
  unfold scanLine.
  replace (HasPrefix (TrimSpace (marker +:+ key)) "--- # Resource:") with true.
  - reflexivity.
  - symmetry. unfold TrimSpace.
    change (marker +:+ key) with (String "-" ("-- # Resource: " +:+ key)).
    rewrite TrimLeftSpace_graphic by reflexivity.
    exact (TrimRightSpace_keeps "--- # Resource" ":" (" " +:+ key) eq_refl).
Qed.

Lemma parseResources_marker (key : string) :
  Contains key newline = false ->
  parseResources (marker +:+ key) = [TrimSpace key].
Proof.
  intros Hkey. unfold parseResources. rewrite (Split_marker key Hkey).
  apply scanLine_marker.
Qed.

Lemma foldl_scanLine_markerFree (lines : list string) :
  forallb (fun line => negb (HasPrefix (TrimSpace line) "--- # Resource:")) lines
  = true ->
  foldl scanLine [] lines = [].
Proof.
  induction lines as [|line lines IH]; intros Hfree; [reflexivity|].
  cbn [forallb] in Hfree. apply andb_true_iff in Hfree as [Hline Hfree].
  apply negb_true_iff in Hline. cbn [foldl].
  replace (scanLine [] line) with (@nil string)
    by (unfold scanLine; now rewrite Hline).
  now apply IH.
Qed.

Lemma parseResources_markerFree (text : string) :
  markerFree text = true -> parseResources text = [].
Proof. apply foldl_scanLine_markerFree. Qed.

Lemma parseResources_empty : parseResources EmptyString = [].
Proof. reflexivity. Qed.

End MarkerFacts.

Section RoundTripFacts.
Import MustGather Diff.
Context `{Yaml}.

Local Abbreviation marker := "--- # Resource: ".

Lemma complete_empty : complete EmptyString [].
Proof. intros rest. reflexivity. Qed.

Lemma complete_line (text : string) (names : list string) (key rest : string) :
  complete text names -> Contains key "
" = false ->
  parseResources (text +:+ ((marker +:+ key) +:+ String "010" rest))
  = (names ++ [TrimSpace key]) ++ parseResources rest.
Proof.
  intros Htext Hkey.
  rewrite Htext, parseResources_newline, (parseResources_marker key Hkey).
  now rewrite <- app_assoc.
Qed.

Lemma renderSection_complete (resourceMap : gmap string (list value))
    (out : string) (names : list string) (key : string) :
  complete out names -> Contains key "
" = false ->
  (forall yamlData,
      Marshal (listOf (default [] (resourceMap !! key))) = Some yamlData ->
      markerFree yamlData = true) ->
  complete (renderSection resourceMap out key)
           (names ++ if hasItems resourceMap key then [TrimSpace key] else []).
Proof.
  intros Hout Hkey Hfree rest. unfold renderSection, hasItems.
  destruct (length (default [] (resourceMap !! key)) =? 0)%nat; cbn [negb].
  - now rewrite app_nil_r.
  - destruct (Marshal _) as [yamlData|] eqn:Em.
    + replace ((((out +:+ marker +:+ key +:+ "
") +:+ yamlData) +:+ "
") +:+ rest)
        with (out +:+ ((marker +:+ key) +:+ String "010"
                         (yamlData +:+ String "010" rest)))
        by (rewrite !str_app_assoc; reflexivity).
      rewrite (complete_line _ _ _ _ Hout Hkey), parseResources_newline.
      now rewrite (parseResources_markerFree _ (Hfree _ eq_refl)).
    + replace ((out +:+ marker +:+ key +:+ "
") +:+ rest)
        with (out +:+ ((marker +:+ key) +:+ String "010" rest))
        by (rewrite !str_app_assoc; reflexivity).
      exact (complete_line _ _ _ _ Hout Hkey).
Qed.

(** The names read back from the single file are the keys that have items,
    trimmed, in the order of the loop. *)
Lemma renderSingleFile_complete (resourceMap : gmap string (list value))
    (keys : list string) (out : string) (names : list string) :
  complete out names ->
  (forall key, key ∈ keys -> Contains key "
" = false) ->
  (forall key yamlData,
      key ∈ keys ->
      Marshal (listOf (default [] (resourceMap !! key))) = Some yamlData ->
      markerFree yamlData = true) ->
  complete (foldl (renderSection resourceMap) out keys)
           (names ++ (TrimSpace <$> List.filter (hasItems resourceMap) keys)).
Proof.
  intros Hout Hkeys Hfree. revert out names Hout.
  induction keys as [|key keys IH]; intros out names Hout; cbn [foldl List.filter].
  - now rewrite app_nil_r.
  - assert (Hkey : Contains key "
" = false) by (apply Hkeys; now left).
    pose proof (renderSection_complete resourceMap out names key Hout Hkey
                  (fun yamlData => Hfree key yamlData (list_elem_of_here _ _)))
      as Hstep.
    apply IH in Hstep;
      [| intros k Hk; apply Hkeys; now right
       | intros k y Hk; apply Hfree; now right].
    destruct (hasItems resourceMap key); [| now rewrite app_nil_r in Hstep].
    now rewrite <- app_assoc in Hstep.
Qed.

Lemma cleanKey_spec (key : string) :
  cleanKey key = true <-> Contains key "
" = false /\ TrimSpace key = key.
Proof.
  unfold cleanKey. now rewrite andb_true_iff, negb_true_iff, String.eqb_eq.
Qed.

Lemma fmap_TrimSpace_clean (keys : list string) :
  (forall key, key ∈ keys -> cleanKey key = true) -> TrimSpace <$> keys = keys.
Proof.
  induction keys as [|key keys IH]; intros Hkeys; [reflexivity|].
  rewrite fmap_cons, IH by (intros k Hk; apply Hkeys; now right).
  f_equal. apply cleanKey_spec, Hkeys. now left.
Qed.

Lemma rangeOrder_NoDup (resourceMap : gmap string (list value)) (keys : list string) :
  rangeOrder resourceMap keys -> NoDup keys.
Proof.
  unfold rangeOrder. intros ->. apply NoDup_fst_map_to_list.
Qed.

Lemma rangeOrder_elem_of (resourceMap : gmap string (list value))
    (keys : list string) (key : string) :
  rangeOrder resourceMap keys -> key ∈ keys <-> is_Some (resourceMap !! key).
Proof.
  unfold rangeOrder. intros ->. rewrite list_elem_of_fmap. split.
  - intros [[k items] [-> Hin]]. apply elem_of_map_to_list in Hin. now exists items.
  - intros [items Hin]. exists (key, items). split; [reflexivity|].
    now apply elem_of_map_to_list.
Qed.

Lemma hasItems_spec (resourceMap : gmap string (list value)) (key : string) :
  hasItems resourceMap key = true
  <-> exists items, resourceMap !! key = Some items /\ items <> [].
Proof.
  unfold hasItems. rewrite negb_true_iff, Nat.eqb_neq.
  destruct (resourceMap !! key) as [items|]; simpl.
  - split.
    + intros Hlen. exists items. split; [reflexivity|]. now intros ->.
    + intros (items' & [= <-] & Hne). now destruct items.
  - split; [congruence | intros (items & [=] & _)].
Qed.

(** C2, as the program has it.  Take an inventory whose keys have no line
    feed in them and no white space around them, a YAML library that writes
    for its lists no line beginning with the marker, and the keys in an
    order in which the [range] loop can yield them.  Then [parseResources]
    reads back from the single file the keys that have at least one item, in
    the order in which the loop went through them: each of them once, and no
    other name. *)
Theorem markers_read_back_in_range_order
    (resourceMap : gmap string (list value)) (keys : list string) :
  rangeOrder resourceMap keys ->
  (forall key, key ∈ keys -> cleanKey key = true) ->
  (forall key yamlData,
      key ∈ keys ->
      Marshal (listOf (default [] (resourceMap !! key))) = Some yamlData ->
      markerFree yamlData = true) ->
  parseResources (renderSingleFile keys resourceMap)
  = List.filter (hasItems resourceMap) keys
  /\ NoDup (parseResources (renderSingleFile keys resourceMap))
  /\ (forall key,
        key ∈ parseResources (renderSingleFile keys resourceMap)
        <-> exists items, resourceMap !! key = Some items /\ items <> []).
Proof.
  intros Horder Hkeys Hfree.
  assert (E : parseResources (renderSingleFile keys resourceMap)
              = List.filter (hasItems resourceMap) keys).
  { pose proof (renderSingleFile_complete resourceMap keys EmptyString []
                  complete_empty
                  (fun key Hkey => proj1 (proj1 (cleanKey_spec key) (Hkeys key Hkey)))
                  Hfree EmptyString) as Hc.
    rewrite str_app_empty_r in Hc. unfold renderSingleFile. rewrite Hc.
    cbn [app]. rewrite parseResources_empty, app_nil_r.
    apply fmap_TrimSpace_clean. intros key Hkey. apply Hkeys.
    apply list_elem_of_In in Hkey. apply filter_In in Hkey as [Hkey _].
    now apply list_elem_of_In. }
  rewrite E. split; [reflexivity | split].
  - apply NoDup_ListNoDup, List.NoDup_filter, NoDup_ListNoDup.
    now apply (rangeOrder_NoDup resourceMap).
  - intros key. rewrite list_elem_of_In, filter_In, <- list_elem_of_In.
    rewrite hasItems_spec, (rangeOrder_elem_of resourceMap keys key Horder).
    split; [tauto|]. intros (items & E1 & E2). split; [now exists items|].
    now exists items.
Qed.

(** The single file begins with the section of the key the loop yields
    first, and differs for the two orders of two keys, whatever the YAML
    library writes. *)
Lemma renderSingleFile_follows_order :
  HasPrefix (renderSingleFile ["v1-services"; "v1-pods"] Examples.inventory)
            "--- # Resource: v1-services" = true
  /\ HasPrefix (renderSingleFile ["v1-pods"; "v1-services"] Examples.inventory)
               "--- # Resource: v1-pods" = true
  /\ renderSingleFile ["v1-services"; "v1-pods"] Examples.inventory
     <> renderSingleFile ["v1-pods"; "v1-services"] Examples.inventory.
Proof.
  assert (H1 : HasPrefix (renderSingleFile ["v1-services"; "v1-pods"] Examples.inventory)
                 "--- # Resource: v1-services" = true).
  { unfold renderSingleFile. cbn [foldl]. unfold renderSection at 2.
    change (default [] (Examples.inventory !! "v1-services"))
      with [VMap Examples.service].
    cbn [length Nat.eqb].
    destruct (Marshal _); unfold renderSection;
      destruct (_ =? _)%nat; try destruct (Marshal _); reflexivity. }
  assert (H2 : HasPrefix (renderSingleFile ["v1-pods"; "v1-services"] Examples.inventory)
                 "--- # Resource: v1-pods" = true).
  { unfold renderSingleFile. cbn [foldl]. unfold renderSection at 2.
    change (default [] (Examples.inventory !! "v1-pods"))
      with [VMap Examples.podA].
    cbn [length Nat.eqb].
    destruct (Marshal _); unfold renderSection;
      destruct (_ =? _)%nat; try destruct (Marshal _); reflexivity. }
  split; [exact H1 | split; [exact H2|]].
  apply HasPrefix_app in H1 as [r1 E1]. apply HasPrefix_app in H2 as [r2 E2].
  rewrite E1, E2. cbv [String.append]. discriminate.
Qed.

End RoundTripFacts.

(** The single file of the sample bundle and of the sample inventories. *)
Section SingleFileSamples.
Import MustGather Diff Examples.

Ltac range_order :=
  unfold rangeOrder; vm_compute;
  first [ reflexivity | apply perm_swap ].

(** C1 on the sample bundle.  The bundle gives an inventory with the keys
    [v1-pods] and [v1-services].  A run in which the [range] loop yields
    them in this order and a run in which it yields them in the other
    order write different files: the sections are in the order of the
    loop, which in the second run is not the sorted order. *)
Theorem single_file_sections_follow_range_order :
  let resourceMap := @ingest sampleYaml sampleHost bundleWorld "/mg" in
  let first := fun _ : gmap string (list value) => ["v1-pods"; "v1-services"] in
  let second := fun _ : gmap string (list value) => ["v1-services"; "v1-pods"] in
  let written order :=
    files (snd (@processMustGatherToSingleFile sampleYaml sampleHost order
                  "/mg" "/out/all.yaml" bundleWorld)) !! "/out/all.yaml" in
  rangeOrder resourceMap (first resourceMap)
  /\ rangeOrder resourceMap (second resourceMap)
  /\ String.ltb "v1-pods" "v1-services" = true
  /\ exists text1 text2,
      written first = Some text1 /\ written second = Some text2
      /\ text1 <> text2
      /\ parseResources text1 = ["v1-pods"; "v1-services"]
      /\ parseResources text2 = ["v1-services"; "v1-pods"].
Proof.
  cbv zeta. split; [range_order | split; [range_order | split; [reflexivity|]]].
  eexists _, _. split; [vm_compute; reflexivity|].
  split; [vm_compute; reflexivity|].
  split; [discriminate|]. split; vm_compute; reflexivity.
Qed.

(** C2 on the sample inventory, its keys in the order that is not sorted. *)
Lemma markers_read_back_in_range_order_witness :
  parseResources (@renderSingleFile sampleYaml ["v1-services"; "v1-pods"] inventory)
  = List.filter (hasItems inventory) ["v1-services"; "v1-pods"].
Proof.
  apply (@markers_read_back_in_range_order sampleYaml inventory
           ["v1-services"; "v1-pods"]).
  - range_order.
  - intros key Hkey. apply elem_of_cons in Hkey as [-> | Hkey]; [reflexivity|].
    apply elem_of_cons in Hkey as [-> | Hkey]; [reflexivity|].
    now apply elem_of_nil in Hkey.
  - intros key yamlData _ [= <-]. vm_compute. reflexivity.
Defined.

(** C2, as the spec has it, fails on an inventory with one key, for which
    there is one order: the key begins with a space, and the name that
    [parseResources] reads back does not. *)
Lemma spaced_key_is_not_read_back :
  (map_to_list spacedInventory).*1 = [" v1-pods"]
  /\ rangeOrder spacedInventory [" v1-pods"]
  /\ parseResources (@renderSingleFile sampleYaml [" v1-pods"] spacedInventory)
     = ["v1-pods"]
  /\ parseResources (@renderSingleFile sampleYaml [" v1-pods"] spacedInventory)
     <> (map_to_list spacedInventory).*1.
Proof.
  split; [vm_compute; reflexivity|].
  split; [range_order|].
  split; [vm_compute; reflexivity|].
  vm_compute. discriminate.
Qed.

(** A line of a string that the YAML library writes as a block is read as
    a marker. *)
Lemma block_line_is_read_as_marker :
  parseResources (@renderSingleFile blockYaml ["v1-configmaps"] notedInventory)
  = ["v1-configmaps"; "ghosts"].
Proof. vm_compute. reflexivity. Qed.

End SingleFileSamples.

(** ** Collection from a live cluster *)

Section CounterFacts.
Import Collector.

Lemma wrap64_small (z : Z) : - 2 ^ 63 <= z < 2 ^ 63 -> wrap64 z = z.
Proof.
  unfold wrap64. change (2 ^ 63) with 9223372036854775808.
  change (2 ^ 64) with 18446744073709551616.
  intros Hz. rewrite Z.mod_small by lia. lia.
Qed.

Lemma foldl_invariant {A B} (P : A -> Prop) (f : A -> B -> A) :
  (forall a b, P a -> P (f a b)) ->
  forall l a, P a -> P (foldl f a l).
Proof.
  intros Hf l. induction l as [|b l IH]; intros a Ha; simpl; [exact Ha|].
  apply IH, Hf, Ha.
Qed.

End CounterFacts.

Section CollectorFacts.
Import Collector Shape Outcome.
Context `{Yaml} `{Cluster} `{Host}.

(** Without a cluster version no step adds to [skippedCount]. *)
Lemma visitToBuffer_unversioned skip groupVersion st resource :
  skippedCount (fst st) = 0 ->
  skippedCount (fst (visitToBuffer skip None groupVersion st resource)) = 0.
Proof.
  intros Hst. unfold visitToBuffer. destruct st as [c buffer].
  destruct (collectable resource); simpl; [|exact Hst].
  destruct (collectResourceToBuffer resource groupVersion buffer) as [[e|] b];
    exact Hst.
Qed.

Lemma visitToDirectory_unversioned skip outputDir groupVersion st resource :
  skippedCount (fst st) = 0 ->
  skippedCount
    (fst (visitToDirectory skip None outputDir groupVersion st resource)) = 0.
Proof.
  intros Hst. unfold visitToDirectory. destruct st as [c w].
  destruct (collectable resource); simpl; [|exact Hst].
  destruct (collectResource resource groupVersion outputDir w) as [[e|] w'];
    exact Hst.
Qed.

Lemma collectResourcesWith_unversioned skip skip' e outputDir w :
  detectClusterVersion = inl e ->
  collectResourcesWith skip outputDir w = collectResourcesWith skip' outputDir w.
Proof.
  intros Hd. unfold collectResourcesWith. rewrite Hd. reflexivity.
Qed.

Lemma collectAllResourcesToSingleFileWith_unversioned skip skip' e outputFile w :
  detectClusterVersion = inl e ->
  collectAllResourcesToSingleFileWith skip outputFile w
  = collectAllResourcesToSingleFileWith skip' outputFile w.
Proof.
  intros Hd. unfold collectAllResourcesToSingleFileWith. rewrite Hd. reflexivity.
Qed.

(** The two loops go through the resources of [discovered]. *)
Lemma foldl_discovered {T : Type} (f : string -> T -> APIResource.t -> T)
    (resources : list APIResourceList.t) (st : T) :
  foldl (fun st resourceList =>
           foldl (f (APIResourceList.GroupVersion resourceList)) st
                 (APIResourceList.APIResources resourceList))
        st resources
  = foldl (fun st p => f (fst p) st (snd p)) st (discovered resources).
Proof.
  revert st. induction resources as [|resourceList l IH]; intros st; [reflexivity|].
  cbn [foldl discovered flat_map]. rewrite foldl_app. fold (discovered l).
  rewrite <- IH. f_equal.
  generalize (APIResourceList.GroupVersion resourceList) as groupVersion.
  intros groupVersion. revert st.
  induction (APIResourceList.APIResources resourceList) as [|r rs IHr];
    intros st; [reflexivity|].
  cbn [map foldl fst snd]. apply IHr.
Qed.

(** The counters of a loop whose step adds one to the counter of what
    becomes of the resource. *)
Section Tally.
Context {T : Type}.
Variable step : Summary * T -> string * APIResource.t -> Summary * T.
Variables good bad passed : string * APIResource.t -> bool.
Hypothesis step_tally :
  forall c t p,
    fst (step (c, t) p)
    = if passed p then skipped c
      else if good p then collected c
      else if bad p then errored c
      else c.
Hypothesis passed_only :
  forall p, passed p = true -> good p = false /\ bad p = false.
Hypothesis good_only : forall p, good p = true -> bad p = false.

Lemma tally_fold (pairs : list (string * APIResource.t)) (a b s : nat) (t : T) :
  Z.of_nat (a + b + s + length pairs) < 2 ^ 63 ->
  fst (foldl step (mkSummary (Z.of_nat a) (Z.of_nat b) (Z.of_nat s), t) pairs)
  = mkSummary (Z.of_nat (a + length (List.filter good pairs)))
              (Z.of_nat (b + length (List.filter bad pairs)))
              (Z.of_nat (s + length (List.filter passed pairs))).
Proof.
  revert a b s t. induction pairs as [|p pairs IH]; intros a b s t Hn.
  - cbn [foldl List.filter length fst]. now rewrite !Nat.add_0_r.
  - cbn [foldl List.filter length] in *.
    pose proof (step_tally (mkSummary (Z.of_nat a) (Z.of_nat b) (Z.of_nat s)) t p)
      as Hstep.
    destruct (step (mkSummary (Z.of_nat a) (Z.of_nat b) (Z.of_nat s), t) p)
      as [c' t'].
    cbn [fst] in Hstep. subst c'.
    assert (Hw : forall n : nat, (n <= a + b + s)%nat ->
                            wrap64 (Z.of_nat n + 1) = Z.of_nat (S n)).
    { intros n Hle. rewrite wrap64_small; [lia|].
      change (2 ^ 63) with 9223372036854775808 in *. lia. }
    destruct (passed p) eqn:Ep.
    + destruct (passed_only p Ep) as [-> ->].
      unfold skipped. cbn [collectedCount errorCount skippedCount].
      rewrite Hw by lia. rewrite IH by lia. cbn [length]. f_equal; f_equal; lia.
    + destruct (good p) eqn:Eg.
      * rewrite (good_only p Eg).
        unfold collected. cbn [collectedCount errorCount skippedCount].
        rewrite Hw by lia. rewrite IH by lia. cbn [length]. f_equal; f_equal; lia.
      * destruct (bad p) eqn:Eb.
        -- unfold errored. cbn [collectedCount errorCount skippedCount].
           rewrite Hw by lia. rewrite IH by lia. cbn [length].
           f_equal; f_equal; lia.
        -- rewrite IH by lia. reflexivity.
Qed.

End Tally.

Lemma bufferStep_tally skip clusterVersion (c : Summary) (buffer : string)
    (p : string * APIResource.t) :
  fst (bufferStep skip clusterVersion (c, buffer) p)
  = if skippedAt skip clusterVersion p then skipped c
    else if fetchedAt skip clusterVersion p then collected c
    else if failedAt skip clusterVersion p then errored c
    else c.
Proof.
  unfold bufferStep, visitToBuffer, skippedAt, fetchedAt, failedAt, fetchable,
    collectResourceToBuffer.
  destruct (collectable (snd p)); cbn [negb andb];
    [| now destruct (skipDecision skip clusterVersion (snd p) (fst p))].
  destruct (skipDecision skip clusterVersion (snd p) (fst p)); cbn [negb andb];
    [reflexivity|].
  now destruct (fetchYaml (snd p) (fst p)).
Qed.

Lemma directoryStep_tally skip clusterVersion (outputDir : string)
    (c : Summary) (w : World) (p : string * APIResource.t) :
  fst (directoryStep skip clusterVersion outputDir (c, w) p)
  = if skippedAt skip clusterVersion p then skipped c
    else if storedAt skip clusterVersion outputDir p then collected c
    else if unstoredAt skip clusterVersion outputDir p then errored c
    else c.
Proof.
  unfold directoryStep, visitToDirectory, skippedAt, storedAt, unstoredAt,
    storable, fetchable, pathOf, collectResource, formatHeader, Now, WriteFile.
  destruct (collectable (snd p)); cbn [negb andb];
    [| now destruct (skipDecision skip clusterVersion (snd p) (fst p))].
  destruct (skipDecision skip clusterVersion (snd p) (fst p)); cbn [negb andb];
    [reflexivity|].
  destruct (fetchYaml (snd p) (fst p)); cbn [negb andb]; [reflexivity|].
  now destruct (Writable _).
Qed.

Lemma verdicts_exclude skip clusterVersion (outputDir : string)
    (p : string * APIResource.t) :
  (skippedAt skip clusterVersion p = true ->
   fetchedAt skip clusterVersion p = false
   /\ failedAt skip clusterVersion p = false
   /\ storedAt skip clusterVersion outputDir p = false
   /\ unstoredAt skip clusterVersion outputDir p = false)
  /\ (fetchedAt skip clusterVersion p = true ->
      failedAt skip clusterVersion p = false)
  /\ (storedAt skip clusterVersion outputDir p = true ->
      unstoredAt skip clusterVersion outputDir p = false).
Proof.
  unfold skippedAt, fetchedAt, failedAt, storedAt, unstoredAt.
  destruct (collectable (snd p)),
           (skipDecision skip clusterVersion (snd p) (fst p)),
           (fetchable p), (storable outputDir p); cbn; intuition congruence.
Qed.

(** The counters of the two loops: each resource adds to the counter of
    what becomes of it, and to no other. *)
Lemma buffer_tally skip clusterVersion (pairs : list (string * APIResource.t))
    (buffer : string) :
  Z.of_nat (length pairs) < 2 ^ 63 ->
  fst (foldl (bufferStep skip clusterVersion) (noneYet, buffer) pairs)
  = mkSummary (countOf (fetchedAt skip clusterVersion) pairs)
              (countOf (failedAt skip clusterVersion) pairs)
              (countOf (skippedAt skip clusterVersion) pairs).
Proof.
  intros Hn.
  apply (tally_fold (bufferStep skip clusterVersion)
           (fetchedAt skip clusterVersion) (failedAt skip clusterVersion)
           (skippedAt skip clusterVersion)
           (bufferStep_tally skip clusterVersion)
           (fun p Hp =>
              let H' := proj1 (verdicts_exclude skip clusterVersion EmptyString p) Hp
              in conj (proj1 H') (proj1 (proj2 H')))
           (fun p => proj1 (proj2 (verdicts_exclude skip clusterVersion EmptyString p)))
           pairs 0 0 0 buffer).
  exact Hn.
Qed.

Lemma directory_tally skip clusterVersion (outputDir : string)
    (pairs : list (string * APIResource.t)) (w : World) :
  Z.of_nat (length pairs) < 2 ^ 63 ->
  fst (foldl (directoryStep skip clusterVersion outputDir) (noneYet, w) pairs)
  = mkSummary (countOf (storedAt skip clusterVersion outputDir) pairs)
              (countOf (unstoredAt skip clusterVersion outputDir) pairs)
              (countOf (skippedAt skip clusterVersion) pairs).
Proof.
  intros Hn.
  apply (tally_fold (directoryStep skip clusterVersion outputDir)
           (storedAt skip clusterVersion outputDir)
           (unstoredAt skip clusterVersion outputDir)
           (skippedAt skip clusterVersion)
           (directoryStep_tally skip clusterVersion outputDir)
           (fun p Hp =>
              let H' := proj1 (verdicts_exclude skip clusterVersion outputDir p) Hp
              in conj (proj1 (proj2 (proj2 H'))) (proj2 (proj2 (proj2 H'))))
           (fun p => proj2 (proj2 (verdicts_exclude skip clusterVersion outputDir p)))
           pairs 0 0 0 w).
  exact Hn.
Qed.

(** The buffer after the loop: the sections of the resources that were
    fetched, whatever failed before them. *)
Lemma bufferStep_text skip clusterVersion (st : Summary * string)
    (p : string * APIResource.t) :
  snd (bufferStep skip clusterVersion st p)
  = snd st +:+ (if fetchedAt skip clusterVersion p then sectionOf p
                else EmptyString).
Proof.
  destruct st as [c buffer].
  unfold bufferStep, visitToBuffer, fetchedAt, fetchable, sectionOf,
    collectResourceToBuffer.
  destruct (collectable (snd p)); cbn [negb andb snd];
    [| destruct (skipDecision skip clusterVersion (snd p) (fst p));
       cbn [negb andb]; now rewrite str_app_empty_r].
  destruct (skipDecision skip clusterVersion (snd p) (fst p)); cbn [negb andb snd];
    [now rewrite str_app_empty_r|].
  destruct (fetchYaml (snd p) (fst p)); cbn [snd];
    [now rewrite str_app_empty_r|].
  now rewrite !str_app_assoc.
Qed.

Lemma buffer_text skip clusterVersion (pairs : list (string * APIResource.t))
    (st : Summary * string) :
  snd (foldl (bufferStep skip clusterVersion) st pairs)
  = snd st +:+ sections (fetchedAt skip clusterVersion) pairs.
Proof.
  revert st. induction pairs as [|p pairs IH]; intros st.
  - cbn [foldl sections foldr]. now rewrite str_app_empty_r.
  - cbn [foldl sections foldr]. rewrite IH, bufferStep_text.
    fold (sections (fetchedAt skip clusterVersion) pairs).
    destruct (fetchedAt skip clusterVersion p).
    + now rewrite str_app_assoc.
    + now rewrite str_app_empty_r.
Qed.

(** The files after the loop: every resource that was stored has its file,
    whatever failed before it or after it. *)
Lemma directoryStep_filed skip clusterVersion (outputDir : string)
    (visited : list (string * APIResource.t)) (st : Summary * World)
    (p : string * APIResource.t) :
  filed (storedAt skip clusterVersion outputDir) outputDir visited (snd st) ->
  filed (storedAt skip clusterVersion outputDir) outputDir (visited ++ [p])
        (snd (directoryStep skip clusterVersion outputDir st p)).
Proof.
  destruct st as [c w]. intros Hfiled. cbn [snd] in Hfiled.
  assert (Hkeep : forall w' : World,
             (forall x, x ∈ visited ->
                        storedAt skip clusterVersion outputDir x = true ->
                        files w' !! pathOf outputDir x = files w !! pathOf outputDir x) ->
             storedAt skip clusterVersion outputDir p = false ->
             filed (storedAt skip clusterVersion outputDir) outputDir
                   (visited ++ [p]) w').
  { intros w' Hsame Hp x Hx Hstored.
    apply elem_of_app in Hx as [Hx | Hx];
      [| apply list_elem_of_singleton in Hx; congruence].
    destruct (Hfiled x Hx Hstored) as (q & n & Hq & Hsq & Hpath & Hfile).
    exists q, n. split; [apply elem_of_app; now left|].
    split; [exact Hsq | split; [exact Hpath|]].
    now rewrite Hsame. }
  unfold directoryStep, visitToDirectory.
  destruct (collectable (snd p)) eqn:Ec; cbn [negb snd];
    [| apply Hkeep; [reflexivity|];
       unfold storedAt, storable, fetchable; rewrite Ec;
       now rewrite andb_false_r].
  destruct (skipDecision skip clusterVersion (snd p) (fst p)) eqn:Es; cbn [snd];
    [apply Hkeep; [reflexivity | unfold storedAt; now rewrite Es]|].
  unfold collectResource.
  destruct (fetchYaml (snd p) (fst p)) as [e|yamlData] eqn:Ef; cbn [snd];
    [apply Hkeep; [reflexivity|];
     unfold storedAt, storable, fetchable; rewrite Ef;
     now rewrite !andb_false_r|].
  unfold formatHeader, Now, WriteFile. cbn [files clock].
  fold (pathOf outputDir p).
  destruct (Writable (pathOf outputDir p)) eqn:Ew; cbn [snd].
  - assert (Hp : storedAt skip clusterVersion outputDir p = true).
    { unfold storedAt, storable, fetchable. now rewrite Es, Ec, Ef, Ew. }
    intros x Hx Hstored. cbn [files].
    destruct (decide (pathOf outputDir p = pathOf outputDir x)) as [Epath|Npath].
    + exists p, (clock w). split; [apply elem_of_app; right; now left|].
      split; [exact Hp | split; [exact Epath|]].
      rewrite <- Epath, lookup_insert_eq. unfold fileOf, formatHeader, Now.
      now rewrite Ef.
    + apply elem_of_app in Hx as [Hx | Hx];
        [| apply list_elem_of_singleton in Hx; congruence].
      destruct (Hfiled x Hx Hstored) as (q & n & Hq & Hsq & Hpath & Hfile).
      exists q, n. split; [apply elem_of_app; now left|].
      split; [exact Hsq | split; [exact Hpath|]].
      now rewrite lookup_insert_ne.
  - apply Hkeep.
    + intros x Hx Hstored. unfold afterShortWrite.
      destruct (shortWrite _ _); cbn [files]; [|reflexivity].
      apply lookup_insert_ne. intros Epath.
      unfold storedAt, storable in Hstored. rewrite <- Epath, Ew in Hstored.
      now rewrite !andb_false_r in Hstored.
    + unfold storedAt, storable. now rewrite Ew, !andb_false_r.
Qed.

Lemma directory_filed skip clusterVersion (outputDir : string)
    (pairs visited : list (string * APIResource.t)) (st : Summary * World) :
  filed (storedAt skip clusterVersion outputDir) outputDir visited (snd st) ->
  filed (storedAt skip clusterVersion outputDir) outputDir (visited ++ pairs)
        (snd (foldl (directoryStep skip clusterVersion outputDir) st pairs)).
Proof.
  revert visited st. induction pairs as [|p pairs IH]; intros visited st Hfiled.
  - now rewrite app_nil_r.
  - cbn [foldl].
    replace (visited ++ p :: pairs) with ((visited ++ [p]) ++ pairs)
      by (now rewrite <- app_assoc).
    apply IH. now apply directoryStep_filed.
Qed.

(** The two collections in terms of [discovered]. *)
Lemma collectResourcesWith_discovered skip (resources : list APIResourceList.t)
    (outputDir : string) (w : World) :
  ServerPreferredResources = Some resources ->
  collectResourcesWith skip outputDir w
  = (inr (fst (foldl (directoryStep skip detected outputDir) (noneYet, w)
                     (discovered resources))),
     snd (foldl (directoryStep skip detected outputDir) (noneYet, w)
                (discovered resources))).
Proof.
  intros Hr. unfold collectResourcesWith. rewrite Hr. fold detected.
  rewrite (foldl_discovered (visitToDirectory skip detected outputDir)).
  fold (directoryStep skip detected outputDir).
  now destruct (foldl _ _ _).
Qed.

Lemma collectAllResourcesToSingleFileWith_discovered skip
    (resources : list APIResourceList.t) (outputFile : string) (w : World) :
  ServerPreferredResources = Some resources ->
  collectAllResourcesToSingleFileWith skip outputFile w
  = if Writable outputFile
    then (inr (fst (foldl (bufferStep skip detected) (noneYet, EmptyString)
                          (discovered resources))),
          mkWorld (<[outputFile := sections (fetchedAt skip detected)
                                     (discovered resources)]> (files w))
                  (clock w))
    else (inl (ErrWriteFile outputFile),
          afterShortWrite outputFile
            (sections (fetchedAt skip detected) (discovered resources)) w).
Proof.
  intros Hr. unfold collectAllResourcesToSingleFileWith. rewrite Hr. fold detected.
  rewrite (foldl_discovered (visitToBuffer skip detected)).
  fold (bufferStep skip detected).
  pose proof (buffer_text skip detected (discovered resources)
                (noneYet, EmptyString)) as Htext.
  destruct (foldl _ _ _) as [c buffer]. cbn [fst snd] in *.
  rewrite str_app_empty_l in Htext. subst buffer.
  unfold WriteFile. now destruct (Writable outputFile).
Qed.

Lemma afterShortWrite_elsewhere (path content other : string) (w : World) :
  other <> path ->
  files (afterShortWrite path content w) !! other = files w !! other.
Proof.
  intros Hne. unfold afterShortWrite.
  destruct (shortWrite path content); cbn [files]; [|reflexivity].
  now apply lookup_insert_ne.
Qed.

(** Without a cluster version nothing is skipped, whatever the skip
    decision is. *)
Lemma undetected_verdicts skip (outputDir : string) (p : string * APIResource.t) :
  skippedAt skip None p = false
  /\ fetchedAt skip None p = fetchable p
  /\ storedAt skip None outputDir p = storable outputDir p
  /\ failedAt skip None p = collectable (snd p) && negb (fetchable p)
  /\ unstoredAt skip None outputDir p
     = collectable (snd p) && negb (storable outputDir p).
Proof.
  unfold skippedAt, fetchedAt, storedAt, failedAt, unstoredAt, skipDecision.
  cbn [negb andb]. rewrite !andb_false_r, !andb_true_r. repeat split.
Qed.

Lemma filter_ext_bool {A} (f g : A -> bool) (l : list A) :
  (forall x, f x = g x) -> List.filter f l = List.filter g l.
Proof.
  intros Hfg. induction l as [|a l IH]; [reflexivity|].
  cbn [List.filter]. now rewrite Hfg, IH.
Qed.

Lemma sections_ext (f g : string * APIResource.t -> bool)
    (pairs : list (string * APIResource.t)) :
  (forall p, f p = g p) -> sections f pairs = sections g pairs.
Proof.
  intros Hfg. induction pairs as [|p pairs IH]; [reflexivity|].
  cbn [sections foldr]. fold (sections f pairs) (sections g pairs).
  now rewrite Hfg, IH.
Qed.

Lemma filed_ext (f g : string * APIResource.t -> bool) (outputDir : string)
    (pairs : list (string * APIResource.t)) (w : World) :
  (forall p, f p = g p) -> filed f outputDir pairs w -> filed g outputDir pairs w.
Proof.
  intros Hfg Hfiled p Hp Hg. rewrite <- Hfg in Hg.
  destruct (Hfiled p Hp Hg) as (q & n & Hq & Hsq & Hrest).
  exists q, n. rewrite <- Hfg. auto.
Qed.

(** C6.  When the cluster version cannot be detected the collection goes
    on, and the skip decision plays no part in it: both collections give
    the same result whatever the decision is, so the result of an empty rule
    set.  When discovery gave the resources, [collectResources] returns its
    summary, and [collectAllResourcesToSingleFile] does when the file can be
    written: no resource is skipped; the single file has the section of
    every collectable resource that could be fetched, in the order of
    discovery; in the directory every such resource whose file can be written
    has its file; and the other collectable resources are the errors. *)
Theorem undetected_version_skips_nothing :
  (exists e, detectClusterVersion = inl e) ->
  forall output w,
    (forall skip,
        collectResourcesWith skip output w = collectResources output w
        /\ collectAllResourcesToSingleFileWith skip output w
           = collectAllResourcesToSingleFile output w)
    /\ collectResources output w
       = collectResourcesWith (Deprecation.shouldSkipResourceWith []) output w
    /\ collectAllResourcesToSingleFile output w
       = collectAllResourcesToSingleFileWith
           (Deprecation.shouldSkipResourceWith []) output w
    /\ (forall resources,
          ServerPreferredResources = Some resources ->
          (exists c w',
              collectResources output w = (inr c, w')
              /\ skippedCount c = 0
              /\ (Z.of_nat (length (discovered resources)) < 2 ^ 63 ->
                  collectedCount c
                  = countOf (storable output) (discovered resources)
                  /\ errorCount c
                     = countOf (fun p => collectable (snd p)
                                         && negb (storable output p))
                               (discovered resources))
              /\ filed (storable output) output (discovered resources) w')
          /\ (Writable output = true ->
              exists c,
                collectAllResourcesToSingleFile output w
                = (inr c,
                   mkWorld (<[output := sections fetchable (discovered resources)]>
                              (files w))
                           (clock w))
                /\ skippedCount c = 0
                /\ (Z.of_nat (length (discovered resources)) < 2 ^ 63 ->
                    collectedCount c = countOf fetchable (discovered resources)
                    /\ errorCount c
                       = countOf (fun p => collectable (snd p)
                                           && negb (fetchable p))
                                 (discovered resources)))).
Proof.
  intros [e Hd] output w.
  assert (Hnone : detected = None) by (unfold detected; now rewrite Hd).
  split; [| split; [| split]].
  - intros skip. split.
    + apply (collectResourcesWith_unversioned _ _ e _ _ Hd).
    + apply (collectAllResourcesToSingleFileWith_unversioned _ _ e _ _ Hd).
  - apply (collectResourcesWith_unversioned _ _ e _ _ Hd).
  - apply (collectAllResourcesToSingleFileWith_unversioned _ _ e _ _ Hd).
  - intros resources Hr. set (skip := Deprecation.shouldSkipResource).
    split.
    + unfold collectResources. fold skip.
      rewrite (collectResourcesWith_discovered skip resources output w Hr), Hnone.
      eexists _, _. split; [reflexivity|]. split; [| split].
      * apply (foldl_invariant (fun st => skippedCount (fst st) = 0));
          [|reflexivity].
        intros st p. unfold directoryStep. apply visitToDirectory_unversioned.
      * intros Hn. rewrite (directory_tally skip None output _ w Hn).
        cbn [collectedCount errorCount]. unfold countOf. split.
        -- rewrite (filter_ext_bool _ (storable output)); [reflexivity|].
           intros p. apply (undetected_verdicts skip output p).
        -- rewrite (filter_ext_bool
                      _ (fun p => collectable (snd p) && negb (storable output p)));
             [reflexivity|].
           intros p. apply (undetected_verdicts skip output p).
      * apply (filed_ext (storedAt skip None output));
          [intros p; apply (undetected_verdicts skip output p)|].
        apply (directory_filed skip None output (discovered resources) []).
        intros p Hp. now apply elem_of_nil in Hp.
    + intros Hw. unfold collectAllResourcesToSingleFile. fold skip.
      rewrite (collectAllResourcesToSingleFileWith_discovered skip resources
                 output w Hr), Hw, Hnone.
      rewrite (sections_ext (fetchedAt skip None) fetchable)
        by (intros p; apply (undetected_verdicts skip output p)).
      eexists. split; [reflexivity | split].
      * apply (foldl_invariant (fun st => skippedCount (fst st) = 0));
          [|reflexivity].
        intros st p. unfold bufferStep. apply visitToBuffer_unversioned.
      * intros Hn. rewrite (buffer_tally skip None _ EmptyString Hn).
        cbn [collectedCount errorCount]. unfold countOf. split.
        -- rewrite (filter_ext_bool _ fetchable); [reflexivity|].
           intros p. apply (undetected_verdicts skip output p).
        -- rewrite (filter_ext_bool
                      _ (fun p => collectable (snd p) && negb (fetchable p)));
             [reflexivity|].
           intros p. apply (undetected_verdicts skip output p).
Qed.

(** C7, with the one condition the spec leaves out.  When discovery gave
    the resources, a resource that cannot be fetched adds one to
    [errorCount] and changes nothing else, and the loop goes on with the
    resources behind it: [collectResources] returns no error, and every
    resource that is fetched and whose file can be written has its file;
    [collectAllResourcesToSingleFile] returns no error when the output file
    can be written, and the file then has the sections of all the resources
    that were fetched, in the order of discovery; when the output file
    cannot be written it returns the error of the write, and no other file
    has changed.  The three counters are the numbers of the resources
    collected, failed and skipped, as long as there are fewer than [2^63]
    resources. *)
Theorem fetch_failures_do_not_abort (resources : list APIResourceList.t) :
  ServerPreferredResources = Some resources ->
  forall output w,
    (exists c w',
        collectResources output w = (inr c, w')
        /\ (Z.of_nat (length (discovered resources)) < 2 ^ 63 ->
            c = mkSummary
                  (countOf (storedAt Deprecation.shouldSkipResource detected output)
                           (discovered resources))
                  (countOf (unstoredAt Deprecation.shouldSkipResource detected output)
                           (discovered resources))
                  (countOf (skippedAt Deprecation.shouldSkipResource detected)
                           (discovered resources)))
        /\ filed (storedAt Deprecation.shouldSkipResource detected output) output
                 (discovered resources) w')
    /\ (Writable output = true ->
        exists c,
          collectAllResourcesToSingleFile output w
          = (inr c,
             mkWorld (<[output :=
                          sections (fetchedAt Deprecation.shouldSkipResource detected)
                                   (discovered resources)]> (files w))
                     (clock w))
          /\ (Z.of_nat (length (discovered resources)) < 2 ^ 63 ->
              c = mkSummary
                    (countOf (fetchedAt Deprecation.shouldSkipResource detected)
                             (discovered resources))
                    (countOf (failedAt Deprecation.shouldSkipResource detected)
                             (discovered resources))
                    (countOf (skippedAt Deprecation.shouldSkipResource detected)
                             (discovered resources))))
    /\ (Writable output = false ->
        exists w',
          collectAllResourcesToSingleFile output w = (inl (ErrWriteFile output), w')
          /\ forall path, path <> output -> files w' !! path = files w !! path)
    /\ (forall skip clusterVersion groupVersion c buffer resource e,
           collectable resource = true ->
           skipDecision skip clusterVersion resource groupVersion = false ->
           fetchYaml resource groupVersion = inl e ->
           visitToBuffer skip clusterVersion groupVersion (c, buffer) resource
           = (errored c, buffer)
           /\ visitToDirectory skip clusterVersion output groupVersion (c, w) resource
              = (errored c, w)).
Proof.
  intros Hr output w. set (skip := Deprecation.shouldSkipResource).
  split; [| split; [| split]].
  - unfold collectResources. fold skip.
    rewrite (collectResourcesWith_discovered skip resources output w Hr).
    eexists _, _. split; [reflexivity | split].
    + intros Hn. now apply directory_tally.
    + apply (directory_filed skip detected output (discovered resources) []).
      intros p Hp. now apply elem_of_nil in Hp.
  - intros Hw. unfold collectAllResourcesToSingleFile. fold skip.
    rewrite (collectAllResourcesToSingleFileWith_discovered skip resources
               output w Hr), Hw.
    eexists. split; [reflexivity|]. intros Hn. now apply buffer_tally.
  - intros Hw. unfold collectAllResourcesToSingleFile. fold skip.
    rewrite (collectAllResourcesToSingleFileWith_discovered skip resources
               output w Hr), Hw.
    eexists. split; [reflexivity|]. intros path Hne.
    now apply afterShortWrite_elsewhere.
  - intros skip' clusterVersion groupVersion c buffer resource e Hc Hs He.
    unfold visitToBuffer, visitToDirectory, collectResourceToBuffer, collectResource.
    now rewrite Hc, Hs, He.
Qed.

End CollectorFacts.

(** The two collection theorems on two sample clusters whose version cannot
  be read: on the first listing the services fails, on the second listing
  the pods. *)
Section CollectorSamples.
Import Collector Outcome Examples.

(** C6 on the sample cluster on which the pods cannot be listed: the run
    returns its summary, nothing is skipped, and [endpoints], which the
    rules would skip from Kubernetes 1.33 on, has its section. *)
Lemma undetected_version_skips_nothing_witness :
  @detectClusterVersion flaky = inl ErrServerVersion
  /\ (forall skip,
        @collectAllResourcesToSingleFileWith sampleYaml flaky sampleHost
          skip "/out/all.yaml" emptyWorld
        = @collectAllResourcesToSingleFile sampleYaml flaky sampleHost
            "/out/all.yaml" emptyWorld)
  /\ (exists c,
        @collectAllResourcesToSingleFile sampleYaml flaky sampleHost
          "/out/all.yaml" emptyWorld
        = (inr c, mkWorld (<["/out/all.yaml" := flakySnapshot]> ∅) O)
        /\ skippedCount c = 0 /\ collectedCount c = 2 /\ errorCount c = 1).
Proof.
  destruct (@undetected_version_skips_nothing sampleYaml flaky sampleHost
              (ex_intro _ ErrServerVersion eq_refl) "/out/all.yaml" emptyWorld)
    as (Hany & _ & _ & Hgoes).
  split; [reflexivity | split].
  - intros skip. apply Hany.
  - destruct (proj2 (Hgoes [coreResources] eq_refl) eq_refl)
      as (c & E & Hskipped & Hcounts).
    exists c. split; [exact E | split; [exact Hskipped|]].
    apply Hcounts. vm_compute. reflexivity.
Defined.

(** C7 on the same cluster: the first of its three collectable resources
    cannot be fetched, and the two behind it are collected. *)
Lemma fetch_failures_do_not_abort_witness :
  @fetchYaml sampleYaml flaky (APIResource.mk "pods" ["get"; "list"; "watch"]) "v1"
  = inl (ErrGetInstances "pods")
  /\ @collectAllResourcesToSingleFile sampleYaml flaky sampleHost
       "/out/all.yaml" emptyWorld
     = (inr (mkSummary 2 1 0),
        mkWorld (<["/out/all.yaml" := flakySnapshot]> ∅) O)
  /\ exists w',
       @collectResources sampleYaml flaky sampleHost "/out" emptyWorld
       = (inr (mkSummary 2 1 0), w')
       /\ is_Some (files w' !! "/out/v1-endpoints.yaml")
       /\ is_Some (files w' !! "/out/v1-services.yaml").
Proof.
  split; [reflexivity|].
  destruct (@fetch_failures_do_not_abort sampleYaml flaky sampleHost
              [coreResources] eq_refl "/out/all.yaml" emptyWorld)
    as (_ & Hsingle & _ & _).
  destruct (@fetch_failures_do_not_abort sampleYaml flaky sampleHost
              [coreResources] eq_refl "/out" emptyWorld)
    as (Hdirectory & _ & _ & _).
  split.
  - destruct (Hsingle eq_refl) as (c & E & Hcount).
    rewrite E, Hcount by (vm_compute; reflexivity). reflexivity.
  - destruct Hdirectory as (c & w' & E & Hcount & Hfiled).
    exists w'. split; [| split].
    + rewrite E, Hcount by (vm_compute; reflexivity). reflexivity.
    + destruct (Hfiled ("v1", APIResource.mk "endpoints" ["get"; "list"]))
        as (q & n & _ & _ & _ & Hfile);
        [cbn; rewrite !elem_of_cons; repeat (first [left; reflexivity | right])
        | reflexivity |].
      eexists. exact Hfile.
    + destruct (Hfiled ("v1", APIResource.mk "services" ["get"; "list"]))
        as (q & n & _ & _ & _ & Hfile);
        [cbn; rewrite !elem_of_cons; repeat (first [left; reflexivity | right])
        | reflexivity |].
      eexists. exact Hfile.
Defined.

(** On the first sample cluster reporting Kubernetes 1.33 the skip decision
    counts: [endpoints] is skipped, [pods] is collected, [services] fails. *)
Lemma detected_version_skips_endpoints :
  @detectClusterVersion versioned = inr (ClusterVersion.mk 1 33 false 0 0)
  /\ fst (@collectAllResourcesToSingleFile sampleYaml versioned sampleHost
            "/out/all.yaml" emptyWorld)
     = inr (mkSummary 1 1 1).
Proof. split; vm_compute; reflexivity. Qed.

(** C7, as the spec has it, fails: discovery gave the resources of the
    sample cluster, and [collectAllResourcesToSingleFile] returns an error,
    that of the write to [/proc/version]. *)
Lemma single_file_write_error_is_returned :
  ~ (@ServerPreferredResources unversioned = Some [coreResources] ->
     exists c w',
       @collectAllResourcesToSingleFile sampleYaml unversioned sampleHost
         "/proc/version" emptyWorld = (inr c, w')).
Proof.
  intros Hclaim. destruct (Hclaim eq_refl) as (c & w' & E).
  vm_compute in E. discriminate E.
Qed.

End CollectorSamples.

(** * Further properties *)

(** ** Keys and file names *)

Section KeyShapeFacts.
Import MustGather Collector Shape.

Lemma lowerByte_idempotent (c : ascii) : lowerByte (lowerByte c) = lowerByte c.
Proof. destruct c as [[] [] [] [] [] [] [] []]; reflexivity. Qed.

Lemma lowerByte_slash (c : ascii) :
  Ascii.eqb (lowerByte c) "/" = Ascii.eqb c "/".
Proof. destruct c as [[] [] [] [] [] [] [] []]; reflexivity. Qed.

Lemma ToLower_idempotent (s : string) : ToLower (ToLower s) = ToLower s.
Proof.
  induction s as [|c s IH]; [reflexivity|].
  cbn [ToLower]. now rewrite lowerByte_idempotent, IH.
Qed.

Lemma ToLower_app (a b : string) : ToLower (a +:+ b) = ToLower a +:+ ToLower b.
Proof.
  induction a as [|c a IH]; [reflexivity|].
  rewrite str_app_cons. cbn [ToLower]. now rewrite IH, str_app_cons.
Qed.

(** Replacing the slashes goes byte by byte. *)
Lemma ReplaceAll_slash_cons (c : ascii) (s : string) :
  ReplaceAll (String c s) "/" "-"
  = String (if Ascii.eqb c "/" then "-"%char else c) (ReplaceAll s "/" "-").
Proof.
  unfold ReplaceAll. cbn [replaceFrom HasPrefix String.length Nat.sub].
  rewrite andb_true_r. now destruct (Ascii.eqb c "/").
Qed.

Lemma ReplaceAll_slash_idempotent (s : string) :
  ReplaceAll (ReplaceAll s "/" "-") "/" "-" = ReplaceAll s "/" "-".
Proof.
  induction s as [|c s IH]; [reflexivity|].
  rewrite !ReplaceAll_slash_cons, IH.
  destruct (Ascii.eqb c "/") eqn:E; [reflexivity | now rewrite E].
Qed.

Lemma sliceFrom_app (a b : string) (n : nat) :
  sliceFrom (String.length a + n) (a +:+ b) = sliceFrom n b.
Proof.
  induction a as [|c a IH]; [reflexivity|].
  rewrite str_app_cons. exact IH.
Qed.

Lemma HasSuffix_app (a r suffix : string) :
  HasSuffix r suffix = true -> HasSuffix (a +:+ r) suffix = true.
Proof.
  unfold HasSuffix. intros H. apply andb_true_iff in H as [Hlen Heq].
  apply Nat.leb_le in Hlen. rewrite str_length_app.
  apply andb_true_iff. split; [apply Nat.leb_le; lia|].
  replace (String.length a + String.length r - String.length suffix)%nat
    with (String.length a + (String.length r - String.length suffix))%nat by lia.
  now rewrite sliceFrom_app.
Qed.

Lemma Contains_byte_app (a b : string) (c : ascii) :
  Contains (a +:+ b) (String c EmptyString)
  = Contains a (String c EmptyString) || Contains b (String c EmptyString).
Proof.
  induction a as [|x a IH].
  - destruct b; reflexivity.
  - rewrite str_app_cons. cbn [Contains HasPrefix]. rewrite IH.
    now rewrite orb_assoc.
Qed.

Lemma Contains_slash_ReplaceAll (s : string) :
  Contains (ReplaceAll s "/" "-") "/" = false.
Proof.
  induction s as [|c s IH]; [reflexivity|].
  rewrite ReplaceAll_slash_cons. cbn [Contains HasPrefix]. rewrite IH.
  destruct (Ascii.eqb c "/") eqn:E; [reflexivity | now rewrite E].
Qed.

Lemma Contains_slash_ToLower (s : string) :
  Contains (ToLower s) "/" = Contains s "/".
Proof.
  induction s as [|c s IH]; [reflexivity|].
  cbn [ToLower Contains HasPrefix]. now rewrite lowerByte_slash, IH.
Qed.

(** The plural of [makeResourceKey]. *)
Lemma makeResourceKey_unfold (apiVersion kind : string) :
  makeResourceKey apiVersion kind
  = ReplaceAll apiVersion "/" "-" +:+ "-"
    +:+ (if HasSuffix (ToLower kind) "s" then ToLower kind else ToLower kind +:+ "s").
Proof. unfold makeResourceKey. now destruct (HasSuffix (ToLower kind) "s"). Qed.

(** X1.  The key does not tell apart two kinds that differ in the case of
    their letters, two API versions that differ in a slash written as a
    dash, or a kind and the same kind with an [s] behind it. *)
Theorem makeResourceKey_merges_spellings :
  (forall apiVersion kind,
      makeResourceKey apiVersion (ToLower kind) = makeResourceKey apiVersion kind)
  /\ (forall apiVersion kind,
      makeResourceKey (ReplaceAll apiVersion "/" "-") kind
      = makeResourceKey apiVersion kind)
  /\ (forall apiVersion kind,
      HasSuffix (ToLower kind) "s" = false ->
      makeResourceKey apiVersion (kind +:+ "s") = makeResourceKey apiVersion kind).
Proof.
  split; [| split].
  - intros apiVersion kind. now rewrite !makeResourceKey_unfold, ToLower_idempotent.
  - intros apiVersion kind.
    now rewrite !makeResourceKey_unfold, ReplaceAll_slash_idempotent.
  - intros apiVersion kind Hs. rewrite !makeResourceKey_unfold, Hs, ToLower_app.
    change (ToLower "s") with "s".
    now rewrite (HasSuffix_app (ToLower kind) "s" "s" eq_refl).
Qed.

Lemma makeResourceKey_merges_spellings_witness :
  makeResourceKey "v1" ("Pod" +:+ "s") = makeResourceKey "v1" "Pod".
Proof.
  apply (proj2 (proj2 makeResourceKey_merges_spellings) "v1" "Pod"). reflexivity.
Defined.

(** X2.  Every key ends with [s], and it has a slash in it exactly when the
    kind has one: the slashes of the API version are gone. *)
Theorem makeResourceKey_ends_with_s_and_keeps_kind_slash (apiVersion kind : string) :
  HasSuffix (makeResourceKey apiVersion kind) "s" = true
  /\ Contains (makeResourceKey apiVersion kind) "/" = Contains kind "/".
Proof.
  rewrite makeResourceKey_unfold. split.
  - apply HasSuffix_app, (HasSuffix_app "-").
    destruct (HasSuffix (ToLower kind) "s") eqn:E; [exact E|].
    now apply HasSuffix_app.
  - rewrite !Contains_byte_app, Contains_slash_ReplaceAll.
    change (Contains "-" "/") with false. cbn [orb].
    destruct (HasSuffix (ToLower kind) "s").
    + apply Contains_slash_ToLower.
    + rewrite Contains_byte_app, Contains_slash_ToLower.
      change (Contains "s" "/") with false. now rewrite orb_false_r.
Qed.

Lemma everyByte_app (p : ascii -> bool) (a b : string) :
  everyByte p (a +:+ b) = everyByte p a && everyByte p b.
Proof.
  induction a as [|c a IH]; [reflexivity|].
  rewrite str_app_cons. cbn [everyByte]. now rewrite IH, andb_assoc.
Qed.

Lemma sanitize_safe (s : string) : everyByte safeByte (sanitize s) = true.
Proof.
  induction s as [|c s IH]; [reflexivity|].
  cbn [sanitize everyByte]. rewrite IH, andb_true_r.
  unfold safeByte. destruct (unsafeByte c) eqn:E; [reflexivity | now rewrite E].
Qed.

Lemma sanitize_length (s : string) : String.length (sanitize s) = String.length s.
Proof. induction s as [|c s IH]; [reflexivity|]. cbn [sanitize String.length]. now rewrite IH. Qed.

Lemma sanitize_of_safe (s : string) :
  everyByte safeByte s = true -> sanitize s = s.
Proof.
  induction s as [|c s IH]; intros H; [reflexivity|].
  cbn [everyByte] in H. apply andb_true_iff in H as [Hc Hs].
  cbn [sanitize]. rewrite (IH Hs). unfold safeByte in Hc.
  apply negb_true_iff in Hc. now rewrite Hc.
Qed.

Lemma safeByte_not_slash (c : ascii) : safeByte c = true -> Ascii.eqb c "/" = false.
Proof.
  intros H. destruct (Ascii.eqb_spec c "/") as [->|]; [discriminate H | reflexivity].
Qed.

Lemma everyByte_safe_no_slash (s : string) :
  everyByte safeByte s = true -> Contains s "/" = false.
Proof.
  induction s as [|c s IH]; intros H; [reflexivity|].
  cbn [everyByte] in H. apply andb_true_iff in H as [Hc Hs].
  cbn [Contains HasPrefix]. now rewrite (safeByte_not_slash c Hc), (IH Hs).
Qed.


(** X3.  The name [formatFilename] gives a file has none of the ten bytes
    its replacer takes out, so no slash and no backslash: the file stays in
    the directory it is joined to.  Sanitizing keeps the length and changes
    nothing the second time. *)
Theorem formatFilename_is_safe (resourceName groupVersion : string) :
  everyByte safeByte (formatFilename resourceName groupVersion) = true
  /\ Contains (formatFilename resourceName groupVersion) "/" = false
  /\ HasSuffix (formatFilename resourceName groupVersion) ".yaml" = true
  /\ String.length (sanitize resourceName) = String.length resourceName
  /\ sanitize (sanitize resourceName) = sanitize resourceName.
Proof.
  assert (Hsafe : everyByte safeByte (formatFilename resourceName groupVersion) = true).
  { unfold formatFilename. destruct (negb (Deprecation.isEmpty groupVersion));
      rewrite !everyByte_app, !sanitize_safe; reflexivity. }
  split; [exact Hsafe | split; [now apply everyByte_safe_no_slash | split; [| split]]].
  - unfold formatFilename. destruct (negb (Deprecation.isEmpty groupVersion)).
    + now apply HasSuffix_app, (HasSuffix_app "-"), HasSuffix_app.
    + now apply HasSuffix_app.
  - apply sanitize_length.
  - apply sanitize_of_safe, sanitize_safe.
Qed.



End KeyShapeFacts.

(** ** What ingestion keeps true of the inventory *)

Section InventoryFacts.
Import MustGather Shape.
Context `{Yaml}.

Lemma stringField_nonempty (m : gmap string value) (key : string) :
  isEmpty (fst (stringField m key)) = false ->
  m !! key = Some (VString (fst (stringField m key)))
  /\ fst (stringField m key) <> EmptyString.
Proof.
  unfold stringField. destruct (m !! key) as [[]|]; simpl; try discriminate.
  intros Hs. split; [reflexivity|]. now intros ->.
Qed.

Lemma wellKeyed_empty : wellKeyed ∅.
Proof. intros key items Hin. now rewrite lookup_empty in Hin. Qed.

Lemma appendItem_wellKeyed (key : string) (item : value)
    (resourceMap : gmap string (list value)) :
  wellKeyed resourceMap -> keyedItem key item ->
  wellKeyed (appendItem key item resourceMap).
Proof.
  intros Hmap Hitem key' items' Hin. unfold appendItem in Hin.
  destruct (decide (key = key')) as [<-|Hne].
  - rewrite lookup_insert_eq in Hin. injection Hin as <-.
    split; [now destruct (default [] (resourceMap !! key))|].
    apply Forall_app. split; [|now apply Forall_singleton].
    destruct (resourceMap !! key) as [items|] eqn:E; [|apply Forall_nil_2].
    apply (Hmap key items E).
  - rewrite lookup_insert_ne in Hin by exact Hne. now apply Hmap.
Qed.

Lemma addListItem_wellKeyed (resourceMap : gmap string (list value)) (item : value) :
  wellKeyed resourceMap -> wellKeyed (addListItem resourceMap item).
Proof.
  intros Hmap. destruct item as [| | | | |m]; try exact Hmap.
  unfold addListItem.
  destruct (isEmpty (fst (stringField m "apiVersion"))) eqn:Ea; [exact Hmap|].
  destruct (isEmpty (fst (stringField m "kind"))) eqn:Ek; [exact Hmap|].
  destruct (stringField_nonempty m _ Ea) as [Ha Hane].
  destruct (stringField_nonempty m _ Ek) as [Hk Hkne].
  cbn [negb andb]. apply appendItem_wellKeyed; [exact Hmap|].
  eexists m, _, _. repeat split; eassumption.
Qed.

Lemma addResource_wellKeyed (resource : gmap string value)
    (resourceMap : gmap string (list value)) :
  wellKeyed resourceMap -> wellKeyed (addResource resource resourceMap).
Proof.
  intros Hmap. unfold addResource.
  destruct (stringField resource "apiVersion") as [apiVersion ok] eqn:Ea.
  destruct (negb ok || isEmpty apiVersion) eqn:Ea'; [exact Hmap|].
  destruct (stringField resource "kind") as [kind ok'] eqn:Ek.
  destruct (negb ok' || isEmpty kind) eqn:Ek'; [exact Hmap|].
  apply orb_false_iff in Ea' as [_ Ea'], Ek' as [_ Ek'].
  destruct (String.eqb kind "List").
  - destruct (resource !! "items") as [[]|]; try exact Hmap.
    apply (foldl_invariant wellKeyed); [|exact Hmap].
    intros m item. apply addListItem_wellKeyed.
  - apply appendItem_wellKeyed; [exact Hmap|].
    pose proof (stringField_nonempty resource "apiVersion") as Ha.
    pose proof (stringField_nonempty resource "kind") as Hk.
    rewrite Ea in Ha. rewrite Ek in Hk. cbn [fst] in Ha, Hk.
    destruct (Ha Ea') as [Ha1 Ha2]. destruct (Hk Ek') as [Hk1 Hk2].
    exists resource, apiVersion, kind. repeat split; assumption.
Qed.

Lemma processDocument_wellKeyed (resourceMap : gmap string (list value)) (doc : string) :
  wellKeyed resourceMap -> wellKeyed (processDocument resourceMap doc).
Proof.
  intros Hmap. unfold processDocument. destruct (_ || _); [exact Hmap|].
  destruct (Unmarshal _); [|exact Hmap]. now apply addResource_wellKeyed.
Qed.

Lemma processMustGatherFile_wellKeyed (w : World) (filePath : string)
    (resourceMap : gmap string (list value)) :
  wellKeyed resourceMap ->
  wellKeyed (snd (processMustGatherFile w filePath resourceMap)).
Proof.
  intros Hmap. unfold processMustGatherFile.
  destruct (ReadFile w filePath); [|exact Hmap]. cbn [snd].
  apply (foldl_invariant wellKeyed); [|exact Hmap].
  intros m doc. apply processDocument_wellKeyed.
Qed.

Lemma visitFile_wellKeyed (w : World) (resourceMap : gmap string (list value))
    (e : WalkEntry.t) :
  wellKeyed resourceMap -> wellKeyed (visitFile w resourceMap e).
Proof.
  intros Hmap. unfold visitFile.
  destruct (WalkEntry.failed e); [exact Hmap|].
  destruct (WalkEntry.isDir e); [exact Hmap|].
  destruct (_ && _); [exact Hmap|].
  now apply processMustGatherFile_wellKeyed.
Qed.

Lemma hasItems_wellKeyed (resourceMap : gmap string (list value)) (key : string) :
  wellKeyed resourceMap -> is_Some (resourceMap !! key) ->
  hasItems resourceMap key = true.
Proof.
  intros Hmap [items Hin]. apply hasItems_spec. exists items.
  split; [exact Hin | apply (Hmap key items Hin)].
Qed.

(** X5.  Ingestion keeps the inventory well keyed: no key with an empty
    list, and every item a mapping whose own [apiVersion] and [kind] give
    the key it is under.  So it is for the inventory of a whole directory,
    in which every key has items to make a section of. *)
Theorem ingestion_keeps_items_under_their_keys :
  (forall w filePath resourceMap,
      wellKeyed resourceMap ->
      wellKeyed (snd (processMustGatherFile w filePath resourceMap)))
  /\ (forall `{Host} w mustGatherPath,
      wellKeyed (ingest w mustGatherPath)
      /\ forall key,
          is_Some (ingest w mustGatherPath !! key) ->
          hasItems (ingest w mustGatherPath) key = true).
Proof.
  split.
  - intros w filePath resourceMap. apply processMustGatherFile_wellKeyed.
  - intros host w mustGatherPath.
    assert (Hwell : wellKeyed (ingest w mustGatherPath)).
    { unfold ingest. apply (foldl_invariant wellKeyed); [|exact wellKeyed_empty].
      intros m e. apply visitFile_wellKeyed. }
    split; [exact Hwell|]. intros key. now apply hasItems_wellKeyed.
Qed.

Lemma extends_refl (resourceMap : gmap string (list value)) :
  extends resourceMap resourceMap.
Proof. intros key items Hin. exists []. now rewrite app_nil_r. Qed.

Lemma extends_trans (a b c : gmap string (list value)) :
  extends a b -> extends b c -> extends a c.
Proof.
  intros Hab Hbc key items Hin.
  destruct (Hab key items Hin) as [more Hb].
  destruct (Hbc key _ Hb) as [more' Hc].
  exists (more ++ more'). now rewrite app_assoc.
Qed.

Lemma appendItem_extends (key : string) (item : value)
    (resourceMap : gmap string (list value)) :
  extends resourceMap (appendItem key item resourceMap).
Proof.
  intros key' items Hin. unfold appendItem.
  destruct (decide (key = key')) as [<-|Hne].
  - rewrite lookup_insert_eq, Hin. now exists [item].
  - rewrite lookup_insert_ne by exact Hne. exists []. now rewrite app_nil_r.
Qed.

Lemma foldl_extends {B} (f : gmap string (list value) -> B -> gmap string (list value)) :
  (forall m b, extends m (f m b)) ->
  forall l m, extends m (foldl f m l).
Proof.
  intros Hf l. induction l as [|b l IH]; intros m; cbn [foldl].
  - apply extends_refl.
  - eapply extends_trans; [apply Hf | apply IH].
Qed.

Lemma addListItem_extends (resourceMap : gmap string (list value)) (item : value) :
  extends resourceMap (addListItem resourceMap item).
Proof.
  destruct item; try apply extends_refl. unfold addListItem.
  destruct (_ && _); [apply appendItem_extends | apply extends_refl].
Qed.

Lemma addResource_extends (resource : gmap string value)
    (resourceMap : gmap string (list value)) :
  extends resourceMap (addResource resource resourceMap).
Proof.
  unfold addResource.
  destruct (stringField resource "apiVersion") as [apiVersion ok].
  destruct (_ || _); [apply extends_refl|].
  destruct (stringField resource "kind") as [kind ok'].
  destruct (_ || _); [apply extends_refl|].
  destruct (String.eqb kind "List"); [|apply appendItem_extends].
  destruct (resource !! "items") as [[]|]; try apply extends_refl.
  apply foldl_extends, addListItem_extends.
Qed.

Lemma processDocument_extends (resourceMap : gmap string (list value)) (doc : string) :
  extends resourceMap (processDocument resourceMap doc).
Proof.
  unfold processDocument. destruct (_ || _); [apply extends_refl|].
  destruct (Unmarshal _); [apply addResource_extends | apply extends_refl].
Qed.

Lemma processMustGatherFile_extends (w : World) (filePath : string)
    (resourceMap : gmap string (list value)) :
  extends resourceMap (snd (processMustGatherFile w filePath resourceMap)).
Proof.
  unfold processMustGatherFile. destruct (ReadFile w filePath); [|apply extends_refl].
  cbn [snd]. apply foldl_extends, processDocument_extends.
Qed.

Lemma visitFile_extends (w : World) (resourceMap : gmap string (list value))
    (e : WalkEntry.t) :
  extends resourceMap (visitFile w resourceMap e).
Proof.
  unfold visitFile.
  destruct (WalkEntry.failed e); [apply extends_refl|].
  destruct (WalkEntry.isDir e); [apply extends_refl|].
  destruct (_ && _); [apply extends_refl|].
  apply processMustGatherFile_extends.
Qed.

(** X6.  Ingestion only appends.  After a document, a file or any part of
    the walk, every key that was in the inventory is still there, and its
    list begins with the items it had, in their order. *)
Theorem ingestion_only_appends (w : World) (resourceMap : gmap string (list value)) :
  (forall doc, extends resourceMap (processDocument resourceMap doc))
  /\ (forall filePath,
        extends resourceMap (snd (processMustGatherFile w filePath resourceMap)))
  /\ (forall entries, extends resourceMap (foldl (visitFile w) resourceMap entries)).
Proof.
  split; [| split].
  - apply processDocument_extends.
  - intros filePath. apply processMustGatherFile_extends.
  - intros entries. apply foldl_extends. intros m e. apply visitFile_extends.
Qed.

Lemma visitFile_readable (w : World) (resourceMap : gmap string (list value))
    (e : WalkEntry.t) :
  visitFile w resourceMap e
  = match (if readableYaml w e then ReadFile w (WalkEntry.path e) else None) with
    | Some data => foldl processDocument resourceMap (Split data "
---")
    | None => resourceMap
    end.
Proof.
  unfold visitFile, readableYaml, processMustGatherFile.
  destruct (WalkEntry.failed e); [reflexivity|].
  destruct (WalkEntry.isDir e); [reflexivity|]. cbn [negb andb].
  destruct (HasSuffix (WalkEntry.path e) ".yaml");
    destruct (HasSuffix (WalkEntry.path e) ".yml"); cbn [negb andb orb];
    destruct (ReadFile w (WalkEntry.path e)); reflexivity.
Qed.

(** X7.  The inventory of a walk is made from the contents of the readable
    files with a YAML extension, in the order of the walk, and from nothing
    else: directories, entries the walk could not access, files with
    another extension and files that cannot be read change nothing, and
    neither do the names of the files. *)
Theorem walk_reads_only_readable_yaml_files (w : World)
    (entries : list WalkEntry.t) (resourceMap : gmap string (list value)) :
  foldl (visitFile w) resourceMap entries
  = foldl (fun m data => foldl processDocument m (Split data "
---"))
      resourceMap
      (omap (fun e => if readableYaml w e then ReadFile w (WalkEntry.path e) else None)
            entries).
Proof.
  revert resourceMap. induction entries as [|e entries IH]; intros resourceMap;
    [reflexivity|].
  cbn [foldl omap list_omap]. rewrite visitFile_readable, IH.
  now destruct (if readableYaml w e then ReadFile w (WalkEntry.path e) else None).
Qed.

End InventoryFacts.

Section InventorySamples.
Import MustGather Shape Examples.

(** X5 on the sample file, from the empty inventory. *)
Lemma ingestion_keeps_items_under_their_keys_witness :
  wellKeyed (snd (@processMustGatherFile sampleYaml bundleWorld
                    "/mg/namespaces.yaml" ∅)).
Proof.
  apply (proj1 (@ingestion_keeps_items_under_their_keys sampleYaml)).
  intros key items Hin. now rewrite lookup_empty in Hin.
Defined.

End InventorySamples.

(** ** The cluster version and the rules *)

Section VersionFacts.
Import Deprecation Collector.

Lemma Atoi_in_range (s : string) (v : Z) :
  Strconv.Atoi s = Some v -> Strconv.minInt <= v <= Strconv.maxInt.
Proof.
  unfold Strconv.Atoi.
  destruct (match s with
            | String "-" t => (true, t)
            | String "+" t => (false, t)
            | _ => (false, s)
            end) as [neg body].
  destruct body as [|c body]; [discriminate|].
  destruct (Strconv.digits 0 (String c body)) as [n|]; [|discriminate].
  destruct (_ && _) eqn:E; [|discriminate].
  intros [= <-]. apply andb_true_iff in E as [E1 E2].
  apply Z.leb_le in E1, E2. lia.
Qed.

Lemma existsb_elem_of {A} (p : A -> bool) (l : list A) :
  existsb p l = true <-> exists x, x ∈ l /\ p x = true.
Proof.
  rewrite existsb_exists. split; intros (x & Hx & Hp); exists x;
    (split; [now apply list_elem_of_In | exact Hp]).
Qed.

(** What [detectClusterVersion] returns when it returns a version. *)
Lemma detectClusterVersion_inr `{Cluster} (cv : ClusterVersion.t) :
  detectClusterVersion = inr cv ->
  exists serverMajor serverMinor,
    ServerVersion = Some (serverMajor, serverMinor)
    /\ Strconv.Atoi (TrimSuffix serverMajor "+") = Some (ClusterVersion.Major cv)
    /\ Strconv.Atoi (TrimSuffix serverMinor "+") = Some (ClusterVersion.Minor cv)
    /\ ClusterVersion.IsOpenShift cv
       = match ServerGroups with
         | Some groups => existsb (fun name => Contains name "openshift.io") groups
         | None => false
         end
    /\ ClusterVersion.OpenShiftMajor cv
       = (if ClusterVersion.IsOpenShift cv then 4 else 0)
    /\ ClusterVersion.OpenShiftMinor cv
       = (if ClusterVersion.IsOpenShift cv && (ClusterVersion.Minor cv >=? 27)
          then wrap64 (14 + wrap64 (ClusterVersion.Minor cv - 27)) else 0).
Proof.
  unfold detectClusterVersion.
  destruct ServerVersion as [[serverMajor serverMinor]|]; [|discriminate].
  destruct (Strconv.Atoi (TrimSuffix serverMajor "+")) as [major|] eqn:EM;
    [|discriminate].
  destruct (Strconv.Atoi (TrimSuffix serverMinor "+")) as [minor|] eqn:Em;
    [|discriminate].
  intros [= <-]. exists serverMajor, serverMinor. cbn.
  repeat split; assumption.
Qed.

Lemma openShiftMinor_no_overflow (minor : Z) :
  Strconv.minInt <= minor <= Strconv.maxInt -> 27 <= minor ->
  wrap64 (14 + wrap64 (minor - 27)) = minor - 13.
Proof.
  unfold Strconv.minInt, Strconv.maxInt.
  change (2 ^ 63) with 9223372036854775808. intros Hr Hm.
  rewrite (wrap64_small (minor - 27))
    by (change (2 ^ 63) with 9223372036854775808; lia).
  rewrite wrap64_small by (change (2 ^ 63) with 9223372036854775808; lia). lia.
Qed.

(** X8.  A detected version has its major and minor numbers within the
    range of an [int].  The cluster counts as OpenShift exactly when the
    list of API groups was read and some group has [openshift.io] in its
    name, so a failing [ServerGroups] is no error: the cluster is then not
    OpenShift.  For an OpenShift cluster the platform version is 4 and the
    Kubernetes minor less 13 from minor 27 on (1.27 is 4.14), and 4.0 below;
    for another cluster it is 0.0.  No wrap-around occurs. *)
Theorem detected_version_maps_minor_to_openshift `{Cluster} (cv : ClusterVersion.t) :
  detectClusterVersion = inr cv ->
  Strconv.minInt <= ClusterVersion.Major cv <= Strconv.maxInt
  /\ Strconv.minInt <= ClusterVersion.Minor cv <= Strconv.maxInt
  /\ (ClusterVersion.IsOpenShift cv = true
      <-> exists groups name,
            ServerGroups = Some groups /\ name ∈ groups
            /\ Contains name "openshift.io" = true)
  /\ (ClusterVersion.IsOpenShift cv = true ->
      ClusterVersion.OpenShiftMajor cv = 4
      /\ ClusterVersion.OpenShiftMinor cv
         = if ClusterVersion.Minor cv >=? 27 then ClusterVersion.Minor cv - 13 else 0)
  /\ (ClusterVersion.IsOpenShift cv = false ->
      ClusterVersion.OpenShiftMajor cv = 0 /\ ClusterVersion.OpenShiftMinor cv = 0).
Proof.
  intros Hd.
  destruct (detectClusterVersion_inr cv Hd)
    as (sM & sm & _ & HM & Hm & Hos & HoM & Hom).
  pose proof (Atoi_in_range _ _ HM) as HMr. pose proof (Atoi_in_range _ _ Hm) as Hmr.
  split; [exact HMr | split; [exact Hmr | split; [| split]]].
  - rewrite Hos. destruct ServerGroups as [groups|].
    + rewrite existsb_elem_of. split.
      * intros (name & Hin & Hc). now exists groups, name.
      * intros (groups' & name & [= <-] & Hin & Hc). now exists name.
    + split; [discriminate | intros (groups & name & [=] & _)].
  - intros Hopen. rewrite HoM, Hom, Hopen. split; [reflexivity|]. cbn [andb].
    destruct (ClusterVersion.Minor cv >=? 27) eqn:E; [|reflexivity].
    apply openShiftMinor_no_overflow; [exact Hmr|].
    apply Z.geb_le in E. lia.
  - intros Hopen. rewrite HoM, Hom, Hopen. now split.
Qed.

(** A rule fires. *)
Lemma applyRule_verdict rule resource groupVersion cv v :
  applyRule rule resource groupVersion cv = Some v -> fst (fst (fst v)) = true.
Proof.
  unfold applyRule. destruct (_ || _); [discriminate|].
  destruct (_ && _); [discriminate|].
  destruct (depVersion rule) as [[depMajor depMinor]|]; [|discriminate].
  destruct (versionReached _ _ _ _); [|discriminate]. now intros [= <-].
Qed.

Lemma isDeprecatedWith_fires_iff (rules : list DeprecationRule.t)
    (resource : APIResource.t) (groupVersion : string) (cv : ClusterVersion.t) :
  fst (fst (fst (isDeprecatedWith rules resource groupVersion cv))) = true
  <-> exists rule, rule ∈ rules
                   /\ is_Some (applyRule rule resource groupVersion cv).
Proof.
  induction rules as [|rule l IH]; cbn [isDeprecatedWith].
  - split; [discriminate | intros (rule & Hin & _); now apply elem_of_nil in Hin].
  - destruct (applyRule rule resource groupVersion cv) as [v|] eqn:E.
    + split; [| intros _; now apply (applyRule_verdict _ _ _ _ _ E)].
      intros _. exists rule. split; [now left | now exists v].
    + rewrite IH. split.
      * intros (rule' & Hin & Hs). exists rule'. split; [now right | exact Hs].
      * intros (rule' & Hin & Hs). apply elem_of_cons in Hin as [-> | Hin].
        -- rewrite E in Hs. now destruct Hs.
        -- now exists rule'.
Qed.

(** X9.  [isDeprecated] over a rule set answers with the first rule that
    fires: the resource is deprecated exactly when some rule of the set
    fires, the verdict is that of the first such rule in the order of the
    set, and when no rule fires the verdict is the empty one. *)
Theorem isDeprecatedWith_answers_with_first_rule_that_fires
    (rules : list DeprecationRule.t) (resource : APIResource.t)
    (groupVersion : string) (cv : ClusterVersion.t) :
  (fst (fst (fst (isDeprecatedWith rules resource groupVersion cv))) = true
   <-> exists rule, rule ∈ rules /\ is_Some (applyRule rule resource groupVersion cv))
  /\ ((forall rule, rule ∈ rules -> applyRule rule resource groupVersion cv = None)
      <-> isDeprecatedWith rules resource groupVersion cv = notDeprecated)
  /\ (forall before rule after v,
        rules = before ++ rule :: after ->
        (forall earlier, earlier ∈ before ->
                         applyRule earlier resource groupVersion cv = None) ->
        applyRule rule resource groupVersion cv = Some v ->
        isDeprecatedWith rules resource groupVersion cv = v).
Proof.
  pose proof (isDeprecatedWith_fires_iff rules resource groupVersion cv) as Hiff.
  split; [exact Hiff | clear Hiff; split].
  - split.
    + induction rules as [|rule rules IH]; intros Hnone; [reflexivity|].
      cbn [isDeprecatedWith]. rewrite (Hnone rule) by now left.
      apply IH. intros rule' Hin. apply Hnone. now right.
    + intros Hv rule Hin.
      destruct (applyRule rule resource groupVersion cv) as [v|] eqn:E;
        [|reflexivity].
      assert (Ht : fst (fst (fst (isDeprecatedWith rules resource groupVersion cv)))
                   = true)
        by (apply (isDeprecatedWith_fires_iff rules); exists rule;
            split; [exact Hin | now exists v]).
      rewrite Hv in Ht. discriminate Ht.
  - intros before rule after v -> Hbefore Hrule.
    induction before as [|b before IH]; cbn [app isDeprecatedWith].
    + now rewrite Hrule.
    + rewrite (Hbefore b) by now left. apply IH.
      intros earlier Hin. apply Hbefore. now right.
Qed.

(** X9 on the built-in rules: [endpoints] on Kubernetes 1.33 is answered by
    the second rule, the first one being about another resource. *)
Lemma isDeprecatedWith_answers_with_first_rule_that_fires_witness :
  isDeprecatedWith getDeprecationRules (APIResource.mk "endpoints" [])
    "v1" (ClusterVersion.mk 1 33 false 0 0)
  = (true, "discovery.k8s.io/v1", "endpointslices",
     "Using discovery.k8s.io/v1/endpointslices instead of deprecated v1/endpoints").
Proof.
  apply (proj2 (proj2 (isDeprecatedWith_answers_with_first_rule_that_fires
                         getDeprecationRules (APIResource.mk "endpoints" []) "v1"
                         (ClusterVersion.mk 1 33 false 0 0)))
           [DeprecationRule.mk "v1" "componentstatuses" "1.19"
              EmptyString EmptyString false]
           (DeprecationRule.mk "v1" "endpoints" "1.33" "discovery.k8s.io/v1"
              "endpointslices" false)
           [DeprecationRule.mk "apps.openshift.io/v1" "deploymentconfigs" "4.14"
              EmptyString EmptyString true]).
  - reflexivity.
  - intros earlier Hin. apply list_elem_of_singleton in Hin as ->. reflexivity.
  - reflexivity.
Defined.

Lemma shouldSkipResourceWith_fst (rules : list DeprecationRule.t)
    (resource : APIResource.t) (groupVersion : string) (cv : ClusterVersion.t) :
  fst (shouldSkipResourceWith rules resource groupVersion cv)
  = fst (fst (fst (isDeprecatedWith rules resource groupVersion cv))).
Proof.
  unfold shouldSkipResourceWith.
  destruct (isDeprecatedWith rules resource groupVersion cv) as [[[d a] b] m].
  now destruct d.
Qed.

Lemma versionReached_openshift rule cv depMajor depMinor :
  DeprecationRule.IsOpenShift rule = true ->
  versionReached rule cv depMajor depMinor = true <->
  lexCompare (ClusterVersion.OpenShiftMajor cv, ClusterVersion.OpenShiftMinor cv)
             (depMajor, depMinor) <> Lt.
Proof.
  intros Hk. unfold versionReached, lexCompare. rewrite Hk. simpl.
  rewrite orb_true_iff, andb_true_iff, Z.eqb_eq, Z.geb_le.
  rewrite Z.gtb_ltb, Z.ltb_lt.
  destruct (Z.compare_spec (ClusterVersion.OpenShiftMajor cv) depMajor) as [E|L|G].
  - rewrite Z.compare_lt_iff. lia.
  - split; [lia | intros H; now destruct H].
  - split; [discriminate | lia].
Qed.

(** The version of the cluster a rule looks at. *)
Lemma applyRule_is_Some_iff rule resource groupVersion cv depMajor depMinor :
  depVersion rule = Some (depMajor, depMinor) ->
  is_Some (applyRule rule resource groupVersion cv)
  <-> DeprecationRule.GroupVersion rule = groupVersion
      /\ DeprecationRule.Resource rule = APIResource.Name resource
      /\ (DeprecationRule.IsOpenShift rule = true ->
          ClusterVersion.IsOpenShift cv = true)
      /\ lexCompare
           (if DeprecationRule.IsOpenShift rule
            then (ClusterVersion.OpenShiftMajor cv, ClusterVersion.OpenShiftMinor cv)
            else (ClusterVersion.Major cv, ClusterVersion.Minor cv))
           (depMajor, depMinor) <> Lt.
Proof.
  intros Hdep. unfold applyRule. rewrite Hdep.
  destruct (String.eqb_spec (DeprecationRule.GroupVersion rule) groupVersion)
    as [Hgv|Hgv]; cbn [negb orb];
    [| split; [intros [v [=]] | intros (E & _); contradiction]].
  destruct (String.eqb_spec (DeprecationRule.Resource rule) (APIResource.Name resource))
    as [Hname|Hname]; cbn [negb];
    [| split; [intros [v [=]] | intros (_ & E & _); contradiction]].
  destruct (DeprecationRule.IsOpenShift rule) eqn:Eo; cbn [andb].
  - destruct (ClusterVersion.IsOpenShift cv) eqn:Ec; cbn [negb].
    + rewrite <- (versionReached_openshift rule cv depMajor depMinor Eo).
      destruct (versionReached rule cv depMajor depMinor).
      * split; [intros _; repeat split; assumption | intros _; eexists; reflexivity].
      * split; [intros [v [=]] | intros (_ & _ & _ & [=])].
    + split; [intros [v [=]] | intros (_ & _ & E & _)]. now specialize (E eq_refl).
  - rewrite <- (versionReached_kubernetes rule cv depMajor depMinor Eo).
    destruct (versionReached rule cv depMajor depMinor).
    + split; [intros _; repeat split; try assumption; discriminate
             | intros _; eexists; reflexivity].
    + split; [intros [v [=]] | intros (_ & _ & _ & [=])].
Qed.

(** The built-in rules, one by one. *)
Lemma builtin_rule_fires_iff (resource : APIResource.t) (groupVersion : string)
    (cv : ClusterVersion.t) :
  (exists rule, rule ∈ getDeprecationRules
                /\ is_Some (applyRule rule resource groupVersion cv))
  <-> (groupVersion = "v1" /\ APIResource.Name resource = "componentstatuses"
       /\ lexCompare (ClusterVersion.Major cv, ClusterVersion.Minor cv) (1, 19) <> Lt)
      \/ (groupVersion = "v1" /\ APIResource.Name resource = "endpoints"
          /\ lexCompare (ClusterVersion.Major cv, ClusterVersion.Minor cv) (1, 33) <> Lt)
      \/ (groupVersion = "apps.openshift.io/v1"
          /\ APIResource.Name resource = "deploymentconfigs"
          /\ ClusterVersion.IsOpenShift cv = true
          /\ lexCompare (ClusterVersion.OpenShiftMajor cv,
                         ClusterVersion.OpenShiftMinor cv) (4, 14) <> Lt).
Proof.
  split.
  - intros (rule & Hin & Hs). unfold getDeprecationRules in Hin.
    repeat (apply elem_of_cons in Hin as [-> | Hin]);
      [| | | now apply elem_of_nil in Hin].
    + eapply (applyRule_is_Some_iff _ _ _ _ 1 19) in Hs; [|reflexivity].
      destruct Hs as (Hgv & Hname & _ & Hlex). cbn in Hgv, Hname, Hlex. left. auto.
    + eapply (applyRule_is_Some_iff _ _ _ _ 1 33) in Hs; [|reflexivity].
      destruct Hs as (Hgv & Hname & _ & Hlex). cbn in Hgv, Hname, Hlex.
      right. left. auto.
    + eapply (applyRule_is_Some_iff _ _ _ _ 4 14) in Hs; [|reflexivity].
      destruct Hs as (Hgv & Hname & Hos & Hlex). cbn in Hgv, Hname, Hos, Hlex.
      right. right. auto.
  - intros [(Hgv & Hname & Hlex) | [(Hgv & Hname & Hlex) | (Hgv & Hname & Hos & Hlex)]].
    + exists (DeprecationRule.mk "v1" "componentstatuses" "1.19"
                EmptyString EmptyString false).
      split; [apply list_elem_of_here|].
      apply (applyRule_is_Some_iff _ _ _ _ 1 19); [reflexivity|]. cbn.
      repeat split; auto; discriminate.
    + exists (DeprecationRule.mk "v1" "endpoints" "1.33" "discovery.k8s.io/v1"
                "endpointslices" false).
      split; [apply list_elem_of_further, list_elem_of_here|].
      apply (applyRule_is_Some_iff _ _ _ _ 1 33); [reflexivity|]. cbn.
      repeat split; auto; discriminate.
    + exists (DeprecationRule.mk "apps.openshift.io/v1" "deploymentconfigs" "4.14"
                EmptyString EmptyString true).
      split; [apply list_elem_of_further, list_elem_of_further, list_elem_of_here|].
      apply (applyRule_is_Some_iff _ _ _ _ 4 14); [reflexivity|]. cbn.
      repeat split; auto.
Qed.

(** X10.  With the built-in rules three resource types can be skipped, and
    no other, whatever the cluster version: [componentstatuses] of [v1] from
    Kubernetes 1.19 on, [endpoints] of [v1] from Kubernetes 1.33 on, and
    [deploymentconfigs] of [apps.openshift.io/v1] on an OpenShift cluster
    from platform version 4.14 on. *)
Theorem shouldSkipResource_skips_three_types (resource : APIResource.t)
    (groupVersion : string) (cv : ClusterVersion.t) :
  fst (shouldSkipResource resource groupVersion cv) = true
  <-> (groupVersion = "v1" /\ APIResource.Name resource = "componentstatuses"
       /\ lexCompare (ClusterVersion.Major cv, ClusterVersion.Minor cv) (1, 19) <> Lt)
      \/ (groupVersion = "v1" /\ APIResource.Name resource = "endpoints"
          /\ lexCompare (ClusterVersion.Major cv, ClusterVersion.Minor cv) (1, 33) <> Lt)
      \/ (groupVersion = "apps.openshift.io/v1"
          /\ APIResource.Name resource = "deploymentconfigs"
          /\ ClusterVersion.IsOpenShift cv = true
          /\ lexCompare (ClusterVersion.OpenShiftMajor cv,
                         ClusterVersion.OpenShiftMinor cv) (4, 14) <> Lt).
Proof.
  unfold shouldSkipResource, isDeprecated.
  rewrite shouldSkipResourceWith_fst.
  rewrite (isDeprecatedWith_fires_iff getDeprecationRules).
  apply builtin_rule_fires_iff.
Qed.

(** X11.  Detection and the rules together: with a detected version,
    [deploymentconfigs] of [apps.openshift.io/v1] is skipped exactly when
    the cluster is OpenShift and its Kubernetes minor number is 27 or more,
    whatever its major number. *)
Theorem detected_openshift_skips_deploymentconfigs_from_minor_27 `{Cluster}
    (cv : ClusterVersion.t) (resource : APIResource.t) :
  detectClusterVersion = inr cv ->
  APIResource.Name resource = "deploymentconfigs" ->
  fst (shouldSkipResource resource "apps.openshift.io/v1" cv) = true
  <-> ClusterVersion.IsOpenShift cv = true /\ 27 <= ClusterVersion.Minor cv.
Proof.
  intros Hd Hname.
  destruct (detectClusterVersion_inr cv Hd)
    as (sM & sm & _ & _ & Hm & _ & HoM & Hom).
  pose proof (Atoi_in_range _ _ Hm) as Hmr.
  unfold shouldSkipResource, isDeprecated.
  rewrite shouldSkipResourceWith_fst.
  rewrite (isDeprecatedWith_fires_iff getDeprecationRules), builtin_rule_fires_iff.
  assert (Hlex : ClusterVersion.IsOpenShift cv = true ->
                 lexCompare (ClusterVersion.OpenShiftMajor cv,
                             ClusterVersion.OpenShiftMinor cv) (4, 14) <> Lt
                 <-> 27 <= ClusterVersion.Minor cv).
  { intros Hos. rewrite HoM, Hom, Hos. unfold lexCompare. cbn [fst snd andb].
    change (4 ?= 4) with Eq. cbv iota.
    destruct (ClusterVersion.Minor cv >=? 27) eqn:E.
    - apply Z.geb_le in E.
      rewrite openShiftMinor_no_overflow by (auto; lia).
      rewrite Z.compare_lt_iff. lia.
    - assert (ClusterVersion.Minor cv < 27).
      { destruct (Z.geb_spec (ClusterVersion.Minor cv) 27); [discriminate | lia]. }
      change (0 ?= 14) with Lt. split; [congruence | lia]. }
  split.
  - intros [(Hgv & _) | [(Hgv & _) | (_ & _ & Hos & Hl)]]; try discriminate Hgv.
    split; [exact Hos | now apply Hlex].
  - intros [Hos Hmin]. right. right. repeat split; auto. now apply Hlex.
Qed.

End VersionFacts.

(** ** What a live collection leaves behind *)

Section LiveFacts.
Import MustGather Diff Collector Shape.
Context `{Yaml} `{Cluster} `{Host}.

Local Abbreviation marker := "--- # Resource: ".

Lemma collectResourceToBuffer_fetched (resource : APIResource.t)
    (groupVersion buffer yamlData : string) :
  fetchYaml resource groupVersion = inr yamlData ->
  collectResourceToBuffer resource groupVersion buffer
  = (None, ((buffer +:+ (marker +:+ APIResource.Name resource +:+ "
")) +:+ yamlData) +:+ "
").
Proof. intros E. unfold collectResourceToBuffer. now rewrite E. Qed.

(** One step of the loop, on the text of the buffer and on the count. *)
Lemma visitToBuffer_names skip clusterVersion groupVersion
    (st : Summary * string) (names : list string) (resource : APIResource.t) :
  complete (snd st) names ->
  collectedCount (fst st) = Z.of_nat (length names) ->
  cleanKey (APIResource.Name resource) = true ->
  (forall yamlData,
      fetchYaml resource groupVersion = inr yamlData -> markerFree yamlData = true) ->
  Z.of_nat (length (names ++ if fetched skip clusterVersion groupVersion resource
                             then [APIResource.Name resource] else [])) < 2 ^ 63 ->
  complete (snd (visitToBuffer skip clusterVersion groupVersion st resource))
           (names ++ if fetched skip clusterVersion groupVersion resource
                     then [APIResource.Name resource] else [])
  /\ collectedCount (fst (visitToBuffer skip clusterVersion groupVersion st resource))
     = Z.of_nat (length (names ++ if fetched skip clusterVersion groupVersion resource
                                  then [APIResource.Name resource] else [])).
Proof.
  destruct st as [c buffer]. cbn [fst snd]. intros Hbuf Hcount Hclean Hfree.
  unfold visitToBuffer, fetched.
  destruct (collectable resource); cbn [negb andb];
    [| intros _; now rewrite app_nil_r].
  destruct (skipDecision skip clusterVersion resource groupVersion); cbn [negb andb];
    [intros _; now rewrite app_nil_r|].
  destruct (fetchYaml resource groupVersion) as [e|yamlData] eqn:Ef.
  - unfold collectResourceToBuffer. rewrite Ef.
    intros _. now rewrite app_nil_r.
  - rewrite (collectResourceToBuffer_fetched _ _ _ _ Ef). intros Hbound.
    cbn [fst snd]. apply cleanKey_spec in Hclean as [Hline Htrim].
    split.
    + intros rest.
      replace ((((buffer +:+ marker +:+ APIResource.Name resource +:+ "
") +:+ yamlData) +:+ "
") +:+ rest)
        with (buffer +:+ ((marker +:+ APIResource.Name resource) +:+ String "010"
                            (yamlData +:+ String "010" rest)))
        by (rewrite !str_app_assoc; reflexivity).
      rewrite (complete_line _ _ _ _ Hbuf Hline), parseResources_newline, Htrim.
      now rewrite (parseResources_markerFree _ (Hfree _ eq_refl)).
    + rewrite length_app in *. cbn [length] in *. cbn [collected collectedCount].
      rewrite Hcount. rewrite wrap64_small; [lia|].
      change (2 ^ 63) with 9223372036854775808 in *. lia.
Qed.

Lemma inner_names skip clusterVersion groupVersion
    (resources : list APIResource.t) (st : Summary * string) (names : list string) :
  complete (snd st) names ->
  collectedCount (fst st) = Z.of_nat (length names) ->
  (forall resource, resource ∈ resources ->
                    cleanKey (APIResource.Name resource) = true) ->
  (forall resource groupVersion yamlData,
      fetchYaml resource groupVersion = inr yamlData -> markerFree yamlData = true) ->
  Z.of_nat (length (names ++ map APIResource.Name
                      (List.filter (fetched skip clusterVersion groupVersion)
                                   resources))) < 2 ^ 63 ->
  complete (snd (foldl (visitToBuffer skip clusterVersion groupVersion) st resources))
           (names ++ map APIResource.Name
              (List.filter (fetched skip clusterVersion groupVersion) resources))
  /\ collectedCount
       (fst (foldl (visitToBuffer skip clusterVersion groupVersion) st resources))
     = Z.of_nat (length (names ++ map APIResource.Name
                           (List.filter (fetched skip clusterVersion groupVersion)
                                        resources))).
Proof.
  revert st names.
  induction resources as [|r resources IH]; intros st names Hbuf Hcount Hclean Hfree;
    cbn [foldl List.filter].
  - intros _. cbn [map]. now rewrite app_nil_r.
  - intros Hbound.
    assert (Hr : cleanKey (APIResource.Name r) = true) by (apply Hclean; now left).
    pose proof (visitToBuffer_names skip clusterVersion groupVersion st names r
                  Hbuf Hcount Hr (Hfree r groupVersion)) as Hstep.
    destruct (fetched skip clusterVersion groupVersion r); cbn [map] in *.
    + replace (names ++ APIResource.Name r
                 :: map APIResource.Name
                      (List.filter (fetched skip clusterVersion groupVersion) resources))
        with ((names ++ [APIResource.Name r])
                ++ map APIResource.Name
                     (List.filter (fetched skip clusterVersion groupVersion) resources))
        in * by (now rewrite <- app_assoc).
      destruct Hstep as [Hb Hc].
      { rewrite !length_app in *. cbn [length] in *. lia. }
      apply IH; auto. intros x Hx. apply Hclean. now right.
    + rewrite app_nil_r in Hstep. destruct Hstep as [Hb Hc].
      { rewrite !length_app in *. lia. }
      apply IH; auto. intros x Hx. apply Hclean. now right.
Qed.

Lemma outer_names skip clusterVersion
    (resources : list APIResourceList.t) (st : Summary * string) (names : list string) :
  complete (snd st) names ->
  collectedCount (fst st) = Z.of_nat (length names) ->
  (forall resourceList resource,
      resourceList ∈ resources ->
      resource ∈ APIResourceList.APIResources resourceList ->
      cleanKey (APIResource.Name resource) = true) ->
  (forall resource groupVersion yamlData,
      fetchYaml resource groupVersion = inr yamlData -> markerFree yamlData = true) ->
  Z.of_nat (length (names ++ fetchedNames skip clusterVersion resources)) < 2 ^ 63 ->
  complete
    (snd (foldl (fun st resourceList =>
                   foldl (visitToBuffer skip clusterVersion
                            (APIResourceList.GroupVersion resourceList))
                         st (APIResourceList.APIResources resourceList))
                st resources))
    (names ++ fetchedNames skip clusterVersion resources)
  /\ collectedCount
       (fst (foldl (fun st resourceList =>
                      foldl (visitToBuffer skip clusterVersion
                               (APIResourceList.GroupVersion resourceList))
                            st (APIResourceList.APIResources resourceList))
                   st resources))
     = Z.of_nat (length (names ++ fetchedNames skip clusterVersion resources)).
Proof.
  revert st names.
  induction resources as [|rl resources IH];
    intros st names Hbuf Hcount Hclean Hfree Hbound;
    cbn [foldl fetchedNames flat_map] in *.
  - rewrite app_nil_r. now split.
  - rewrite app_assoc in *.
    destruct (inner_names skip clusterVersion (APIResourceList.GroupVersion rl)
                (APIResourceList.APIResources rl) st names Hbuf Hcount
                (fun r Hr => Hclean rl r (list_elem_of_here _ _) Hr) Hfree)
      as [Hb Hc].
    { rewrite !length_app in *. lia. }
    apply IH; auto.
    intros rl' r Hrl Hr. apply (Hclean rl' r); [now right | exact Hr].
Qed.

(** X12.  In the single file of a live collection [parseResources] reads
    back the names of the resources that were fetched, and of no other, in
    the order of discovery, and the summary counts as many as collected.  A
    resource that is skipped, not collectable or not fetched leaves no
    trace in the file.  This holds when the names are clean, the YAML has no
    line beginning with the marker, and the file can be written.  The name
    alone is in the marker, so two groups with a resource of the same name
    give that name twice. *)
Theorem live_single_file_lists_the_fetched_names
    (resources : list APIResourceList.t) (output : string) (w : World) :
  ServerPreferredResources = Some resources ->
  Writable output = true ->
  (forall resourceList resource,
      resourceList ∈ resources ->
      resource ∈ APIResourceList.APIResources resourceList ->
      cleanKey (APIResource.Name resource) = true) ->
  (forall resource groupVersion yamlData,
      fetchYaml resource groupVersion = inr yamlData -> markerFree yamlData = true) ->
  Z.of_nat (length (fetchedNames Deprecation.shouldSkipResource detected resources))
  < 2 ^ 63 ->
  exists c text,
    collectAllResourcesToSingleFile output w
    = (inr c, mkWorld (<[output := text]> (files w)) (clock w))
    /\ parseResources text
       = fetchedNames Deprecation.shouldSkipResource detected resources
    /\ collectedCount c
       = Z.of_nat (length (fetchedNames Deprecation.shouldSkipResource detected
                             resources)).
Proof.
  intros Hr Hw Hclean Hfree Hbound.
  unfold collectAllResourcesToSingleFile, collectAllResourcesToSingleFileWith.
  rewrite Hr. fold detected.
  destruct (outer_names Deprecation.shouldSkipResource detected resources
              (noneYet, EmptyString) [] complete_empty eq_refl Hclean Hfree Hbound)
    as [Hb Hc].
  cbn [app] in Hb, Hc.
  destruct (foldl _ (noneYet, EmptyString) resources) as [c buffer].
  cbn [fst snd] in Hb, Hc. unfold WriteFile. rewrite Hw.
  exists c, buffer. split; [reflexivity | split; [|exact Hc]].
  specialize (Hb EmptyString). rewrite str_app_empty_r in Hb. rewrite Hb.
  rewrite parseResources_empty. apply app_nil_r.
Qed.

Lemma collectResource_elsewhere (resource : APIResource.t)
    (groupVersion outputDir : string) (w : World) (path : string) :
  path <> Join outputDir (formatFilename (APIResource.Name resource) groupVersion) ->
  files (snd (collectResource resource groupVersion outputDir w)) !! path
  = files w !! path.
Proof.
  intros Hne. unfold collectResource.
  destruct (fetchYaml resource groupVersion) as [e|yamlData]; [reflexivity|].
  unfold formatHeader, Now, WriteFile. cbn [files clock].
  destruct (Writable _); cbn [snd files].
  - rewrite lookup_insert_ne; [reflexivity | congruence].
  - now rewrite afterShortWrite_elsewhere.
Qed.

Lemma visitToDirectory_elsewhere skip clusterVersion outputDir groupVersion
    (st : Summary * World) (resource : APIResource.t) (path : string) :
  path <> Join outputDir (formatFilename (APIResource.Name resource) groupVersion) ->
  files (snd (visitToDirectory skip clusterVersion outputDir groupVersion st resource))
    !! path
  = files (snd st) !! path.
Proof.
  intros Hne. unfold visitToDirectory. destruct st as [c w].
  destruct (negb (collectable resource)); [reflexivity|].
  destruct (skipDecision _ _ _ _); [reflexivity|].
  pose proof (collectResource_elsewhere resource groupVersion outputDir w path Hne) as E.
  destruct (collectResource resource groupVersion outputDir w) as [[e|] w'];
    exact E.
Qed.

(** X13.  A collection writes nowhere else.  [collectResources] leaves every
    path as it was but the paths made of the output directory and the file
    name of a discovered resource; [collectAllResourcesToSingleFile] leaves
    every path as it was but the output file. *)
Theorem collection_writes_nowhere_else (output : string) (w : World) (path : string) :
  ((forall resources,
       ServerPreferredResources = Some resources ->
       path ∉ outputPaths output resources) ->
   files (snd (collectResources output w)) !! path = files w !! path)
  /\ (path <> output ->
      files (snd (collectAllResourcesToSingleFile output w)) !! path
      = files w !! path).
Proof.
  split.
  - intros Hpath. unfold collectResources, collectResourcesWith.
    destruct ServerPreferredResources as [resources|]; [|reflexivity].
    specialize (Hpath resources eq_refl). fold detected.
    assert (Hfold : forall l (st : Summary * World),
               path ∉ outputPaths output l ->
               files (snd (foldl (fun st resourceList =>
                                    foldl (visitToDirectory Deprecation.shouldSkipResource
                                             detected output
                                             (APIResourceList.GroupVersion resourceList))
                                          st (APIResourceList.APIResources resourceList))
                                 st l)) !! path
               = files (snd st) !! path).
    { induction l as [|rl l IH]; intros st Hnot; [reflexivity|].
      cbn [foldl outputPaths flat_map] in *. rewrite IH.
      - assert (Hin : forall rs (st' : Summary * World),
                   path ∉ map (fun resource =>
                                 Join output
                                      (formatFilename (APIResource.Name resource)
                                         (APIResourceList.GroupVersion rl))) rs ->
                   files (snd (foldl (visitToDirectory Deprecation.shouldSkipResource
                                        detected output
                                        (APIResourceList.GroupVersion rl)) st' rs))
                     !! path
                   = files (snd st') !! path).
        { induction rs as [|r rs IHr]; intros st' Hrs; [reflexivity|].
          cbn [foldl map] in *. rewrite IHr.
          - apply visitToDirectory_elsewhere. intros ->. apply Hrs. now left.
          - intros Hx. apply Hrs. now right. }
        apply Hin. intros Hx. apply Hnot. apply elem_of_app. now left.
      - intros Hx. apply Hnot. apply elem_of_app. now right. }
    specialize (Hfold resources (noneYet, w) Hpath).
    destruct (foldl _ (noneYet, w) resources) as [c w']. exact Hfold.
  - intros Hne.
    unfold collectAllResourcesToSingleFile, collectAllResourcesToSingleFileWith.
    destruct ServerPreferredResources as [resources|]; [|reflexivity].
    destruct (foldl _ (noneYet, EmptyString) resources) as [c buffer].
    unfold WriteFile. destruct (Writable output); cbn [snd files].
    + now rewrite lookup_insert_ne by congruence.
    + now rewrite afterShortWrite_elsewhere.
Qed.

End LiveFacts.

(** ** The three lists of the diff *)

Section DiffListFacts.
Import Diff.

Lemma findUniqueResources_NoDup (set1 set2 : list string) :
  NoDup set1 -> NoDup (findUniqueResources set1 set2).
Proof.
  intros Hnd. rewrite findUniqueResources_filter.
  now apply NoDup_ListNoDup, List.NoDup_filter, NoDup_ListNoDup.
Qed.

(** X14.  Nothing is only in the first snapshot exactly when every name of
    the first is in the second.  So the diff of a snapshot with itself has
    two empty lists, and its common names are the names of the snapshot. *)
Theorem findUniqueResources_empty_when_contained (set1 set2 : list string) :
  (findUniqueResources set1 set2 = [] <-> forall x, x ∈ set1 -> x ∈ set2)
  /\ findUniqueResources set1 set1 = []
  /\ (forall x, x ∈ findCommonResources set1 set1 <-> x ∈ set1).
Proof.
  assert (Hiff : forall s1 s2,
             findUniqueResources s1 s2 = [] <-> forall x, x ∈ s1 -> x ∈ s2).
  { intros s1 s2. split.
    - intros E x Hx. destruct (decide (x ∈ s2)) as [Hin|Hout]; [exact Hin|].
      assert (Hu : x ∈ findUniqueResources s1 s2)
        by now apply findUniqueResources_difference.
      rewrite E in Hu. now apply elem_of_nil in Hu.
    - intros Hsub. destruct (findUniqueResources s1 s2) as [|x l] eqn:E;
        [reflexivity|].
      assert (Hu : x ∈ findUniqueResources s1 s2) by (rewrite E; now left).
      apply findUniqueResources_difference in Hu as [H1 H2].
      now specialize (Hsub x H1). }
  split; [apply Hiff | split].
  - now apply Hiff.
  - intros x. rewrite (proj2 (findCommonResources_intersection set1 set1) x). tauto.
Qed.

(** X15.  When no name occurs twice in the first snapshot, its names are
    the names only in it together with the common names, each once: the
    totals of the report add up.  With repetitions in the first snapshot
    the two counts together can only fall short of its total. *)
Theorem unique_and_common_names_make_the_first (set1 set2 : list string) :
  (NoDup set1 ->
   set1 ≡ₚ findUniqueResources set1 set2 ++ findCommonResources set1 set2
   /\ length set1
      = (length (findUniqueResources set1 set2)
         + length (findCommonResources set1 set2))%nat)
  /\ (length (findUniqueResources set1 set2)
      + length (findCommonResources set1 set2) <= length set1)%nat.
Proof.
  destruct (findCommonResources_intersection set1 set2) as [Hcnd Hcmem].
  split.
  - intros Hnd.
    assert (Hp : set1 ≡ₚ findUniqueResources set1 set2
                         ++ findCommonResources set1 set2).
    { apply NoDup_Permutation; [exact Hnd | |].
      - apply NoDup_app. split; [now apply findUniqueResources_NoDup|].
        split; [|exact Hcnd].
        intros x Hu Hc. apply findUniqueResources_difference in Hu as [_ Hu].
        apply Hcmem in Hc as [_ Hc]. contradiction.
      - intros x. rewrite elem_of_app, findUniqueResources_difference, Hcmem.
        destruct (decide (x ∈ set2)); tauto. }
    split; [exact Hp|]. rewrite Hp at 1. apply length_app.
  - rewrite findUniqueResources_filter.
    assert (Hle : (length (findCommonResources set1 set2)
                   <= length (List.filter (fun item => readBool (makeSet set2) item)
                                          set1))%nat).
    { apply submseteq_length, NoDup_submseteq; [exact Hcnd|].
      intros x Hx. apply Hcmem in Hx as [H1 H2].
      apply list_elem_of_In, filter_In. split; [now apply list_elem_of_In|].
      now apply readBool_makeSet. }
    pose proof (List.filter_length (fun item => readBool (makeSet set2) item) set1)
      as Hsum.
    lia.
Qed.

Lemma unique_and_common_names_make_the_first_witness :
  ["pods"; "services"] ≡ₚ findUniqueResources ["pods"; "services"] ["pods"; "configmaps"]
                          ++ findCommonResources ["pods"; "services"]
                               ["pods"; "configmaps"]
  /\ length ["pods"; "services"]
     = (length (findUniqueResources ["pods"; "services"] ["pods"; "configmaps"])
        + length (findCommonResources ["pods"; "services"] ["pods"; "configmaps"]))%nat.
Proof.
  apply (proj1 (unique_and_common_names_make_the_first
                  ["pods"; "services"] ["pods"; "configmaps"])).
  apply NoDup_cons. split.
  - intros Hin. apply list_elem_of_singleton in Hin. discriminate Hin.
  - apply NoDup_singleton.
Defined.

(** X16.  The common names do not depend on which snapshot comes first:
    the two lists have the same names, each once, so the same length. *)
Theorem findCommonResources_is_symmetric (set1 set2 : list string) :
  findCommonResources set1 set2 ≡ₚ findCommonResources set2 set1
  /\ length (findCommonResources set1 set2) = length (findCommonResources set2 set1).
Proof.
  destruct (findCommonResources_intersection set1 set2) as [Hnd1 Hmem1].
  destruct (findCommonResources_intersection set2 set1) as [Hnd2 Hmem2].
  assert (Hp : findCommonResources set1 set2 ≡ₚ findCommonResources set2 set1).
  { apply NoDup_Permutation; [exact Hnd1 | exact Hnd2|].
    intros x. rewrite Hmem1, Hmem2. tauto. }
  split; [exact Hp | now rewrite Hp].
Qed.

End DiffListFacts.

(** ** The further properties on the sample data *)

Section FurtherSamples.
Import MustGather Collector Diff Shape Examples Samples.

(** X8 on the sample OpenShift cluster: Kubernetes 1.29 is OpenShift 4.16. *)
Lemma detected_version_maps_minor_to_openshift_witness :
  ClusterVersion.OpenShiftMajor openshiftVersion = 4
  /\ ClusterVersion.OpenShiftMinor openshiftVersion
     = if ClusterVersion.Minor openshiftVersion >=? 27
       then ClusterVersion.Minor openshiftVersion - 13 else 0.
Proof.
  exact (proj1 (proj2 (proj2 (proj2
           (@detected_version_maps_minor_to_openshift openshift openshiftVersion
              eq_refl)))) eq_refl).
Defined.

(** X11 on the sample OpenShift cluster. *)
Lemma detected_openshift_skips_deploymentconfigs_from_minor_27_witness :
  fst (Deprecation.shouldSkipResource
         (APIResource.mk "deploymentconfigs" ["get"; "list"])
         "apps.openshift.io/v1" openshiftVersion) = true
  <-> ClusterVersion.IsOpenShift openshiftVersion = true
      /\ 27 <= ClusterVersion.Minor openshiftVersion.
Proof.
  exact (@detected_openshift_skips_deploymentconfigs_from_minor_27 openshift
           openshiftVersion (APIResource.mk "deploymentconfigs" ["get"; "list"])
           eq_refl eq_refl).
Defined.

(** X12 on the sample cluster without a version: the pods and the
    endpoints are fetched, the services are not. *)
Lemma live_single_file_lists_the_fetched_names_witness :
  exists c text,
    @collectAllResourcesToSingleFile sampleYaml unversioned sampleHost
      "/out/all.yaml" emptyWorld
    = (inr c, mkWorld (<["/out/all.yaml" := text]> (files emptyWorld))
                (clock emptyWorld))
    /\ parseResources text = ["pods"; "endpoints"]
    /\ collectedCount c = 2.
Proof.
  apply (@live_single_file_lists_the_fetched_names sampleYaml unversioned sampleHost
           [coreResources] "/out/all.yaml" emptyWorld).
  - reflexivity.
  - reflexivity.
  - intros resourceList resource Hl Hr.
    apply list_elem_of_singleton in Hl. subst resourceList.
    cbn [coreResources APIResourceList.APIResources] in Hr.
    repeat (apply elem_of_cons in Hr as [-> | Hr]; [reflexivity|]).
    now apply elem_of_nil in Hr.
  - intros resource groupVersion yamlData. unfold fetchYaml.
    destruct (ParseGroupVersion groupVersion) as [[group version]|]; [|discriminate].
    destruct (List group version (APIResource.Name resource)); [|discriminate].
    cbn [Marshal sampleYaml]. intros [= <-]. reflexivity.
  - vm_compute. reflexivity.
Defined.

(** X13 on the sample cluster: the collection to [/out/all.yaml] leaves
    [/etc/hosts] as it was. *)
Lemma collection_writes_nowhere_else_witness :
  files (snd (@collectAllResourcesToSingleFile sampleYaml unversioned sampleHost
                "/out/all.yaml" emptyWorld)) !! "/etc/hosts"
  = files emptyWorld !! "/etc/hosts".
Proof.
  apply (proj2 (@collection_writes_nowhere_else sampleYaml unversioned sampleHost
                  "/out/all.yaml" emptyWorld "/etc/hosts")).
  discriminate.
Defined.

End FurtherSamples.

(** ** The names of the snapshots *)

Section NameFacts.
Import Modes Shape ModeShape.

Lemma safeNameByte_dash : unsafeNameByte "-" = false.
Proof. reflexivity. Qed.

Lemma safeNameByte_not_slash (c : ascii) :
  safeNameByte c = true -> Ascii.eqb c "/" = false.
Proof.
  intros Hc. destruct (Ascii.eqb_spec c "/") as [->|]; [discriminate Hc | reflexivity].
Qed.

Lemma sanitizeClusterName_safe (name : string) :
  everyByte safeNameByte (sanitizeClusterName name) = true.
Proof.
  induction name as [|c name IH]; [reflexivity|].
  cbn [sanitizeClusterName everyByte]. rewrite IH, andb_true_r.
  unfold safeNameByte. destruct (unsafeNameByte c) eqn:E; [reflexivity|].
  now rewrite E.
Qed.

Lemma sanitizeClusterName_length (name : string) :
  String.length (sanitizeClusterName name) = String.length name.
Proof. induction name as [|c name IH]; simpl; congruence. Qed.

Lemma sanitizeClusterName_fixed (name : string) :
  sanitizeClusterName name = name <-> everyByte safeNameByte name = true.
Proof.
  induction name as [|c name IH]; [easy|].
  cbn [sanitizeClusterName everyByte]. rewrite andb_true_iff, <- IH.
  unfold safeNameByte. destruct (unsafeNameByte c) eqn:E; cbn [negb].
  - split; [| intros [[=] _]]. intros [= Hc _]. subst c. discriminate E.
  - split; [intros [= Hn]; split; [reflexivity | exact Hn]
          | intros [_ Hn]; now rewrite Hn].
Qed.

Lemma everyByte_safeName_no_slash (s : string) :
  everyByte safeNameByte s = true -> Contains s "/" = false.
Proof.
  induction s as [|c s IH]; intros H; [reflexivity|].
  cbn [everyByte] in H. apply andb_true_iff in H as [Hc Hs].
  cbn [Contains HasPrefix]. now rewrite (safeNameByte_not_slash c Hc), (IH Hs).
Qed.

(** X17.  [sanitizeClusterName] keeps the length of a name and leaves in it
    none of the eleven bytes of its replacer, so no slash and no dot: the
    name of a snapshot stays in the comparison directory, and its only dot
    is that of the extension.  It changes nothing in a name without such a
    byte, and nothing when applied again. *)
Theorem sanitizeClusterName_gives_a_plain_name (name : string) :
  everyByte safeNameByte (sanitizeClusterName name) = true
  /\ Contains (sanitizeClusterName name) "/" = false
  /\ String.length (sanitizeClusterName name) = String.length name
  /\ (sanitizeClusterName name = name <-> everyByte safeNameByte name = true)
  /\ sanitizeClusterName (sanitizeClusterName name) = sanitizeClusterName name.
Proof.
  pose proof (sanitizeClusterName_safe name) as Hsafe.
  split; [exact Hsafe | split; [| split; [| split]]].
  - now apply everyByte_safeName_no_slash.
  - apply sanitizeClusterName_length.
  - apply sanitizeClusterName_fixed.
  - now apply sanitizeClusterName_fixed.
Qed.

(** X18.  The names the snapshots are called by.  A must-gather is never
    called [.] or [/].  A cluster name that [getClusterName] returns is not
    empty: it is the cluster of the current context, or the name of that
    context when the context names no cluster; so the file name made of it
    is not the bare suffix. *)
Theorem snapshot_names_are_proper :
  (forall `{Os} (path : string),
      getMustGatherName path <> "." /\ getMustGatherName path <> "/")
  /\ (forall `{ClientGo} (kubeconfigPath name : string),
        getClusterName kubeconfigPath = inr name ->
        name <> EmptyString
        /\ sanitizeClusterName name <> EmptyString
        /\ exists config cluster,
             LoadFromFile kubeconfigPath = Some config
             /\ KubeConfig.Contexts config !! KubeConfig.CurrentContext config
                = Some cluster
             /\ name = if Deprecation.isEmpty cluster
                       then KubeConfig.CurrentContext config else cluster).
Proof.
  split.
  - intros os path. unfold getMustGatherName.
    destruct (Contains (Base path) "must-gather") eqn:Hc.
    + split; intros E; rewrite E in Hc; discriminate Hc.
    + destruct (Abs path) as [absPath|].
      * destruct (String.eqb_spec (Base absPath) ".") as [E1|N1]; cbn [orb].
        { split; discriminate. }
        destruct (String.eqb_spec (Base absPath) "/") as [E2|N2].
        { split; discriminate. }
        split; assumption.
      * destruct (String.eqb_spec (Base path) ".") as [E1|N1]; cbn [orb].
        { split; discriminate. }
        destruct (String.eqb_spec (Base path) "/") as [E2|N2].
        { split; discriminate. }
        split; assumption.
  - intros cg kubeconfigPath name. unfold getClusterName.
    destruct (LoadFromFile kubeconfigPath) as [config|]; [|discriminate].
    destruct (Deprecation.isEmpty (KubeConfig.CurrentContext config)) eqn:Hctx;
      [discriminate|].
    destruct (KubeConfig.Contexts config !! KubeConfig.CurrentContext config)
      as [cluster|] eqn:Hl; [|discriminate].
    intros Hname.
    assert (Hne : name <> EmptyString).
    { destruct (Deprecation.isEmpty cluster) eqn:Hcl; cbn [negb] in Hname;
        injection Hname as <-; intros E.
      - rewrite E in Hctx. discriminate Hctx.
      - rewrite E in Hcl. discriminate Hcl. }
    split; [exact Hne | split].
    + intros E. apply Hne. pose proof (sanitizeClusterName_length name) as Hlen.
      rewrite E in Hlen. destruct name; [reflexivity | discriminate Hlen].
    + exists config, cluster. split; [reflexivity | split; [exact Hl|]].
      destruct (Deprecation.isEmpty cluster); cbn [negb] in Hname; congruence.
Qed.

End NameFacts.


(** ** The report of a comparison *)

Section ReportFacts.
Import Diff Modes ModeShape.
Context `{Host}.

Lemma findUniqueResources_nil (set1 set2 : list string) :
  (forall x, x ∈ set1 -> x ∈ set2) -> findUniqueResources set1 set2 = [].
Proof.
  intros Hsub. rewrite findUniqueResources_filter.
  induction set1 as [|a l IH]; [reflexivity|]. cbn [List.filter].
  assert (Ha : readBool (makeSet set2) a = true).
  { apply readBool_makeSet, Hsub. now left. }
  rewrite Ha. cbn [negb]. apply IH. intros x Hx. apply Hsub. now right.
Qed.

Lemma report_same_names (cluster1Name cluster2Name now : string)
    (resources1 resources2 : list string) :
  (forall x, x ∈ resources1 <-> x ∈ resources2) ->
  report cluster1Name cluster2Name now resources1 resources2
  = reportOfSameNames cluster1Name cluster2Name now resources1 resources2.
Proof.
  intros Hsame. unfold report, reportOfSameNames.
  rewrite !findUniqueResources_nil by (intros x; apply Hsame).
  reflexivity.
Qed.

Lemma generateDiff_success
    (file1 file2 outputFile cluster1Name cluster2Name : string) (w w' : World) :
  generateDiff file1 file2 outputFile cluster1Name cluster2Name w = (None, w') ->
  exists content1 content2,
    ReadFile w file1 = Some content1 /\ ReadFile w file2 = Some content2
    /\ Writable outputFile = true
    /\ w' = mkWorld
              (<[outputFile :=
                   report cluster1Name cluster2Name (timeAt (clock w))
                     (parseResources content1) (parseResources content2)]>
                 (files w))
              (S (clock w)).
Proof.
  unfold generateDiff, Now, WriteFile.
  destruct (ReadFile w file1) as [content1|]; [|discriminate].
  destruct (ReadFile w file2) as [content2|]; [|discriminate].
  cbn [files clock]. destruct (Writable outputFile); [|discriminate].
  intros [= <-]. now exists content1, content2.
Qed.

(** X19.  Two snapshots with the same names, in any order and however
    often, have nothing that is only in one of them, and their report has
    no part that lists such names.  The report compares the names of the
    resource types, not what is in the snapshots. *)
Theorem report_of_same_names_shows_no_difference
    (cluster1Name cluster2Name now : string) (resources1 resources2 : list string) :
  (forall x, x ∈ resources1 <-> x ∈ resources2) ->
  findUniqueResources resources1 resources2 = []
  /\ findUniqueResources resources2 resources1 = []
  /\ report cluster1Name cluster2Name now resources1 resources2
     = reportOfSameNames cluster1Name cluster2Name now resources1 resources2.
Proof.
  intros Hsame. split; [| split].
  - apply findUniqueResources_nil. intros x. apply Hsame.
  - apply findUniqueResources_nil. intros x. apply Hsame.
  - now apply report_same_names.
Qed.

(** X20.  [generateDiff] succeeds exactly when both snapshots can be read
    and the report can be written.  It reads both before it reads the clock
    or writes: when one of them cannot be read, it leaves the world as it
    was.  It changes no file but the report.  When the write of the report
    fails it returns that error, and the report file is as it was if it
    could not be opened, and else holds the bytes of the report that
    reached it. *)
Theorem generateDiff_changes_the_report_file_only
    (file1 file2 outputFile cluster1Name cluster2Name : string) (w : World) :
  (fst (generateDiff file1 file2 outputFile cluster1Name cluster2Name w) = None
   <-> is_Some (ReadFile w file1) /\ is_Some (ReadFile w file2)
       /\ Writable outputFile = true)
  /\ (ReadFile w file1 = None \/ ReadFile w file2 = None ->
      snd (generateDiff file1 file2 outputFile cluster1Name cluster2Name w) = w)
  /\ (forall path, path <> outputFile ->
        files (snd (generateDiff file1 file2 outputFile cluster1Name cluster2Name w))
          !! path
        = files w !! path)
  /\ (forall content1 content2,
        ReadFile w file1 = Some content1 -> ReadFile w file2 = Some content2 ->
        let diff :=
          report cluster1Name cluster2Name (timeAt (clock w))
            (parseResources content1) (parseResources content2) in
        (Writable outputFile = true ->
         files (snd (generateDiff file1 file2 outputFile cluster1Name
                       cluster2Name w)) !! outputFile
         = Some diff)
        /\ (Writable outputFile = false ->
            fst (generateDiff file1 file2 outputFile cluster1Name cluster2Name w)
            = Some (WriteReport outputFile)
            /\ files (snd (generateDiff file1 file2 outputFile cluster1Name
                             cluster2Name w)) !! outputFile
               = match shortWrite outputFile diff with
                 | Some n => Some (substring 0 n diff)
                 | None => files w !! outputFile
                 end)).
Proof.
  unfold generateDiff, Now, WriteFile.
  destruct (ReadFile w file1) as [content1|] eqn:E1;
    [destruct (ReadFile w file2) as [content2|] eqn:E2;
       [destruct (Writable outputFile) eqn:Ew |] |];
    cbn [fst snd files clock].
  - split; [| split; [| split]].
    + split; [intros _; repeat split; eauto | reflexivity].
    + intros [[=]|[=]].
    + intros path Hne. now rewrite lookup_insert_ne by congruence.
    + intros c1 c2 [= <-] [= <-]. cbv zeta. split; [| discriminate].
      intros _. now rewrite lookup_insert_eq.
  - split; [| split; [| split]].
    + split; [discriminate | intros (_ & _ & [=])].
    + intros [[=]|[=]].
    + intros path Hne. now rewrite afterShortWrite_elsewhere.
    + intros c1 c2 [= <-] [= <-]. cbv zeta. split; [discriminate|].
      intros _. split; [reflexivity|]. unfold afterShortWrite.
      destruct (shortWrite outputFile _); cbn [files]; [|reflexivity].
      now rewrite lookup_insert_eq.
  - split; [| split; [| split]].
    + split; [discriminate | intros (_ & [x [=]] & _)].
    + reflexivity.
    + reflexivity.
    + intros c1 c2 _ [=].
  - split; [| split; [| split]].
    + split; [discriminate | intros ([x [=]] & _)].
    + reflexivity.
    + reflexivity.
    + intros c1 c2 [=].
Qed.

End ReportFacts.

(** ** The header of a file of the directory made from a must-gather *)

Section HeaderFacts.
Import MustGather Modes Shape ModeShape.

Lemma plainByte_true (c : ascii) :
  plainByte c = true -> Ascii.eqb c "-" = false /\ Ascii.eqb c "/" = false.
Proof.
  unfold plainByte. rewrite andb_true_iff, !negb_true_iff. tauto.
Qed.

Lemma plainByte_false (c : ascii) :
  plainByte c = false -> (if Ascii.eqb c "/" then "-"%char else c) = "-"%char.
Proof.
  unfold plainByte. destruct (Ascii.eqb_spec c "/") as [->|]; [reflexivity|].
  destruct (Ascii.eqb_spec c "-") as [->|]; [reflexivity | discriminate].
Qed.

Lemma cut_dash (a b : string) :
  everyByte plainByte a = true -> cut (a +:+ String "-" b) "-" = Some (a, b).
Proof.
  induction a as [|c a IH]; intros Ha.
  - reflexivity.
  - cbn [everyByte] in Ha. apply andb_true_iff in Ha as [Hc Ha].
    apply plainByte_true in Hc as [Hc _].
    rewrite str_app_cons. cbn [cut HasPrefix]. rewrite Hc. cbn [andb].
    now rewrite (IH Ha).
Qed.

Lemma ReplaceAll_plain_app (a rest : string) :
  everyByte plainByte a = true ->
  ReplaceAll (a +:+ rest) "/" "-" = a +:+ ReplaceAll rest "/" "-".
Proof.
  induction a as [|c a IH]; intros Ha; [reflexivity|].
  cbn [everyByte] in Ha. apply andb_true_iff in Ha as [Hc Ha].
  apply plainByte_true in Hc as [_ Hc].
  rewrite !str_app_cons, ReplaceAll_slash_cons, Hc. now rewrite (IH Ha).
Qed.

Lemma ReplaceAll_plain (a : string) :
  everyByte plainByte a = true -> ReplaceAll a "/" "-" = a.
Proof.
  induction a as [|c a IH]; intros Ha; [reflexivity|].
  cbn [everyByte] in Ha. apply andb_true_iff in Ha as [Hc Ha].
  apply plainByte_true in Hc as [_ Hc].
  now rewrite ReplaceAll_slash_cons, Hc, (IH Ha).
Qed.

Lemma makeResourceKey_resourceOf (apiVersion kind : string) :
  makeResourceKey apiVersion kind
  = ReplaceAll apiVersion "/" "-" +:+ String "-" (resourceOf kind).
Proof. reflexivity. Qed.

Lemma SplitN2_plain_key (apiVersion kind : string) :
  everyByte plainByte apiVersion = true ->
  SplitN2 (makeResourceKey apiVersion kind) "-" = [apiVersion; resourceOf kind].
Proof.
  intros Hp. rewrite makeResourceKey_resourceOf, (ReplaceAll_plain _ Hp).
  unfold SplitN2. now rewrite cut_dash.
Qed.

Lemma SplitN2_grouped_key (group rest kind : string) (c : ascii) :
  everyByte plainByte group = true -> plainByte c = false ->
  SplitN2 (makeResourceKey (group +:+ String c rest) kind) "-"
  = [group; ReplaceAll rest "/" "-" +:+ "-" +:+ resourceOf kind].
Proof.
  intros Hp Hc. rewrite makeResourceKey_resourceOf.
  rewrite (ReplaceAll_plain_app group _ Hp), ReplaceAll_slash_cons.
  rewrite (plainByte_false c Hc), str_app_assoc, str_app_cons.
  unfold SplitN2. now rewrite cut_dash.
Qed.

(** X21.  [processMustGatherDirectory] takes the group version and the
    resource name of a header from the key, cut at its first dash.  For
    an API version without a dash or a slash, as [v1], the two are the API
    version and the resource name.  For any other the cut is at the first
    dash or slash of the API version: the header of [apps/v1] deployments
    has the group version [apps] and the resource [v1-deployments]. *)
Theorem directory_header_is_cut_at_the_first_dash (kind : string) :
  (forall apiVersion,
      everyByte plainByte apiVersion = true ->
      SplitN2 (makeResourceKey apiVersion kind) "-"
      = [apiVersion; resourceOf kind])
  /\ (forall group c rest,
        everyByte plainByte group = true -> plainByte c = false ->
        SplitN2 (makeResourceKey (group +:+ String c rest) kind) "-"
        = [group; ReplaceAll rest "/" "-" +:+ "-" +:+ resourceOf kind]).
Proof.
  split.
  - intros apiVersion. apply SplitN2_plain_key.
  - intros group c rest. apply SplitN2_grouped_key.
Qed.

End HeaderFacts.

(** ** The directory made from a must-gather *)

Section DirectoryFacts.
Import MustGather Collector Modes Shape ModeShape.
Context `{Yaml} `{Host}.

Lemma ingest_wellKeyed (w : World) (mustGatherPath : string) :
  wellKeyed (ingest w mustGatherPath).
Proof.
  unfold ingest. apply (foldl_invariant wellKeyed); [|exact wellKeyed_empty].
  intros m e. apply visitFile_wellKeyed.
Qed.

Lemma walkFile_visitFile (w : World) (resourceMap : gmap string (list value))
    (n : nat) (e : WalkEntry.t) :
  Z.of_nat n + 1 < 2 ^ 63 ->
  walkFile w (resourceMap, Z.of_nat n) e
  = (visitFile w resourceMap e,
     Z.of_nat (n + (if unreadableYaml w e then 1 else 0))).
Proof.
  intros Hn. unfold walkFile, visitFile, unreadableYaml, yamlFile,
    processMustGatherFile.
  destruct (WalkEntry.failed e); cbn [negb andb];
    [now rewrite Nat.add_0_r|].
  destruct (WalkEntry.isDir e); cbn [negb andb];
    [now rewrite Nat.add_0_r|].
  destruct (HasSuffix (WalkEntry.path e) ".yaml"),
           (HasSuffix (WalkEntry.path e) ".yml"); cbn [negb andb orb];
    try (now rewrite Nat.add_0_r);
    (destruct (ReadFile w (WalkEntry.path e)); cbn [snd];
     [now rewrite Nat.add_0_r
     | rewrite wrap64_small by lia; f_equal; lia]).
Qed.

Lemma walk_counts (w : World) (entries : list WalkEntry.t)
    (resourceMap : gmap string (list value)) (n : nat) :
  Z.of_nat n + Z.of_nat (length entries) < 2 ^ 63 ->
  foldl (walkFile w) (resourceMap, Z.of_nat n) entries
  = (foldl (visitFile w) resourceMap entries,
     Z.of_nat (n + length (List.filter (unreadableYaml w) entries))).
Proof.
  revert resourceMap n.
  induction entries as [|e entries IH]; intros resourceMap n Hn.
  - cbn [foldl List.filter length]. now rewrite Nat.add_0_r.
  - cbn [foldl List.filter length] in *.
    rewrite walkFile_visitFile by lia. rewrite IH.
    + f_equal. f_equal. destruct (unreadableYaml w e); cbn [length]; lia.
    + destruct (unreadableYaml w e); lia.
Qed.

Lemma afterShortWrite_keeps (path content p : string) (w : World) :
  is_Some (files w !! p) -> is_Some (files (afterShortWrite path content w) !! p).
Proof.
  intros Hp. unfold afterShortWrite.
  destruct (shortWrite path content); cbn [files]; [|exact Hp].
  destruct (decide (path = p)) as [->|Hne].
  - rewrite lookup_insert_eq. eauto.
  - now rewrite lookup_insert_ne.
Qed.

Lemma writeKey_step (outputPath : string) (resourceMap : gmap string (list value))
    (c e : nat) (w : World) (key : string) :
  hasItems resourceMap key = true ->
  Z.of_nat c + Z.of_nat e + 1 < 2 ^ 63 ->
  exists w',
    writeKey outputPath resourceMap (Z.of_nat c, Z.of_nat e, w) key
    = (if writtenKey outputPath resourceMap key
       then (Z.of_nat (S c), Z.of_nat e, w')
       else (Z.of_nat c, Z.of_nat (S e), w'))
    /\ (forall p, is_Some (files w !! p) -> is_Some (files w' !! p))
    /\ (writtenKey outputPath resourceMap key = true ->
        is_Some (files w' !! keyPath outputPath key)).
Proof.
  intros Hitems Hn. unfold hasItems in Hitems. apply negb_true_iff in Hitems.
  unfold writeKey, writtenKey, keyPath. rewrite Hitems.
  destruct (Marshal (listOf (default [] (resourceMap !! key)))) as [yamlData|].
  - unfold formatHeader, Now, WriteFile.
    destruct (Writable (Join outputPath (key +:+ ".yaml"))); cbn [files clock].
    + eexists. split; [| split].
      * rewrite wrap64_small by lia. f_equal. f_equal. lia.
      * intros p Hp. cbn [files].
        destruct (decide (Join outputPath (key +:+ ".yaml") = p)) as [->|Hne].
        -- rewrite lookup_insert_eq. eauto.
        -- now rewrite lookup_insert_ne.
      * intros _. cbn [files]. rewrite lookup_insert_eq. eauto.
    + eexists. split; [| split].
      * rewrite wrap64_small by lia. f_equal. f_equal. lia.
      * intros p Hp. now apply afterShortWrite_keeps.
      * discriminate.
  - exists w. split; [| split].
    + rewrite wrap64_small by lia. f_equal. f_equal. lia.
    + intros p Hp. exact Hp.
    + discriminate.
Qed.

Lemma write_counts (outputPath : string) (resourceMap : gmap string (list value))
    (keys : list string) (c e : nat) (w : World) :
  (forall key, key ∈ keys -> hasItems resourceMap key = true) ->
  Z.of_nat c + Z.of_nat e + Z.of_nat (length keys) < 2 ^ 63 ->
  exists w',
    foldl (writeKey outputPath resourceMap) (Z.of_nat c, Z.of_nat e, w) keys
    = (Z.of_nat (c + length (List.filter (writtenKey outputPath resourceMap) keys)),
       Z.of_nat (e + length (List.filter
                               (fun key => negb (writtenKey outputPath resourceMap key))
                               keys)),
       w')
    /\ (forall p, is_Some (files w !! p) -> is_Some (files w' !! p))
    /\ (forall key, key ∈ keys -> writtenKey outputPath resourceMap key = true ->
        is_Some (files w' !! keyPath outputPath key)).
Proof.
  revert c e w. induction keys as [|key keys IH]; intros c e w Hitems Hn.
  - exists w. cbn [foldl List.filter length]. rewrite !Nat.add_0_r.
    split; [reflexivity | split; [auto|]]. intros key Hkey.
    now apply elem_of_nil in Hkey.
  - cbn [foldl List.filter length] in *.
    destruct (writeKey_step outputPath resourceMap c e w key) as (w1 & E & Hmono & Hw);
      [apply Hitems; now left | lia |].
    rewrite E.
    destruct (writtenKey outputPath resourceMap key) eqn:Ek; cbn [negb].
    + destruct (IH (S c) e w1) as (w' & E' & Hmono' & Hw');
        [intros k Hk; apply Hitems; now right | lia |].
      exists w'. split; [| split].
      * rewrite E'. cbn [length]. f_equal. f_equal. f_equal. lia.
      * intros p Hp. apply Hmono', Hmono, Hp.
      * intros k Hk Hwk. apply elem_of_cons in Hk as [->|Hk].
        -- apply Hmono', Hw. reflexivity.
        -- now apply Hw'.
    + destruct (IH c (S e) w1) as (w' & E' & Hmono' & Hw');
        [intros k Hk; apply Hitems; now right | lia |].
      exists w'. split; [| split].
      * rewrite E'. cbn [length]. f_equal. f_equal. lia.
      * intros p Hp. apply Hmono', Hmono, Hp.
      * intros k Hk Hwk. apply elem_of_cons in Hk as [->|Hk].
        -- congruence.
        -- now apply Hw'.
Qed.

Lemma rangeOrder_length (resourceMap : gmap string (list value))
    (keys : list string) :
  rangeOrder resourceMap keys -> length keys = size resourceMap.
Proof.
  unfold rangeOrder. intros ->. now rewrite length_fmap, length_map_to_list.
Qed.

(** X22.  [processMustGatherDirectory] counts every key of the inventory
    once, as collected or as an error, and every YAML file that cannot be
    read as an error; the inventory is that of
    [processMustGatherToSingleFile].  A key is collected exactly when its
    list can be marshalled and its file written, and then the file is
    there; no file that was there is lost.  No key is passed over for an
    empty list, and no counter wraps around. *)
Theorem processMustGatherDirectory_counts_every_key_once
    (order : gmap string (list value) -> list string)
    (mustGatherPath outputPath : string) (w : World) :
  rangeOrder (ingest w mustGatherPath) (order (ingest w mustGatherPath)) ->
  Z.of_nat (length (Walk mustGatherPath))
  + Z.of_nat (size (ingest w mustGatherPath)) < 2 ^ 63 ->
  exists collectedCount errorCount w',
    processMustGatherDirectory order mustGatherPath outputPath w
    = (collectedCount, errorCount, w')
    /\ collectedCount
       = Z.of_nat (length (List.filter
                             (writtenKey outputPath (ingest w mustGatherPath))
                             (order (ingest w mustGatherPath))))
    /\ collectedCount + errorCount
       = Z.of_nat (size (ingest w mustGatherPath))
         + Z.of_nat (length (List.filter (unreadableYaml w) (Walk mustGatherPath)))
    /\ (forall key,
          is_Some (ingest w mustGatherPath !! key) ->
          writtenKey outputPath (ingest w mustGatherPath) key = true ->
          is_Some (files w' !! keyPath outputPath key))
    /\ (forall p, is_Some (files w !! p) -> is_Some (files w' !! p)).
Proof.
  intros Horder Hbound. unfold processMustGatherDirectory.
  pose proof (walk_counts w (Walk mustGatherPath) ∅ 0) as Hwalk.
  change (Z.of_nat 0) with 0 in Hwalk. cbn [Nat.add] in Hwalk.
  rewrite Hwalk by lia. clear Hwalk.
  fold (ingest w mustGatherPath).
  set (inventory := ingest w mustGatherPath) in *.
  set (unreadable := length (List.filter (unreadableYaml w) (Walk mustGatherPath))).
  assert (Hu : (unreadable <= length (Walk mustGatherPath))%nat)
    by apply List.filter_length_le.
  pose proof (rangeOrder_length inventory (order inventory) Horder) as Hlen.
  destruct (write_counts outputPath inventory (order inventory) 0 unreadable w)
    as (w' & E & Hmono & Hw).
  { intros key Hkey. apply hasItems_wellKeyed; [apply ingest_wellKeyed|].
    now apply (rangeOrder_elem_of inventory (order inventory)). }
  { lia. }
  change (Z.of_nat 0) with 0 in E. cbn [Nat.add] in E. rewrite E.
  eexists _, _, w'. split; [reflexivity | split; [reflexivity | split; [| split]]].
  - pose proof (List.filter_length (writtenKey outputPath inventory)
                  (order inventory)) as Hsum.
    lia.
  - intros key Hkey. apply Hw.
    now apply (rangeOrder_elem_of inventory (order inventory)).
  - exact Hmono.
Qed.

End DirectoryFacts.

(** ** The must-gather modes *)

Section MustGatherModeFacts.
Import MustGather Collector Diff Modes Shape ModeShape.
Context `{Yaml} `{Host} `{Os}.

Lemma visitFile_no_yaml (w : World) (resourceMap : gmap string (list value))
    (e : WalkEntry.t) :
  yamlFile e = false -> visitFile w resourceMap e = resourceMap.
Proof.
  unfold yamlFile, visitFile.
  destruct (WalkEntry.failed e); [reflexivity|].
  destruct (WalkEntry.isDir e); [reflexivity|]. cbn [negb andb].
  intros Hno. apply orb_false_iff in Hno as [-> ->]. reflexivity.
Qed.

Lemma walkFile_no_yaml (w : World) (st : gmap string (list value) * Z)
    (e : WalkEntry.t) :
  yamlFile e = false -> walkFile w st e = st.
Proof.
  unfold yamlFile, walkFile. destruct st as [resourceMap errorCount].
  destruct (WalkEntry.failed e); [reflexivity|].
  destruct (WalkEntry.isDir e); [reflexivity|]. cbn [negb andb].
  intros Hno. apply orb_false_iff in Hno as [-> ->]. reflexivity.
Qed.

Lemma foldl_unchanged {A B} (f : A -> B -> A) (l : list B) (a : A) :
  (forall b, b ∈ l -> forall a, f a b = a) -> foldl f a l = a.
Proof.
  induction l as [|b l IH]; intros Hf; [reflexivity|].
  cbn [foldl]. rewrite (Hf b) by now left.
  apply IH. intros b' Hb'. apply Hf. now right.
Qed.

(** X23.  A must-gather directory in which the walk finds no YAML file is
    no error: once the path is validated and the output directory made,
    [runMustGatherMode] ends with both counts at zero and writes nothing. *)
Theorem must_gather_without_yaml_is_no_error
    (order : gmap string (list value) -> list string)
    (flags : Flags.t) (w : World) :
  validateMustGatherPath (Flags.mustGather flags) = None ->
  MkdirAll (Flags.outputDir flags) = true ->
  Flags.clean flags = false ->
  (forall e, e ∈ Walk (Flags.mustGather flags) -> yamlFile e = false) ->
  rangeOrder ∅ (order ∅) ->
  runMustGatherMode order flags w = (inr (0, 0), w).
Proof.
  intros Hvalid Hdir Hclean Hno Horder.
  unfold runMustGatherMode. rewrite Hvalid, Hdir, Hclean. cbn [negb].
  unfold processMustGatherDirectory.
  rewrite (foldl_unchanged (walkFile w))
    by (intros e He st; now apply walkFile_no_yaml, Hno).
  unfold rangeOrder in Horder. rewrite map_to_list_empty in Horder.
  apply Permutation_nil_r in Horder. now rewrite Horder.
Qed.

Lemma generateDiff_same_file
    (file outputFile cluster1Name cluster2Name : string) (w w' : World) :
  generateDiff file file outputFile cluster1Name cluster2Name w = (None, w') ->
  exists text,
    ReadFile w file = Some text
    /\ w' = mkWorld
              (<[outputFile :=
                   reportOfSameNames cluster1Name cluster2Name (timeAt (clock w))
                     (parseResources text) (parseResources text)]>
                 (files w))
              (S (clock w)).
Proof.
  intros Hdiff. apply generateDiff_success in Hdiff
    as (content1 & content2 & E1 & E2 & _ & ->).
  assert (content2 = content1) by congruence. subst content2.
  exists content1. split; [exact E1|]. now rewrite report_same_names.
Qed.

Lemma processMustGatherToSingleFile_success
    (order : gmap string (list value) -> list string)
    (mustGatherPath outputFile : string) (w w' : World) :
  processMustGatherToSingleFile order mustGatherPath outputFile w = (None, w') ->
  w' = mkWorld
         (<[outputFile :=
              renderSingleFile (order (ingest w mustGatherPath))
                (ingest w mustGatherPath)]> (files w))
         (clock w).
Proof.
  unfold processMustGatherToSingleFile, WriteFile.
  destruct (Writable outputFile); [|discriminate]. now intros [= <-].
Qed.

(** X24.  Two must-gathers that are called by the same name, as two
    directories [must-gather] in two places are, get one file for both
    snapshots.  When [runMustGatherComparisonMode] succeeds on them, the
    file holds the snapshot of the second, and the report is that of the
    second against itself: no name is only in one of them, whatever the two
    directories hold. *)
Theorem must_gathers_of_one_name_are_compared_with_the_second
    (order1 order2 : gmap string (list value) -> list string)
    (flags : Flags.t) (w w' : World) :
  let name1 := getMustGatherName (Flags.mustGather1 flags) in
  let name2 := getMustGatherName (Flags.mustGather2 flags) in
  let compareDir := Join (Flags.outputDir flags) "comparison" in
  let snapshot := Join compareDir (sanitizeClusterName name2 +:+ "-resources.yaml") in
  let diffFile :=
    Join compareDir ("diff-" +:+ sanitizeClusterName name1 +:+ "-vs-"
                     +:+ sanitizeClusterName name2 +:+ ".txt") in
  let first :=
    renderSingleFile (order1 (ingest w (Flags.mustGather1 flags)))
      (ingest w (Flags.mustGather1 flags)) in
  let w1 := mkWorld (<[snapshot := first]> (files w)) (clock w) in
  let second :=
    renderSingleFile (order2 (ingest w1 (Flags.mustGather2 flags)))
      (ingest w1 (Flags.mustGather2 flags)) in
  runMustGatherComparisonMode order1 order2 flags w = (None, w') ->
  sanitizeClusterName name1 = sanitizeClusterName name2 ->
  files w' !! diffFile
  = Some (reportOfSameNames name1 name2 (timeAt (clock w))
            (parseResources second) (parseResources second))
  /\ (diffFile <> snapshot -> files w' !! snapshot = Some second).
Proof.
  intros name1 name2 compareDir snapshot diffFile first w1 second Hrun Hsame.
  unfold runMustGatherComparisonMode in Hrun.
  destruct (validateMustGatherPath (Flags.mustGather1 flags)); [discriminate|].
  destruct (validateMustGatherPath (Flags.mustGather2 flags)); [discriminate|].
  fold name1 name2 compareDir in Hrun. fold diffFile in Hrun.
  destruct (MkdirAll compareDir); [|discriminate]. cbn [negb] in Hrun.
  rewrite Hsame in Hrun. fold snapshot in Hrun.
  destruct (processMustGatherToSingleFile order1 (Flags.mustGather1 flags)
              snapshot w) as [[e1|] w1'] eqn:E1; [discriminate|].
  apply processMustGatherToSingleFile_success in E1. fold first w1 in E1.
  subst w1'.
  destruct (processMustGatherToSingleFile order2 (Flags.mustGather2 flags)
              snapshot w1) as [[e2|] w2] eqn:E2; [discriminate|].
  apply processMustGatherToSingleFile_success in E2. fold second in E2.
  destruct (generateDiff snapshot snapshot diffFile name1 name2 w2)
    as [[e3|] w3] eqn:E3; [discriminate|].
  injection Hrun as <-.
  apply generateDiff_same_file in E3 as (text & Hread & ->).
  subst w2. unfold ReadFile in Hread. cbn [files clock] in *.
  rewrite lookup_insert_eq in Hread. injection Hread as <-.
  split.
  - now rewrite lookup_insert_eq.
  - intros Hne. rewrite lookup_insert_ne by exact Hne.
    now rewrite lookup_insert_eq.
Qed.

End MustGatherModeFacts.

(** ** The comparison of two clusters *)

Section ClusterModeFacts.
Import MustGather Collector Diff Modes Shape ModeShape.
Context `{Yaml} `{Host} `{Os} `{ClientGo}.

Lemma collectAllResourcesToSingleFile_success (cluster : Cluster)
    (outputFile : string) (w w' : World) (c : Summary) :
  @collectAllResourcesToSingleFile _ cluster _ outputFile w = (inr c, w') ->
  exists text, w' = mkWorld (<[outputFile := text]> (files w)) (clock w).
Proof.
  unfold collectAllResourcesToSingleFile, collectAllResourcesToSingleFileWith.
  destruct ServerPreferredResources as [resources|]; [|discriminate].
  destruct (foldl _ (noneYet, EmptyString) resources) as [c' buffer].
  unfold WriteFile. destruct (Writable outputFile); [|discriminate].
  intros [= _ <-]. now exists buffer.
Qed.

Lemma collectFromCluster_success (kubeconfigPath outputFile : string)
    (w w' : World) :
  collectFromCluster kubeconfigPath outputFile w = (None, w') ->
  exists config c,
    parseKubeConfig kubeconfigPath = inr config
    /\ @collectAllResourcesToSingleFile _ (ClusterOf config) _ outputFile w
       = (inr c, w').
Proof.
  unfold collectFromCluster.
  destruct (parseKubeConfig kubeconfigPath) as [e|config]; [discriminate|].
  destruct (NewDiscoveryClientForConfig config); [|discriminate].
  destruct (NewForConfig config); [|discriminate]. cbn [negb].
  destruct (@collectAllResourcesToSingleFile _ (ClusterOf config) _ outputFile w)
    as [[e|c] w1] eqn:E; [discriminate|].
  intros [= <-]. exists config, c. split; [reflexivity | exact E].
Qed.

(** X25.  Two clusters whose names give the same file name, as
    [prod.example] and [prod-example] do, or two kubeconfigs that call
    their cluster by the same name, get one file for both snapshots.  When
    [runComparisonMode] succeeds on them, the file holds what the
    collection from the second cluster wrote, and the report is that of the
    second snapshot against itself: no name is only in one cluster,
    whatever the two clusters serve. *)
Theorem clusters_of_one_name_are_compared_with_the_second
    (flags : Flags.t) (w w' : World) (name1 name2 : string) :
  let compareDir := Join (Flags.outputDir flags) "comparison" in
  let snapshot := Join compareDir (sanitizeClusterName name2 +:+ "-resources.yaml") in
  let diffFile :=
    Join compareDir ("diff-" +:+ sanitizeClusterName name1 +:+ "-vs-"
                     +:+ sanitizeClusterName name2 +:+ ".txt") in
  getClusterName (Flags.kubeconfig1 flags) = inr name1 ->
  getClusterName (Flags.kubeconfig2 flags) = inr name2 ->
  runComparisonMode flags w = (None, w') ->
  sanitizeClusterName name1 = sanitizeClusterName name2 ->
  exists second,
    files w' !! diffFile
    = Some (reportOfSameNames name1 name2 (timeAt (clock w))
              (parseResources second) (parseResources second))
    /\ (diffFile <> snapshot -> files w' !! snapshot = Some second)
    /\ exists config c w1,
         parseKubeConfig (Flags.kubeconfig2 flags) = inr config
         /\ @collectAllResourcesToSingleFile _ (ClusterOf config) _ snapshot w1
            = (inr c, mkWorld (<[snapshot := second]> (files w1)) (clock w)).
Proof.
  intros compareDir snapshot diffFile Hname1 Hname2 Hrun Hsame.
  unfold runComparisonMode in Hrun.
  destruct (_ || _); [discriminate|].
  rewrite Hname1, Hname2 in Hrun. fold compareDir in Hrun. fold diffFile in Hrun.
  destruct (MkdirAll compareDir); [|discriminate]. cbn [negb] in Hrun.
  rewrite Hsame in Hrun. fold snapshot in Hrun.
  destruct (collectFromCluster (Flags.kubeconfig1 flags) snapshot w)
    as [[e1|] w1] eqn:E1; [discriminate|].
  destruct (collectFromCluster (Flags.kubeconfig2 flags) snapshot w1)
    as [[e2|] w2] eqn:E2; [discriminate|].
  destruct (generateDiff snapshot snapshot diffFile name1 name2 w2)
    as [[e3|] w3] eqn:E3; [discriminate|].
  injection Hrun as <-.
  apply collectFromCluster_success in E1 as (config1 & c1 & _ & E1).
  apply collectAllResourcesToSingleFile_success in E1 as (first & ->).
  apply collectFromCluster_success in E2 as (config2 & c2 & Hconfig & E2).
  pose proof E2 as Hsecond.
  apply collectAllResourcesToSingleFile_success in Hsecond as (second & Hw2).
  cbn [files clock] in Hw2. subst w2.
  apply generateDiff_same_file in E3 as (text & Hread & ->).
  unfold ReadFile in Hread. cbn [files clock] in *.
  rewrite lookup_insert_eq in Hread. injection Hread as <-.
  exists second. split; [| split].
  - now rewrite lookup_insert_eq.
  - intros Hne. rewrite lookup_insert_ne by exact Hne.
    now rewrite lookup_insert_eq.
  - exists config2, c2, (mkWorld (<[snapshot := first]> (files w)) (clock w)).
    split; [exact Hconfig | exact E2].
Qed.

End ClusterModeFacts.

(** ** The report of two must-gathers *)

Section ComparisonFacts.
Import MustGather Collector Diff Modes Shape ModeShape.
Context `{Yaml} `{Host} `{Os}.

Lemma visitFile_agree (w w1 : World) (resourceMap : gmap string (list value))
    (e : WalkEntry.t) :
  files w1 !! WalkEntry.path e = files w !! WalkEntry.path e ->
  visitFile w1 resourceMap e = visitFile w resourceMap e.
Proof.
  intros Hsame. unfold visitFile, processMustGatherFile, ReadFile.
  now rewrite Hsame.
Qed.

Lemma ingest_agree (w w1 : World) (mustGatherPath : string) :
  (forall e, e ∈ Walk mustGatherPath ->
             files w1 !! WalkEntry.path e = files w !! WalkEntry.path e) ->
  ingest w1 mustGatherPath = ingest w mustGatherPath.
Proof.
  unfold ingest. generalize (∅ : gmap string (list value)).
  induction (Walk mustGatherPath) as [|e entries IH]; intros resourceMap Hsame;
    [reflexivity|].
  cbn [foldl]. rewrite (visitFile_agree w w1) by (apply Hsame; now left).
  apply IH. intros e' He'. apply Hsame. now right.
Qed.

Lemma filter_all {A} (p : A -> bool) (l : list A) :
  (forall x, x ∈ l -> p x = true) -> List.filter p l = l.
Proof.
  induction l as [|a l IH]; intros Hall; [reflexivity|].
  cbn [List.filter]. rewrite (Hall a) by now left.
  f_equal. apply IH. intros x Hx. apply Hall. now right.
Qed.

Lemma parseResources_renderSingleFile (resourceMap : gmap string (list value))
    (keys : list string) :
  rangeOrder resourceMap keys -> wellKeyed resourceMap ->
  (forall key, is_Some (resourceMap !! key) -> cleanKey key = true) ->
  (forall key yamlData,
      is_Some (resourceMap !! key) ->
      Marshal (listOf (default [] (resourceMap !! key))) = Some yamlData ->
      markerFree yamlData = true) ->
  parseResources (renderSingleFile keys resourceMap) = keys.
Proof.
  intros Horder Hwell Hclean Hfree.
  assert (Hkeys : forall key, key ∈ keys -> is_Some (resourceMap !! key)).
  { intros key. now apply rangeOrder_elem_of. }
  pose proof (renderSingleFile_complete resourceMap keys EmptyString []
                complete_empty
                (fun key Hkey =>
                   proj1 (proj1 (cleanKey_spec key) (Hclean key (Hkeys key Hkey))))
                (fun key yamlData Hkey => Hfree key yamlData (Hkeys key Hkey))
                EmptyString) as Hc.
  rewrite str_app_empty_r in Hc. unfold renderSingleFile. rewrite Hc.
  cbn [app]. rewrite parseResources_empty, app_nil_r.
  rewrite filter_all
    by (intros key Hkey; apply hasItems_wellKeyed; [exact Hwell | now apply Hkeys]).
  apply fmap_TrimSpace_clean. intros key Hkey. now apply Hclean, Hkeys.
Qed.

(** X26.  What the report of two must-gathers compares.  When the two
    snapshots go to two files, the first of which is no file of the second
    must-gather, the keys of the two inventories are clean, and the YAML of
    the lists of the two inventories has no line that begins with the
    marker, the report of [runMustGatherComparisonMode] is the report of the
    keys of the two inventories, in the order of the two loops: a key is
    reported as only in the first exactly when the first inventory has it
    and the second has not, and the other way round. *)
Theorem must_gather_report_compares_the_keys
    (order1 order2 : gmap string (list value) -> list string)
    (flags : Flags.t) (w w' : World) :
  let name1 := getMustGatherName (Flags.mustGather1 flags) in
  let name2 := getMustGatherName (Flags.mustGather2 flags) in
  let compareDir := Join (Flags.outputDir flags) "comparison" in
  let snapshot1 := Join compareDir (sanitizeClusterName name1 +:+ "-resources.yaml") in
  let snapshot2 := Join compareDir (sanitizeClusterName name2 +:+ "-resources.yaml") in
  let diffFile :=
    Join compareDir ("diff-" +:+ sanitizeClusterName name1 +:+ "-vs-"
                     +:+ sanitizeClusterName name2 +:+ ".txt") in
  let inventory1 := ingest w (Flags.mustGather1 flags) in
  let inventory2 := ingest w (Flags.mustGather2 flags) in
  runMustGatherComparisonMode order1 order2 flags w = (None, w') ->
  snapshot1 <> snapshot2 ->
  (forall e, e ∈ Walk (Flags.mustGather2 flags) -> WalkEntry.path e <> snapshot1) ->
  rangeOrder inventory1 (order1 inventory1) ->
  rangeOrder inventory2 (order2 inventory2) ->
  (forall key,
      is_Some (inventory1 !! key) \/ is_Some (inventory2 !! key) ->
      cleanKey key = true) ->
  (forall key yamlData,
      is_Some (inventory1 !! key) ->
      Marshal (listOf (default [] (inventory1 !! key))) = Some yamlData ->
      markerFree yamlData = true) ->
  (forall key yamlData,
      is_Some (inventory2 !! key) ->
      Marshal (listOf (default [] (inventory2 !! key))) = Some yamlData ->
      markerFree yamlData = true) ->
  files w' !! diffFile
  = Some (report name1 name2 (timeAt (clock w))
            (order1 inventory1) (order2 inventory2))
  /\ (forall key,
        key ∈ findUniqueResources (order1 inventory1) (order2 inventory2)
        <-> is_Some (inventory1 !! key) /\ inventory2 !! key = None)
  /\ (forall key,
        key ∈ findUniqueResources (order2 inventory2) (order1 inventory1)
        <-> is_Some (inventory2 !! key) /\ inventory1 !! key = None).
Proof.
  intros name1 name2 compareDir snapshot1 snapshot2 diffFile inventory1 inventory2
    Hrun Hfiles Hwalk Horder1 Horder2 Hclean Hfree1 Hfree2.
  split; [| split].
  - unfold runMustGatherComparisonMode in Hrun.
    destruct (validateMustGatherPath (Flags.mustGather1 flags)); [discriminate|].
    destruct (validateMustGatherPath (Flags.mustGather2 flags)); [discriminate|].
    fold name1 name2 compareDir in Hrun.
    fold snapshot1 snapshot2 diffFile in Hrun.
    destruct (MkdirAll compareDir); [|discriminate]. cbn [negb] in Hrun.
    destruct (processMustGatherToSingleFile order1 (Flags.mustGather1 flags)
                snapshot1 w) as [[e1|] w1] eqn:E1; [discriminate|].
    apply processMustGatherToSingleFile_success in E1. fold inventory1 in E1.
    destruct (processMustGatherToSingleFile order2 (Flags.mustGather2 flags)
                snapshot2 w1) as [[e2|] w2] eqn:E2; [discriminate|].
    apply processMustGatherToSingleFile_success in E2.
    assert (Hinv2 : ingest w1 (Flags.mustGather2 flags) = inventory2).
    { apply ingest_agree. intros e He. subst w1. cbn [files].
      apply lookup_insert_ne. intros E. now apply (Hwalk e He). }
    rewrite Hinv2 in E2.
    destruct (generateDiff snapshot1 snapshot2 diffFile name1 name2 w2)
      as [[e3|] w3] eqn:E3; [discriminate|].
    injection Hrun as <-.
    apply generateDiff_success in E3
      as (content1 & content2 & Hread1 & Hread2 & _ & ->).
    subst w2 w1. unfold ReadFile in Hread1, Hread2. cbn [files clock] in *.
    rewrite lookup_insert_eq in Hread2. injection Hread2 as <-.
    rewrite lookup_insert_ne, lookup_insert_eq in Hread1 by congruence.
    injection Hread1 as <-.
    rewrite lookup_insert_eq.
    rewrite !parseResources_renderSingleFile;
      try assumption; try apply ingest_wellKeyed;
      try (intros key Hkey; apply Hclean; tauto).
    reflexivity.
  - intros key. rewrite findUniqueResources_difference.
    rewrite (rangeOrder_elem_of inventory1 _ key Horder1).
    rewrite (rangeOrder_elem_of inventory2 _ key Horder2).
    rewrite <- eq_None_not_Some. tauto.
  - intros key. rewrite findUniqueResources_difference.
    rewrite (rangeOrder_elem_of inventory1 _ key Horder1).
    rewrite (rangeOrder_elem_of inventory2 _ key Horder2).
    rewrite <- eq_None_not_Some. tauto.
Qed.

End ComparisonFacts.

(** ** The choice of the mode *)

Section DispatchFacts.
Import MustGather Collector Diff Modes Shape ModeShape.
Context `{Yaml} `{Host} `{Os} `{ClientGo}.

Local Ltac flag_cases :=
  repeat match goal with
         | |- context [Deprecation.isEmpty ?s] =>
             destruct (Deprecation.isEmpty s) eqn:?; cbn [negb andb orb] in *
         end.

(** X27.  The must-gather flags exclude the kubeconfig flags.  With a
    must-gather flag and a kubeconfig flag [runCollector] returns an error
    and does nothing, and so it does with [must-gather] and one of
    [must-gather1] and [must-gather2], or with only one of these two.
    Otherwise a must-gather flag decides the mode: [compare], [single-file]
    and [file] then change nothing. *)
Theorem must_gather_flags_exclude_kubeconfig_flags
    (order1 order2 : gmap string (list value) -> list string)
    (flags : Flags.t) (w : World) :
  anyMustGather flags = true ->
  (anyKubeconfig flags = true
   \/ given (Flags.mustGather flags)
      && (given (Flags.mustGather1 flags) || given (Flags.mustGather2 flags)) = true
   \/ given (Flags.mustGather1 flags) <> given (Flags.mustGather2 flags) ->
   exists e, runCollector order1 order2 flags w = (Some e, w))
  /\ (anyKubeconfig flags = false ->
      given (Flags.mustGather flags) = false ->
      given (Flags.mustGather1 flags) = given (Flags.mustGather2 flags) ->
      runCollector order1 order2 flags w
      = runMustGatherComparisonMode order1 order2 flags w)
  /\ (anyKubeconfig flags = false ->
      given (Flags.mustGather1 flags) = false ->
      given (Flags.mustGather2 flags) = false ->
      fst (runCollector order1 order2 flags w)
      = match fst (runMustGatherMode order1 flags w) with
        | inl e => Some e
        | inr _ => None
        end
      /\ snd (runCollector order1 order2 flags w)
         = snd (runMustGatherMode order1 flags w))
  /\ (forall flags',
        samePaths flags flags' ->
        runCollector order1 order2 flags w = runCollector order1 order2 flags' w).
Proof.
  unfold anyMustGather, anyKubeconfig, given. intros Hany.
  split; [| split; [| split]].
  - intros Hmix. unfold runCollector. flag_cases; eauto;
      try discriminate; destruct Hmix as [Hm | [Hm | Hm]];
      try discriminate; congruence.
  - intros Hk Hmg Hboth. unfold runCollector. flag_cases;
      try discriminate; reflexivity.
  - intros Hk Hmg1 Hmg2. unfold runCollector. flag_cases; try discriminate.
    destruct (runMustGatherMode order1 flags w) as [[e|counts] w1]; now split.
  - intros flags' (E1 & E2 & E3 & E4 & E5 & E6 & E7 & E8).
    destruct flags, flags'. cbn [Flags.kubeconfig Flags.kubeconfig1 Flags.kubeconfig2
      Flags.mustGather Flags.mustGather1 Flags.mustGather2 Flags.outputDir
      Flags.clean] in *. subst.
    unfold runCollector, runMustGatherComparisonMode, runMustGatherMode.
    cbn [Flags.kubeconfig Flags.kubeconfig1 Flags.kubeconfig2
      Flags.mustGather Flags.mustGather1 Flags.mustGather2 Flags.outputDir
      Flags.clean Flags.compareMode] in *.
    flag_cases; try discriminate; reflexivity.
Qed.

(** X28.  Without a must-gather flag, [kubeconfig1] and [kubeconfig2]
    together ask for the comparison, with [compare] or without it, and
    [compare] without the two is an error and does nothing, also when
    [kubeconfig] is given. *)
Theorem comparison_needs_both_kubeconfigs
    (order1 order2 : gmap string (list value) -> list string)
    (flags : Flags.t) (w : World) :
  anyMustGather flags = false ->
  (given (Flags.kubeconfig1 flags) && given (Flags.kubeconfig2 flags) = true ->
   runCollector order1 order2 flags w = runComparisonMode flags w)
  /\ (given (Flags.kubeconfig1 flags) && given (Flags.kubeconfig2 flags) = false ->
      Flags.compareMode flags = true ->
      runCollector order1 order2 flags w = (Some NeedBothKubeconfigs, w))
  /\ (given (Flags.kubeconfig1 flags) && given (Flags.kubeconfig2 flags) = false ->
      Flags.compareMode flags = false ->
      runCollector order1 order2 flags w = runCollection flags w).
Proof.
  unfold anyMustGather, given. intros Hany.
  split; [| split].
  - intros Hboth. unfold runCollector. flag_cases; try discriminate.
    now rewrite orb_true_r.
  - intros Hboth Hcompare. unfold runCollector, runComparisonMode.
    rewrite Hcompare. flag_cases; try discriminate; reflexivity.
  - intros Hboth Hcompare. unfold runCollector.
    rewrite Hcompare. flag_cases; try discriminate; reflexivity.
Qed.

(** X29.  The collection from one cluster.  Its kubeconfig is the first
    that is given of [kubeconfig], [kubeconfig1] and [$KUBECONFIG], else the
    one in the home directory; [kubeconfig2] alone is not looked at.  When
    that file does not exist the run fails on it and does nothing.
    Otherwise the resources of the cluster behind it go to the single file
    when [file] or [single-file] is given, and [output] then plays no part,
    or else to the directory [output]. *)
Theorem single_collection_picks_kubeconfig_and_output
    (order1 order2 : gmap string (list value) -> list string)
    (flags : Flags.t) (w : World) :
  anyMustGather flags = false ->
  Flags.compareMode flags = false ->
  given (Flags.kubeconfig1 flags) && given (Flags.kubeconfig2 flags) = false ->
  (Stat (chosenKubeconfig flags) = NotExist ->
   runCollector order1 order2 flags w
   = (Some (Wrapped "failed to get kubeconfig"
              (KubeconfigNotFound (chosenKubeconfig flags))), w))
  /\ (Stat (chosenKubeconfig flags) <> NotExist ->
      BuildConfigFromFlags (chosenKubeconfig flags) = true ->
      NewDiscoveryClientForConfig (chosenKubeconfig flags) = true ->
      NewForConfig (chosenKubeconfig flags) = true ->
      Flags.clean flags = false ->
      match chosenOutputFile flags with
      | Some outputFile =>
          MkdirAll (Dir outputFile) = true ->
          runCollector order1 order2 flags w
          = ended (@collectAllResourcesToSingleFile _
                     (ClusterOf (chosenKubeconfig flags)) _ outputFile w)
      | None =>
          MkdirAll (Flags.outputDir flags) = true ->
          runCollector order1 order2 flags w
          = ended (@collectResources _ (ClusterOf (chosenKubeconfig flags)) _
                     (Flags.outputDir flags) w)
      end).
Proof.
  intros Hany Hcompare Hboth.
  assert (Hrun : runCollector order1 order2 flags w = runCollection flags w).
  { revert Hany Hboth. unfold anyMustGather, given, runCollector.
    rewrite Hcompare. intros Hany Hboth. flag_cases; try discriminate; reflexivity. }
  rewrite Hrun. clear Hrun Hany.
  assert (Hparse :
            parseKubeConfig
              (if Deprecation.isEmpty (Flags.kubeconfig flags)
                  && negb (Deprecation.isEmpty (Flags.kubeconfig1 flags))
               then Flags.kubeconfig1 flags else Flags.kubeconfig flags)
            = match Stat (chosenKubeconfig flags) with
              | NotExist => inl (KubeconfigNotFound (chosenKubeconfig flags))
              | _ =>
                  if BuildConfigFromFlags (chosenKubeconfig flags)
                  then inr (chosenKubeconfig flags)
                  else inl (Wrapped "failed to build config from kubeconfig"
                              BuildConfig)
              end).
  { unfold parseKubeConfig, chosenKubeconfig, given.
    destruct (Flags.kubeconfig flags) as [|c k]; cbn [Deprecation.isEmpty negb andb];
      [| reflexivity].
    destruct (Flags.kubeconfig1 flags) as [|c k]; cbn [Deprecation.isEmpty negb andb];
      reflexivity. }
  unfold runCollection. rewrite Hparse. clear Hparse.
  split.
  - intros Hstat. rewrite Hstat.
    destruct (negb _); [| destruct (Flags.singleFile flags)]; reflexivity.
  - intros Hstat Hbuild Hdiscovery Hdynamic Hclean.
    unfold chosenOutputFile, given, ended.
    destruct (Flags.outputFile flags) as [|c f] eqn:Hfile;
      cbn [Deprecation.isEmpty negb].
    + destruct (Flags.singleFile flags); intros Hdir;
        (destruct (Stat (chosenKubeconfig flags)); [congruence | | |]);
        rewrite Hbuild, Hdiscovery, Hdynamic, ?Hdir, Hclean;
        cbn [negb Deprecation.isEmpty]; rewrite ?Hdir; reflexivity.
    + intros Hdir.
      (destruct (Stat (chosenKubeconfig flags)); [congruence | | |]);
        rewrite Hbuild, Hdiscovery, Hdynamic; cbn [negb Deprecation.isEmpty];
        rewrite Hdir, Hclean; reflexivity.
Qed.

End DispatchFacts.

(** ** The modes on the sample data *)

Section ModeSamples.
Import MustGather Collector Diff Modes Shape ModeShape Examples Samples.

(** X18 on the first sample kubeconfig. *)
Lemma snapshot_names_are_proper_witness :
  "prod.example" <> EmptyString
  /\ sanitizeClusterName "prod.example" <> EmptyString.
Proof.
  destruct (proj2 snapshot_names_are_proper sampleClientGo "/kube/east"
              "prod.example" eq_refl) as (Hname & Hfile & _).
  split; [exact Hname | exact Hfile].
Defined.

(** X19 on two snapshots that list the same two names. *)
Lemma report_of_same_names_shows_no_difference_witness :
  findUniqueResources ["pods"; "events"] ["events"; "pods"; "pods"] = []
  /\ findUniqueResources ["events"; "pods"; "pods"] ["pods"; "events"] = []
  /\ report "east" "west" "now" ["pods"; "events"] ["events"; "pods"; "pods"]
     = reportOfSameNames "east" "west" "now"
         ["pods"; "events"] ["events"; "pods"; "pods"].
Proof.
  apply (report_of_same_names_shows_no_difference "east" "west" "now"
           ["pods"; "events"] ["events"; "pods"; "pods"]).
  intros x. rewrite !elem_of_cons, !elem_of_nil. tauto.
Defined.

(** X20 on a full disk: the write of the report fails, the error is
    returned, and the older report is gone but for four bytes of the new
    one. *)
Lemma generateDiff_changes_the_report_file_only_witness :
  @generateDiff fullDisk "/out/east.yaml" "/out/west.yaml" "/out/diff.txt"
    "east" "west" snapshotWorld
  = (Some (WriteReport "/out/diff.txt"),
     mkWorld (<["/out/diff.txt" := "=== "]> (files snapshotWorld)) 1)
  /\ files (snd (@generateDiff fullDisk "/out/east.yaml" "/out/west.yaml"
                   "/out/diff.txt" "east" "west" snapshotWorld))
       !! "/out/east.yaml"
     = Some liveSnapshot.
Proof.
  split; [vm_compute; reflexivity|].
  rewrite (proj1 (proj2 (proj2
             (@generateDiff_changes_the_report_file_only fullDisk
                "/out/east.yaml" "/out/west.yaml" "/out/diff.txt" "east" "west"
                snapshotWorld))) "/out/east.yaml") by discriminate.
  reflexivity.
Defined.

(** X21 on the deployments of [apps/v1]. *)
Lemma directory_header_is_cut_at_the_first_dash_witness :
  SplitN2 (makeResourceKey "apps/v1" "Deployment") "-" = ["apps"; "v1-deployments"].
Proof.
  exact (proj2 (directory_header_is_cut_at_the_first_dash "Deployment")
           "apps" "/"%char "v1" eq_refl eq_refl).
Defined.

(** X22 on the first sample must-gather: two keys, two files, and one YAML
    file that cannot be read. *)
Lemma processMustGatherDirectory_counts_every_key_once_witness :
  exists collectedCount errorCount w',
    @processMustGatherDirectory sampleYaml sampleHost keysOf
      "/a/must-gather" "/out" twoBundles
    = (collectedCount, errorCount, w')
    /\ collectedCount = 2
    /\ collectedCount + errorCount = 2 + 1.
Proof.
  destruct (@processMustGatherDirectory_counts_every_key_once sampleYaml sampleHost
              keysOf "/a/must-gather" "/out" twoBundles)
    as (collectedCount & errorCount & w' & E & Hc & Hsum & _).
  - unfold rangeOrder, keysOf. reflexivity.
  - vm_compute. reflexivity.
  - exists collectedCount, errorCount, w'.
    split; [exact E | split; [exact Hc | exact Hsum]].
Defined.

(** X23 on a directory with one file that is no YAML file. *)
Lemma must_gather_without_yaml_is_no_error_witness :
  @runMustGatherMode sampleYaml bareHost sampleOs keysOf mustGatherFlags twoBundles
  = (inr (0, 0), twoBundles).
Proof.
  apply (@must_gather_without_yaml_is_no_error sampleYaml bareHost sampleOs).
  - reflexivity.
  - reflexivity.
  - reflexivity.
  - intros e He. cbn [Walk bareHost mustGatherFlags Flags.mustGather] in He.
    repeat (apply elem_of_cons in He as [-> | He]; [reflexivity|]).
    now apply elem_of_nil in He.
  - unfold rangeOrder, keysOf. reflexivity.
Defined.

(** X24 on two must-gathers called [must-gather]: the first has pods and a
    service, the second a service, and the report finds no difference. *)
Lemma must_gathers_of_one_name_are_compared_with_the_second_witness :
  files (snd (@runMustGatherComparisonMode sampleYaml sampleHost sampleOs
                keysOf keysOf sameNameFlags twoBundles))
    !! "/out/comparison/diff-must-gather-vs-must-gather.txt"
  = Some (reportOfSameNames "must-gather" "must-gather" "2025-01-01T00:00:00Z"
            ["v1-services"] ["v1-services"]).
Proof.
  pose proof (@must_gathers_of_one_name_are_compared_with_the_second
                sampleYaml sampleHost sampleOs keysOf keysOf sameNameFlags
                twoBundles
                (snd (@runMustGatherComparisonMode sampleYaml sampleHost sampleOs
                        keysOf keysOf sameNameFlags twoBundles))) as Hsame.
  cbv zeta in Hsame. destruct Hsame as [Hdiff _].
  - vm_compute. reflexivity.
  - reflexivity.
  - vm_compute in Hdiff |- *. exact Hdiff.
Defined.

(** X25 on the clusters [prod.example] and [prod-example]. *)
Lemma clusters_of_one_name_are_compared_with_the_second_witness :
  exists second,
    files (snd (@runComparisonMode sampleYaml sampleHost sampleOs sampleClientGo
                  clusterFlags emptyWorld))
      !! "/out/comparison/diff-prod-example-vs-prod-example.txt"
    = Some (reportOfSameNames "prod.example" "prod-example" "2025-01-01T00:00:00Z"
              (parseResources second) (parseResources second)).
Proof.
  destruct (@clusters_of_one_name_are_compared_with_the_second
              sampleYaml sampleHost sampleOs sampleClientGo clusterFlags emptyWorld
              (snd (@runComparisonMode sampleYaml sampleHost sampleOs sampleClientGo
                      clusterFlags emptyWorld))
              "prod.example" "prod-example")
    as (second & Hdiff & _).
  - reflexivity.
  - reflexivity.
  - vm_compute. reflexivity.
  - reflexivity.
  - exists second. exact Hdiff.
Defined.

(** X26 on a must-gather with pods and a service and one with a service,
    with a YAML library that writes a marker line for longer lists: the pods
    are only in the first. *)
Lemma must_gather_report_compares_the_keys_witness :
  files (snd (@runMustGatherComparisonMode blockingYaml sampleHost sampleOs
                keysOf keysOf twoNameFlags twoBundles))
    !! "/out/comparison/diff-must-gather-vs-other.txt"
  = Some (report "must-gather" "other" "2025-01-01T00:00:00Z"
            ["v1-pods"; "v1-services"] ["v1-services"])
  /\ findUniqueResources ["v1-pods"; "v1-services"] ["v1-services"] = ["v1-pods"]
  /\ (exists yamlData,
        @Marshal blockingYaml (listOf [VMap podA; VMap podB; VMap podA])
        = Some yamlData
        /\ markerFree yamlData = false).
Proof.
  pose proof (@must_gather_report_compares_the_keys
                blockingYaml sampleHost sampleOs keysOf keysOf twoNameFlags
                twoBundles
                (snd (@runMustGatherComparisonMode blockingYaml sampleHost sampleOs
                        keysOf keysOf twoNameFlags twoBundles))) as Hreport.
  cbv zeta in Hreport. destruct Hreport as [Hdiff _].
  - vm_compute. reflexivity.
  - vm_compute. discriminate.
  - intros e He. cbn [Walk sampleHost twoNameFlags Flags.mustGather2] in He.
    repeat (apply elem_of_cons in He as [-> | He]; [vm_compute; discriminate|]).
    now apply elem_of_nil in He.
  - unfold rangeOrder, keysOf. reflexivity.
  - unfold rangeOrder, keysOf. reflexivity.
  - intros key [Hkey | Hkey];
      apply (rangeOrder_elem_of _ (keysOf _) key
               ltac:(unfold rangeOrder, keysOf; reflexivity)) in Hkey;
      vm_compute in Hkey;
      repeat (apply elem_of_cons in Hkey as [-> | Hkey]; [reflexivity|]);
      now apply elem_of_nil in Hkey.
  - intros key yamlData Hkey.
    apply (rangeOrder_elem_of _ (keysOf _) key
             ltac:(unfold rangeOrder, keysOf; reflexivity)) in Hkey.
    vm_compute in Hkey.
    repeat (apply elem_of_cons in Hkey as [-> | Hkey];
            [vm_compute; intros [= <-]; reflexivity|]).
    now apply elem_of_nil in Hkey.
  - intros key yamlData Hkey.
    apply (rangeOrder_elem_of _ (keysOf _) key
             ltac:(unfold rangeOrder, keysOf; reflexivity)) in Hkey.
    vm_compute in Hkey.
    repeat (apply elem_of_cons in Hkey as [-> | Hkey];
            [vm_compute; intros [= <-]; reflexivity|]).
    now apply elem_of_nil in Hkey.
  - split; [| split; [reflexivity|]].
    + vm_compute in Hdiff |- *. exact Hdiff.
    + eexists. split; [reflexivity | vm_compute; reflexivity].
Defined.

(** X27 on [--must-gather] with [--kubeconfig]. *)
Lemma must_gather_flags_exclude_kubeconfig_flags_witness :
  exists e,
    @runCollector sampleYaml sampleHost sampleOs sampleClientGo keysOf keysOf
      mixedFlags twoBundles
    = (Some e, twoBundles).
Proof.
  apply (proj1 (@must_gather_flags_exclude_kubeconfig_flags sampleYaml sampleHost
                  sampleOs sampleClientGo keysOf keysOf mixedFlags twoBundles
                  eq_refl)).
  left. reflexivity.
Defined.

(** X28 on [--compare] with [--kubeconfig] alone. *)
Lemma comparison_needs_both_kubeconfigs_witness :
  @runCollector sampleYaml sampleHost sampleOs sampleClientGo keysOf keysOf
    compareFlags emptyWorld
  = (Some NeedBothKubeconfigs, emptyWorld).
Proof.
  apply (proj1 (proj2 (@comparison_needs_both_kubeconfigs sampleYaml sampleHost
                         sampleOs sampleClientGo keysOf keysOf compareFlags
                         emptyWorld eq_refl)));
    reflexivity.
Defined.

(** X29 on [--kubeconfig2] alone: the run looks for the kubeconfig of the
    home directory, which is not there. *)
Lemma single_collection_picks_kubeconfig_and_output_witness :
  @runCollector sampleYaml sampleHost sampleOs sampleClientGo keysOf keysOf
    secondOnlyFlags emptyWorld
  = (Some (Wrapped "failed to get kubeconfig"
             (KubeconfigNotFound "/root/.kube/config")), emptyWorld).
Proof.
  apply (proj1 (@single_collection_picks_kubeconfig_and_output sampleYaml
                  sampleHost sampleOs sampleClientGo keysOf keysOf secondOnlyFlags
                  emptyWorld eq_refl eq_refl eq_refl)).
  reflexivity.
Defined.

End ModeSamples.
